(** * cipres_scripts: a shallow embedding of [cipres_data_parse.py] and
    [post_garli.py], and the properties of their extractors.

    The two scripts read text files line by line, match every line against a
    few regular expressions and keep a handful of scalars.  The embedding
    follows the scripts statement by statement:

    - text is a list of Unicode code points; a file is the list of lines
      that iterating over the opened file yields (each line still carrying
      its newline);
    - Python values that change type at run time ([num_reps] is the int [1]
      or a captured string) are a tagged union;
    - exceptions are an error monad, loops with [break] and [continue] a
      fold over the lines with an explicit control result;
    - the [re] module is a small backtracking matcher with Python's greedy,
      leftmost semantics.

    Files are opened in mode [rU], which Python 3 accepts up to version
    3.10; opening, decoding and reading a file that exists is taken to
    succeed.  The interpreter is CPython 3.10 from release 3.10.7 on: the
    character classes are those of its Unicode database, version 13.0.0,
    and [int] converts numerals of at most 4300 digits. *)

From Stdlib Require Import Ascii String.
From Stdlib Require Import List NArith ZArith Lia Bool Arith PeanoNat.
From Stdlib Require Import Numbers.DecimalString.
From Stdlib Require Import Sorting.Sorted Sorting.Permutation.
Import ListNotations.

Set Implicit Arguments.

(* ================================================================== *)
(** * Text *)
(* ================================================================== *)

Module PyText.

(** Python text.  A character is a Unicode code point. *)
Definition char := N.
Definition text := list char.

(** The code point of a character written in ASCII, and the text of a
    literal written in ASCII. *)
Definition chr (a : ascii) : char := N_of_ascii a.
Definition txt (s : string) : text := map chr (list_ascii_of_string s).

Definition dquote : char := 34%N.
Definition newline : char := 10%N.

(** Membership in a table of ranges of code points, both ends included. *)
Definition in_range (c : char) (r : N * N) : bool :=
  (fst r <=? c)%N && (c <=? snd r)%N.

Definition in_ranges (t : list (N * N)) (c : char) : bool :=
  existsb (in_range c) t.

(** White space: the characters [str.isspace] accepts, which are the ones
    [strip], [rstrip] and [split] remove and the class [\s] matches. *)
Definition space_ranges : list (N * N) :=
  [(0x9, 0xD); (0x1C, 0x20); (0x85, 0x85); (0xA0, 0xA0); (0x1680, 0x1680);
   (0x2000, 0x200A); (0x2028, 0x2029); (0x202F, 0x202F); (0x205F, 0x205F);
   (0x3000, 0x3000)]%N.

(** Decimal digits, general category Nd: the class [\d], and the digits
    [int] and [float] accept.  Every range starts at a digit zero and holds
    whole runs of the ten digits. *)
Definition decimal_ranges : list (N * N) :=
  [(0x30, 0x39); (0x660, 0x669); (0x6F0, 0x6F9); (0x7C0, 0x7C9);
   (0x966, 0x96F); (0x9E6, 0x9EF); (0xA66, 0xA6F); (0xAE6, 0xAEF);
   (0xB66, 0xB6F); (0xBE6, 0xBEF); (0xC66, 0xC6F); (0xCE6, 0xCEF);
   (0xD66, 0xD6F); (0xDE6, 0xDEF); (0xE50, 0xE59); (0xED0, 0xED9);
   (0xF20, 0xF29); (0x1040, 0x1049); (0x1090, 0x1099); (0x17E0, 0x17E9);
   (0x1810, 0x1819); (0x1946, 0x194F); (0x19D0, 0x19D9); (0x1A80, 0x1A89);
   (0x1A90, 0x1A99); (0x1B50, 0x1B59); (0x1BB0, 0x1BB9); (0x1C40, 0x1C49);
   (0x1C50, 0x1C59); (0xA620, 0xA629); (0xA8D0, 0xA8D9); (0xA900, 0xA909);
   (0xA9D0, 0xA9D9); (0xA9F0, 0xA9F9); (0xAA50, 0xAA59); (0xABF0, 0xABF9);
   (0xFF10, 0xFF19); (0x104A0, 0x104A9); (0x10D30, 0x10D39);
   (0x11066, 0x1106F); (0x110F0, 0x110F9); (0x11136, 0x1113F);
   (0x111D0, 0x111D9); (0x112F0, 0x112F9); (0x11450, 0x11459);
   (0x114D0, 0x114D9); (0x11650, 0x11659); (0x116C0, 0x116C9);
   (0x11730, 0x11739); (0x118E0, 0x118E9); (0x11950, 0x11959);
   (0x11C50, 0x11C59); (0x11D50, 0x11D59); (0x11DA0, 0x11DA9);
   (0x16A60, 0x16A69); (0x16B50, 0x16B59); (0x1D7CE, 0x1D7FF);
   (0x1E140, 0x1E149); (0x1E2F0, 0x1E2F9); (0x1E950, 0x1E959);
   (0x1FBF0, 0x1FBF9)]%N.

(** Digits in the sense of [str.isdigit]: the decimal digits and the
    characters of numeric type Digit, such as superscripts. *)
Definition digit_ranges : list (N * N) :=
  [(0x30, 0x39); (0xB2, 0xB3); (0xB9, 0xB9); (0x660, 0x669);
   (0x6F0, 0x6F9); (0x7C0, 0x7C9); (0x966, 0x96F); (0x9E6, 0x9EF);
   (0xA66, 0xA6F); (0xAE6, 0xAEF); (0xB66, 0xB6F); (0xBE6, 0xBEF);
   (0xC66, 0xC6F); (0xCE6, 0xCEF); (0xD66, 0xD6F); (0xDE6, 0xDEF);
   (0xE50, 0xE59); (0xED0, 0xED9); (0xF20, 0xF29); (0x1040, 0x1049);
   (0x1090, 0x1099); (0x1369, 0x1371); (0x17E0, 0x17E9); (0x1810, 0x1819);
   (0x1946, 0x194F); (0x19D0, 0x19DA); (0x1A80, 0x1A89); (0x1A90, 0x1A99);
   (0x1B50, 0x1B59); (0x1BB0, 0x1BB9); (0x1C40, 0x1C49); (0x1C50, 0x1C59);
   (0x2070, 0x2070); (0x2074, 0x2079); (0x2080, 0x2089); (0x2460, 0x2468);
   (0x2474, 0x247C); (0x2488, 0x2490); (0x24EA, 0x24EA); (0x24F5, 0x24FD);
   (0x24FF, 0x24FF); (0x2776, 0x277E); (0x2780, 0x2788); (0x278A, 0x2792);
   (0xA620, 0xA629); (0xA8D0, 0xA8D9); (0xA900, 0xA909); (0xA9D0, 0xA9D9);
   (0xA9F0, 0xA9F9); (0xAA50, 0xAA59); (0xABF0, 0xABF9); (0xFF10, 0xFF19);
   (0x104A0, 0x104A9); (0x10A40, 0x10A43); (0x10D30, 0x10D39);
   (0x10E60, 0x10E68); (0x11052, 0x1105A); (0x11066, 0x1106F);
   (0x110F0, 0x110F9); (0x11136, 0x1113F); (0x111D0, 0x111D9);
   (0x112F0, 0x112F9); (0x11450, 0x11459); (0x114D0, 0x114D9);
   (0x11650, 0x11659); (0x116C0, 0x116C9); (0x11730, 0x11739);
   (0x118E0, 0x118E9); (0x11950, 0x11959); (0x11C50, 0x11C59);
   (0x11D50, 0x11D59); (0x11DA0, 0x11DA9); (0x16A60, 0x16A69);
   (0x16B50, 0x16B59); (0x1D7CE, 0x1D7FF); (0x1E140, 0x1E149);
   (0x1E2F0, 0x1E2F9); (0x1E950, 0x1E959); (0x1F100, 0x1F10A);
   (0x1FBF0, 0x1FBF9)]%N.

Definition py_isspace (c : char) : bool := in_ranges space_ranges c.
Definition is_decimal (c : char) : bool := in_ranges decimal_ranges c.
Definition is_digit (c : char) : bool := in_ranges digit_ranges c.

Fixpoint py_lstrip (s : text) : text :=
  match s with
  | c :: s' => if py_isspace c then py_lstrip s' else s
  | [] => []
  end.

(** [s.rstrip()] *)
Definition py_rstrip (s : text) : text := rev (py_lstrip (rev s)).

(** [s.strip()] *)
Definition py_strip (s : text) : text := py_lstrip (py_rstrip s).

Fixpoint starts_with (p s : text) : bool :=
  match p, s with
  | [], _ => true
  | a :: p', b :: s' => N.eqb a b && starts_with p' s'
  | _ :: _, [] => false
  end.

Fixpoint find_from (sub s : text) (i : Z) : Z :=
  if starts_with sub s then i
  else match s with
       | [] => (-1)%Z
       | _ :: s' => find_from sub s' (i + 1)%Z
       end.

(** [s.find(sub)]: the lowest index where [sub] occurs, or [-1]. *)
Definition py_find (s sub : text) : Z := find_from sub s 0%Z.

(** [s.split(sep)] for a one-character separator: never empty. *)
Fixpoint py_split (sep : char) (s : text) : list text :=
  match s with
  | [] => [[]]
  | c :: s' =>
      if N.eqb c sep then [] :: py_split sep s'
      else match py_split sep s' with
           | w :: ws => (c :: w) :: ws
           | [] => [[c]]
           end
  end.

Definition is_nil (s : text) : bool :=
  match s with [] => true | _ => false end.

(** The fields of [s.split()]: maximal runs of non-space characters.
    [cur] holds the field being read, last character first. *)
Fixpoint split_fields (cur s : text) : list text :=
  match s with
  | [] => if is_nil cur then [] else [rev cur]
  | c :: s' =>
      if py_isspace c
      then (if is_nil cur then split_fields [] s'
            else rev cur :: split_fields [] s')
      else split_fields (c :: cur) s'
  end.

(** [s.split()] *)
Definition py_split_ws (s : text) : list text := split_fields [] s.

(** [s.isdigit()]: at least one character, all of them digits. *)
Definition py_isdigit (s : text) : bool :=
  negb (is_nil s) && forallb is_digit s.

(** [s.isdecimal()]: at least one character, all of them decimal digits. *)
Definition py_isdecimal (s : text) : bool :=
  negb (is_nil s) && forallb is_decimal s.

(** The value of a decimal digit: its place in its run of ten. *)
Definition digit_val (c : char) : Z :=
  match find (in_range c) decimal_ranges with
  | Some r => Z.of_N ((c - fst r) mod 10)
  | None => 0%Z
  end.

(** The number a run of decimal digits denotes. *)
Definition digits_val (s : text) : Z :=
  fold_left (fun acc c => (10 * acc + digit_val c)%Z) s 0%Z.

(** [str(n)] for an int. *)
Definition str_of_int (z : Z) : text :=
  txt (NilZero.string_of_int (Z.to_int z)).

(** [sys.get_int_max_str_digits()]: the longest numeral [int] converts. *)
Definition int_max_str_digits : Z := 4300%Z.

End PyText.
Export PyText.

(* ================================================================== *)
(** * Exceptions and loops *)
(* ================================================================== *)

Inductive exn := ValueError | IndexError | NameError | KeyError.

Inductive result (A : Type) : Type :=
| Return (a : A)
| Raise (e : exn).
Arguments Return {A} a.
Arguments Raise {A} e.

Definition bind {A B} (m : result A) (f : A -> result B) : result B :=
  match m with
  | Return a => f a
  | Raise e => Raise e
  end.

Notation "x <- m ;; f" := (bind m (fun x => f))
  (at level 61, m at next level, right associativity).
Notation "' p <- m ;; f" := (bind m (fun x => match x with p => f end))
  (at level 61, p pattern, m at next level, right associativity).

(** What the body of a [for] loop does to the loop: go on with the next
    element (falling off the end of the body, or [continue]) or [break]. *)
Inductive step (S : Type) : Type :=
| Next (s : S)
| Break (s : S).
Arguments Next {S} s.
Arguments Break {S} s.

(** [for x in xs: body] over the state [s]. *)
Fixpoint for_each {A S} (body : S -> A -> result (step S)) (s : S)
  (xs : list A) : result S :=
  match xs with
  | [] => Return s
  | x :: xs' =>
      match body s x with
      | Return (Next s') => for_each body s' xs'
      | Return (Break s') => Return s'
      | Raise e => Raise e
      end
  end.

(** [int(s)] on a run of decimal digits: the empty string is a
    [ValueError], and so is a numeral of more digits than the interpreter
    converts.  The scripts call [int] only on what is left of a line once
    everything from its first non-digit on is deleted. *)
Definition py_int (s : text) : result Z :=
  if py_isdecimal s && (Z.of_nat (length s) <=? int_max_str_digits)%Z
  then Return (digits_val s) else Raise ValueError.

(** Values that are an int at one time and a string at another. *)
Inductive pyval :=
| PyInt (z : Z)
| PyStr (s : text).

(** [a == b]: an int and a string are never equal. *)
Definition py_eq (a b : pyval) : bool :=
  match a, b with
  | PyInt x, PyInt y => Z.eqb x y
  | PyStr s, PyStr t => if list_eq_dec N.eq_dec s t then true else false
  | _, _ => false
  end.

(** [str(v)] *)
Definition py_str (v : pyval) : text :=
  match v with
  | PyInt z => str_of_int z
  | PyStr s => s
  end.

(* ================================================================== *)
(** * Regular expressions *)
(* ================================================================== *)

Module Re.

(** One-character classes. *)
Inductive cclass :=
| CAny                      (* .   any character but the newline *)
| CSpace                    (* \s *)
| CDigit                    (* \d *)
| CNonDigit                 (* \D *)
| CChar (c : char)
| COr (a b : cclass).       (* [ab] *)

Fixpoint class_mem (k : cclass) (c : char) : bool :=
  match k with
  | CAny => negb (N.eqb c newline)
  | CSpace => py_isspace c
  | CDigit => is_decimal c
  | CNonDigit => negb (is_decimal c)
  | CChar x => N.eqb c x
  | COr a b => class_mem a c || class_mem b c
  end.

(** The patterns of the two scripts: every quantifier in them is a greedy
    [*] or [+] on a one-character class. *)
Inductive regex :=
| RLit (s : text)           (* literal characters *)
| ROne (k : cclass)         (* one character of a class *)
| RStar (k : cclass)        (* k*  *)
| RPlus (k : cclass)        (* k+  *)
| RSeq (r1 r2 : regex)
| RAlt (r1 r2 : regex)      (* r1|r2 *)
| RGroup (r : regex)        (* ( r ) *)
| RBol.                     (* ^ *)

Fixpoint drop_prefix (p s : text) : option text :=
  match p, s with
  | [], _ => Some s
  | a :: p', b :: s' => if N.eqb a b then drop_prefix p' s' else None
  | _ :: _, [] => None
  end.

Section Matcher.
(** The answer of the whole match, and the length of the subject string
    ([^] holds where that much text is still ahead). *)
Variable A : Type.
Variable whole : nat.

(** Greedy repetition: take the longest run first, give characters back
    one at a time while the rest of the pattern fails. *)
Fixpoint star_greedy (k : cclass) (s : text) (cont : text -> option A)
  : option A :=
  match s with
  | c :: s' =>
      if class_mem k c
      then match star_greedy k s' cont with
           | Some a => Some a
           | None => cont s
           end
      else cont s
  | [] => cont []
  end.

(** [run r s caps cont]: match [r] at the head of [s], then go on with
    [cont] on what is left; [caps] are the groups closed so far. *)
Fixpoint run (r : regex) (s : text) (caps : list text)
  (cont : text -> list text -> option A) : option A :=
  match r with
  | RLit l =>
      match drop_prefix l s with
      | Some s' => cont s' caps
      | None => None
      end
  | ROne k =>
      match s with
      | c :: s' => if class_mem k c then cont s' caps else None
      | [] => None
      end
  | RStar k => star_greedy k s (fun s' => cont s' caps)
  | RPlus k =>
      match s with
      | c :: s' =>
          if class_mem k c
          then star_greedy k s' (fun s'' => cont s'' caps)
          else None
      | [] => None
      end
  | RSeq r1 r2 => run r1 s caps (fun s' caps' => run r2 s' caps' cont)
  | RAlt r1 r2 =>
      match run r1 s caps cont with
      | Some a => Some a
      | None => run r2 s caps cont
      end
  | RGroup r1 =>
      run r1 s caps
        (fun s' caps' =>
           cont s' (caps' ++ [firstn (length s - length s') s]))
  | RBol => if length s =? whole then cont s caps else None
  end.
End Matcher.

(** A match object: the text before the match, the matched text, the text
    after it, and the groups in the order they close. *)
Record rmatch := {
  m_before : text;
  m_text : text;
  m_after : text;
  m_groups : list text
}.

(** The match of [r] that starts at the head of [s], if any. *)
Definition match_here (whole : nat) (r : regex) (s : text)
  : option (text * list text) :=
  run whole r s [] (fun s' caps => Some (s', caps)).

Fixpoint search_from (whole : nat) (r : regex) (before s : text)
  : option rmatch :=
  match match_here whole r s with
  | Some (rest, caps) =>
      Some {| m_before := rev before;
              m_text := firstn (length s - length rest) s;
              m_after := rest;
              m_groups := caps |}
  | None =>
      match s with
      | [] => None
      | c :: s' => search_from whole r (c :: before) s'
      end
  end.

(** [re.compile(r).search(s)]: the leftmost match. *)
Definition search (r : regex) (s : text) : option rmatch :=
  search_from (length s) r [] s.

(** Truth value of a match object. *)
Definition found (m : option rmatch) : bool :=
  match m with Some _ => true | None => false end.

(** [m.group(1)] *)
Definition group1 (m : rmatch) : text := hd [] (m_groups m).

(** [re.sub(r, '', s)]: delete every non-overlapping match, leftmost first.
    [skip] counts the characters of the current match still to drop. *)
Fixpoint sub_go (whole : nat) (r : regex) (skip : nat) (s : text) : text :=
  match s with
  | [] => []
  | c :: s' =>
      match skip with
      | S k => sub_go whole r k s'
      | O =>
          match match_here whole r s with
          | Some (rest, _) =>
              match length s - length rest with
              | S k => sub_go whole r k s'
              | O => c :: sub_go whole r 0 s'
              end
          | None => c :: sub_go whole r 0 s'
          end
      end
  end.

Definition sub_delete (r : regex) (s : text) : text :=
  sub_go (length s) r 0 s.

(** Pattern syntax. *)
Definition lit (s : string) : regex := RLit (txt s).
Fixpoint seq (rs : list regex) : regex :=
  match rs with
  | [] => RLit []
  | [r] => r
  | r :: rs' => RSeq r (seq rs')
  end.

End Re.
Import Re.

(* ================================================================== *)
(** * cipres_data_parse.py *)
(* ================================================================== *)

Module CipresDataParse.

(** [s.find(sub) >= 0] *)
Definition contains (s : text) (sub : string) : bool :=
  (0 <=? py_find s (txt sub))%Z.

(** ** process_beast *)

(** [.*alignment.*data[tT]ype\s*=\s*] and a double quote *)
Definition regex_datatype : regex :=
  seq [RStar CAny; lit "alignment"; RStar CAny; lit "data";
       ROne (COr (CChar (chr "t")) (CChar (chr "T"))); lit "ype";
       RStar CSpace; lit "="; RStar CSpace; ROne (CChar dquote)].

(** [.*npatterns\s*=\s*] *)
Definition regex_patterns : regex :=
  seq [RStar CAny; lit "npatterns"; RStar CSpace; lit "="; RStar CSpace].

(** [codon] *)
Definition regex_codon : regex := lit "codon".

(** The patterns of the inner [re.sub] calls: a double quote and [.*];
    [\s*]; [\D.*]. *)
Definition regex_quote_rest : regex :=
  seq [ROne (CChar dquote); RStar CAny].
Definition regex_spaces : regex := RStar CSpace.
Definition regex_nondigit_rest : regex :=
  seq [ROne CNonDigit; RStar CAny].

Record beast_state := {
  datatype : text;
  codon_partitioning : bool;
  nu_partitions : Z;
  pattern_count : Z
}.

Definition beast_init : beast_state :=
  {| datatype := txt "unknown"; codon_partitioning := false;
     nu_partitions := 0; pattern_count := 0 |}.

(** Process the dataType lines: rewrites [line] and sets [datatype]. *)
Definition beast_datatype (st : beast_state) (line : text)
  : beast_state * text :=
  if found (search regex_datatype line) then
    let line := sub_delete regex_datatype line in
    let line := sub_delete regex_quote_rest line in
    ({| datatype := sub_delete regex_spaces line;
        codon_partitioning := codon_partitioning st;
        nu_partitions := nu_partitions st;
        pattern_count := pattern_count st |}, line)
  else (st, line).

(** What is left of a line of patterns when the prefix and everything from
    the first non-digit on are deleted: the text handed to [int]. *)
Definition patterns_digits (line : text) : text :=
  sub_delete regex_nondigit_rest (sub_delete regex_patterns line).

(** Process the lines that list number of patterns; increment pattern and
    partition counts. *)
Definition beast_patterns (st : beast_state) (line : text)
  : result (beast_state * text) :=
  if found (search regex_patterns line) then
    let line := patterns_digits line in
    n <- py_int line ;;
    Return ({| datatype := datatype st;
               codon_partitioning := codon_partitioning st;
               nu_partitions := nu_partitions st + 1;
               pattern_count := pattern_count st + n |}, line)
  else Return (st, line).

(** Look for lines that contain the string codon. *)
Definition beast_codon (st : beast_state) (line : text) : beast_state :=
  if found (search regex_codon line) then
    {| datatype := datatype st;
       codon_partitioning := true;
       nu_partitions := nu_partitions st;
       pattern_count := pattern_count st |}
  else st.

Definition beast_body (st : beast_state) (line : text)
  : result (step beast_state) :=
  let line := py_rstrip line in
  let '(st, line) := beast_datatype st line in
  '(st, line) <- beast_patterns st line ;;
  Return (Next (beast_codon st line)).

Definition text_eqb (a b : text) : bool :=
  if list_eq_dec N.eq_dec a b then true else false.

Definition beast_err_code (st : beast_state) : Z :=
  let err_code := 0%Z in
  let err_code :=
    if negb (text_eqb (datatype st) (txt "aminoacid"))
       && negb (text_eqb (datatype st) (txt "nucleotide"))
    then 1%Z else err_code in
  if (nu_partitions st <=? 0)%Z || (pattern_count st <=? 0)%Z
  then 1%Z else err_code.

(** Returns [err_code, datatype, codon_partitioning, nu_partitions,
    pattern_count]. *)
Definition process_beast (fin : list text)
  : result (Z * text * bool * Z * Z) :=
  st <- for_each beast_body beast_init fin ;;
  Return (beast_err_code st, datatype st, codon_partitioning st,
          nu_partitions st, pattern_count st).

(** ** process_beast2 *)

Record beast2_state := {
  b2_partitions : Z;
  start_counting : bool
}.

Definition likelihood_tag : text :=
  txt "<distribution id=" ++ dquote :: txt "likelihood" ++ [dquote].

Definition beast2_body (st : beast2_state) (line : text)
  : result (step beast2_state) :=
  let line := py_rstrip line in
  if (0 <=? py_find line likelihood_tag)%Z then
    Return (Next {| b2_partitions := b2_partitions st;
                    start_counting := true |})
  else if start_counting st && contains line "<distribution"
          && (py_find line (txt "/>") <? 0)%Z then
    Return (Next {| b2_partitions := b2_partitions st + 1;
                    start_counting := start_counting st |})
  else Return (Next st).

(** Returns [err_code, nu_partitions]. *)
Definition process_beast2 (fin : list text) : result (Z * Z) :=
  st <- for_each beast2_body
          {| b2_partitions := 0; start_counting := false |} fin ;;
  let err_code := if (b2_partitions st <=? 0)%Z then 1%Z else 0%Z in
  Return (err_code, b2_partitions st).

(** ** process_migrate_parm *)

(** [p1, num_reps = line.split(':')]: exactly two pieces, or ValueError. *)
Definition migrate_parm_body (num_reps : pyval) (line : text)
  : result (step pyval) :=
  let line := py_rstrip line in
  if contains line "replicate=YES" then
    match py_split (chr ":") line with
    | [_; num_reps] => Return (Break (PyStr num_reps))
    | _ => Raise ValueError
    end
  else Return (Next num_reps).

(** Returns [err_code, num_reps]. *)
Definition process_migrate_parm (fin : list text) : result (Z * pyval) :=
  num_reps <- for_each migrate_parm_body (PyInt 1) fin ;;
  let err_code := if negb (py_isdigit (py_str num_reps)) then 1%Z else 0%Z in
  Return (err_code, num_reps).

(** ** process_migrate_infile *)

(** [num_loci = pline[1]]: IndexError on fewer than two fields. *)
Definition migrate_infile_body (num_loci : pyval) (line : text)
  : result (step pyval) :=
  let line := py_strip line in
  let pline := py_split_ws line in
  match nth_error pline 1 with
  | Some f => Return (Break (PyStr f))
  | None => Raise IndexError
  end.

(** Returns [err_code, num_loci]. *)
Definition process_migrate_infile (fin : list text) : result (Z * pyval) :=
  num_loci <- for_each migrate_infile_body (PyInt 1) fin ;;
  let err_code := if negb (py_isdigit (py_str num_loci)) then 1%Z else 0%Z in
  Return (err_code, num_loci).

(** ** process_garli *)

(** [print(s)]: the text and a newline, written to the standard output. *)
Definition print (s : text) : text := s ++ [newline].

(** [bootstrapreps\s*=\s*(\d+).*] *)
Definition cregex_bootstrapreps : regex :=
  seq [lit "bootstrapreps"; RStar CSpace; lit "="; RStar CSpace;
       RGroup (RPlus CDigit); RStar CAny].

(** [searchreps\s*=\s*(\d+).*] *)
Definition cregex_searchreps : regex :=
  seq [lit "searchreps"; RStar CSpace; lit "="; RStar CSpace;
       RGroup (RPlus CDigit); RStar CAny].

(** [.*availablememory\s*=\s*(\d+).*] *)
Definition cregex_availmem : regex :=
  seq [RStar CAny; lit "availablememory"; RStar CSpace; lit "=";
       RStar CSpace; RGroup (RPlus CDigit); RStar CAny].

Record garli_state := {
  bootreps : pyval;
  searchreps : pyval;
  availmem : pyval;
  have_bootreps : bool;
  have_searchreps : bool;
  have_availmem : bool
}.

Definition garli_init : garli_state :=
  {| bootreps := PyInt (-1); searchreps := PyInt (-1);
     availmem := PyInt (-1);
     have_bootreps := false; have_searchreps := false;
     have_availmem := false |}.

Definition garli_body (st : garli_state) (line : text)
  : result (step garli_state) :=
  let line := py_strip line in
  let st :=
    if negb (have_bootreps st) then
      match search cregex_bootstrapreps line with
      | Some m => {| bootreps := PyStr (group1 m);
                     searchreps := searchreps st; availmem := availmem st;
                     have_bootreps := true;
                     have_searchreps := have_searchreps st;
                     have_availmem := have_availmem st |}
      | None => st
      end
    else st in
  let st :=
    if negb (have_searchreps st) then
      match search cregex_searchreps line with
      | Some m => {| bootreps := bootreps st;
                     searchreps := PyStr (group1 m); availmem := availmem st;
                     have_bootreps := have_bootreps st;
                     have_searchreps := true;
                     have_availmem := have_availmem st |}
      | None => st
      end
    else st in
  let st :=
    if negb (have_availmem st) then
      match search cregex_availmem line with
      | Some m => {| bootreps := bootreps st;
                     searchreps := searchreps st; availmem := PyStr (group1 m);
                     have_bootreps := have_bootreps st;
                     have_searchreps := have_searchreps st;
                     have_availmem := true |}
      | None => st
      end
    else st in
  Return (Next st).

(** The test for errors and the choice of [nruns]; returns
    [err_code, nruns, bootreps, searchreps, availmem]. *)
Definition garli_finish (st : garli_state)
  : Z * pyval * pyval * pyval * pyval :=
  if negb (have_bootreps st) || negb (have_searchreps st)
     || negb (have_availmem st)
  then (1%Z, PyInt (-1), bootreps st, searchreps st, availmem st)
  else if py_eq (bootreps st) (PyInt 0)
       then (0%Z, searchreps st, bootreps st, PyInt 1, availmem st)
       else (0%Z, bootreps st, PyInt 1, searchreps st, availmem st).

(** The notice of the test for errors.  The literal continues over a line
    break of the source and keeps the indentation of its second line. *)
Definition garli_notice : text :=
  txt "Input garli.conf file did not have one or more of the "
  ++ repeat (chr " ") 16
  ++ txt "required values (bootstrapreps, searchreps, availablememory".

(** What the test for errors prints. *)
Definition garli_printed (st : garli_state) : text :=
  if negb (have_bootreps st) || negb (have_searchreps st)
     || negb (have_availmem st)
  then print garli_notice else [].

(** The call: what it writes to the standard output, and the value it
    returns. *)
Definition process_garli_io (fin : list text)
  : result (text * (Z * pyval * pyval * pyval * pyval)) :=
  st <- for_each garli_body garli_init fin ;;
  Return (garli_printed st, garli_finish st).

(** The value the call returns. *)
Definition process_garli (fin : list text)
  : result (Z * pyval * pyval * pyval * pyval) :=
  r <- process_garli_io fin ;;
  Return (snd r).

(** ** process_bayes *)

(** [^(mcmc|mcmcp)\s] *)
Definition cregex_mcmcp : regex :=
  seq [RBol; RGroup (RAlt (lit "mcmc") (lit "mcmcp")); ROne CSpace].

(** [.*nruns\s*=\s*(\d+).*] *)
Definition cregex_nruns : regex :=
  seq [RStar CAny; lit "nruns"; RStar CSpace; lit "="; RStar CSpace;
       RGroup (RPlus CDigit); RStar CAny].

(** [.*nchains\s*=\s*(\d+).*] *)
Definition cregex_nchains : regex :=
  seq [RStar CAny; lit "nchains"; RStar CSpace; lit "="; RStar CSpace;
       RGroup (RPlus CDigit); RStar CAny].

Record bayes_state := {
  nruns : pyval;
  nchains : pyval;
  mrbayes : bool
}.

Definition bayes_init : bayes_state :=
  {| nruns := PyInt (-1); nchains := PyInt (-1); mrbayes := false |}.

Definition bayes_body (st : bayes_state) (line : text)
  : result (step bayes_state) :=
  let line := py_strip line in
  if found (search cregex_mcmcp line) then
    let nruns :=
      match search cregex_nruns line with
      | Some m => PyStr (group1 m)
      | None => PyInt 2
      end in
    let nchains :=
      match search cregex_nchains line with
      | Some m => PyStr (group1 m)
      | None => PyInt 4
      end in
    Return (Break {| nruns := nruns; nchains := nchains; mrbayes := true |})
  else Return (Next st).

Definition bayes_notice : text :=
  txt "No bayes block to process, so no values collected".

(** The test for errors and the notice; returns [err_code, nruns,
    nchains]. *)
Definition bayes_finish (st : bayes_state) : Z * pyval * pyval :=
  let err_code :=
    if py_eq (nruns st) (PyInt (-1)) || py_eq (nchains st) (PyInt (-1))
    then 1%Z else 0%Z in
  (err_code, nruns st, nchains st).

Definition bayes_printed (st : bayes_state) : text :=
  if negb (mrbayes st) then print bayes_notice else [].

(** The call: what it writes to the standard output, and the value it
    returns. *)
Definition process_bayes_io (fin : list text)
  : result (text * (Z * pyval * pyval)) :=
  st <- for_each bayes_body bayes_init fin ;;
  Return (bayes_printed st, bayes_finish st).

(** The value the call returns. *)
Definition process_bayes (fin : list text) : result (Z * pyval * pyval) :=
  r <- process_bayes_io fin ;;
  Return (snd r).

(** A line of a fixture file: the text and its newline. *)
Definition ln (s : string) : text := txt s ++ [newline].

End CipresDataParse.

(* ================================================================== *)
(** * post_garli.py *)
(* ================================================================== *)

Module PostGarli.

(** ** Floats *)

(** A Python float is a binary64 number.  Every finite one is an integer
    multiple of [2^-1074]: [FFin k] is [k * 2^-1074] (the two zeros are both
    [FFin 0]; they are equal in Python and the script never prints one).
    The int [0] that [collect_score] returns when nothing matches is the
    number [FFin 0] as well. *)
Inductive pyfloat :=
| FFin (k : Z)
| FInf (negative : bool).

(** The integer nearest to [a / b] for [b > 0], ties to the even one. *)
Definition round_half_even (a b : Z) : Z :=
  let q := (a / b)%Z in
  match (2 * (a mod b) ?= b)%Z with
  | Lt => q
  | Gt => (q + 1)%Z
  | Eq => if Z.even q then q else (q + 1)%Z
  end.

(** The binary64 number nearest to [a / b] ([0 <= a], [0 < b]): 53
    significant bits, spacing never below [2^-1074], infinity from [2^1024]
    on. *)
Definition binary64_of_ratio (a b : Z) : pyfloat :=
  let a := (a * 2 ^ 1074)%Z in
  let sh := Z.max 0 (Z.log2 (a / b) + 1 - 53) in
  let k := (round_half_even a (b * 2 ^ sh) * 2 ^ sh)%Z in
  if (2 ^ 2098 <=? k)%Z then FInf false else FFin k.

Definition float_neg (x : pyfloat) : pyfloat :=
  match x with
  | FFin k => FFin (- k)
  | FInf s => FInf (negb s)
  end.

(** [x == y] and [x < y] *)
Definition float_eqb (x y : pyfloat) : bool :=
  match x, y with
  | FFin a, FFin b => (a =? b)%Z
  | FInf s, FInf t => Bool.eqb s t
  | _, _ => false
  end.

Definition float_ltb (x y : pyfloat) : bool :=
  match x, y with
  | FFin a, FFin b => (a <? b)%Z
  | FInf true, FInf true => false
  | FInf true, _ => true
  | _, FInf false => match x with FInf false => false | _ => true end
  | _, _ => false
  end.

(** The leading digits of a text and what follows them. *)
Fixpoint span_digits (s : text) : text * text :=
  match s with
  | c :: s' =>
      if is_decimal c
      then let '(d, rest) := span_digits s' in (c :: d, rest)
      else ([], s)
  | [] => ([], [])
  end.

(** [float(s)] on a sign, digits and at most one point, the only texts the
    pattern of the script can capture that [float] accepts: the correctly
    rounded value.  Anything else is a ValueError. *)
Definition py_float (s : text) : result pyfloat :=
  let '(neg, s) :=
    match s with
    | c :: s' =>
        if N.eqb c (chr "-") then (true, s')
        else if N.eqb c (chr "+") then (false, s')
        else (false, s)
    | [] => (false, s)
    end in
  let '(ip, s) := span_digits s in
  let '(fp, s) :=
    match s with
    | c :: s' => if N.eqb c (chr ".") then span_digits s' else ([], s)
    | [] => ([], s)
    end in
  if is_nil s && negb (is_nil ip && is_nil fp) then
    let x := binary64_of_ratio (digits_val (ip ++ fp))
               (10 ^ Z.of_nat (length fp)) in
    Return (if neg then float_neg x else x)
  else Raise ValueError.

(** ** collect_score *)

(** [GarliScore\s([-?]\d+[\.\d]+)] *)
Definition regex_score : regex :=
  seq [lit "GarliScore"; ROne CSpace;
       RGroup (seq [ROne (COr (CChar (chr "-")) (CChar (chr "?"))); RPlus CDigit;
                    RPlus (COr (CChar (chr ".")) CDigit)])].

Definition collect_score (regex_score : regex) (line : text)
  : result pyfloat :=
  match search regex_score line with
  | Some m => py_float (group1 m)
  | None => Return (FFin 0)
  end.

(** ** The dictionary of scores *)

(** [score_dict]: keys in insertion order, compared with [==]. *)
Definition dict := list (pyfloat * text).

(** [d[k] = v] *)
Fixpoint dict_set (d : dict) (k : pyfloat) (v : text) : dict :=
  match d with
  | [] => [(k, v)]
  | (k', v') :: d' =>
      if float_eqb k' k then (k', v) :: d'
      else (k', v') :: dict_set d' k v
  end.

(** [d[k]] *)
Fixpoint dict_get (d : dict) (k : pyfloat) : result text :=
  match d with
  | [] => Raise KeyError
  | (k', v') :: d' => if float_eqb k' k then Return v' else dict_get d' k
  end.

Definition dict_keys (d : dict) : list pyfloat := map fst d.

(** [sorted(keys, reverse = True)]: a stable sort, highest first. *)
Fixpoint insert_desc (x : pyfloat) (l : list pyfloat) : list pyfloat :=
  match l with
  | [] => [x]
  | y :: l' => if float_ltb x y then y :: insert_desc x l' else x :: l
  end.

Fixpoint sorted_desc (l : list pyfloat) : list pyfloat :=
  match l with
  | [] => []
  | x :: l' => insert_desc x (sorted_desc l')
  end.

(** ** make_out_file *)

(** What is written to [garli_scores.txt]: the header, then one chunk
    ['%s: %s \n' % (gs, score_dict[gs])] per call of [write]; a chunk is kept
    as the two values that are formatted. *)
Inductive written :=
| WHeader
| WScore (gs : pyfloat) (filename : text).

Fixpoint write_scores (d : dict) (keys : list pyfloat)
  : result (list written) :=
  match keys with
  | [] => Return []
  | gs :: keys' =>
      name <- dict_get d gs ;;
      rest <- write_scores d keys' ;;
      Return (WScore gs name :: rest)
  end.

Definition make_out_file (score_dict : dict) : result (list written) :=
  rest <- write_scores score_dict (sorted_desc (dict_keys score_dict)) ;;
  Return (WHeader :: rest).

(** ** Main *)

(** The variables of the script.  [score] is unbound until its first
    assignment. *)
Record rank_state := {
  score : option pyfloat;
  first_file : bool;
  lines_until_score : nat;
  line_num : nat;
  error_code : Z;
  problem_files : list text;
  score_dict : dict
}.

Definition rank_init : rank_state :=
  {| score := None; first_file := true; lines_until_score := 0;
     line_num := 0; error_code := 0; problem_files := [];
     score_dict := [] |}.

Definition set_score (st : rank_state) (sc : pyfloat) (first : bool)
  : rank_state :=
  {| score := Some sc; first_file := first;
     lines_until_score := lines_until_score st; line_num := line_num st;
     error_code := error_code st; problem_files := problem_files st;
     score_dict := score_dict st |}.

Definition set_counters (st : rank_state) (until num : nat) : rank_state :=
  {| score := score st; first_file := first_file st;
     lines_until_score := until; line_num := num;
     error_code := error_code st; problem_files := problem_files st;
     score_dict := score_dict st |}.

(** The body of [for line in fin]. *)
Definition line_body (st : rank_state) (line : text)
  : result (step rank_state) :=
  if first_file st then
    let line := py_rstrip line in
    if (0 <=? py_find line (txt "GarliScore"))%Z then
      sc <- collect_score regex_score line ;;
      Return (Break (set_score st sc false))
    else
      Return (Next (set_counters st (lines_until_score st + 1) (line_num st)))
  else
    if line_num st =? lines_until_score st then
      let line := py_rstrip line in
      sc <- collect_score regex_score line ;;
      Return (Break (set_score st sc (first_file st)))
    else
      Return (Next (set_counters st (lines_until_score st) (line_num st + 1))).

(** [with open(filename) as fin: line_num = 0; for line in fin: ...] *)
Definition scan_file (st : rank_state) (fin : list text)
  : result rank_state :=
  for_each line_body (set_counters st (lines_until_score st) 0) fin.

(** [if score == 0: ... else: score_dict[score] = filename]; reading
    [score] before any assignment is a NameError. *)
Definition classify (st : rank_state) (filename : text)
  : result rank_state :=
  match score st with
  | None => Raise NameError
  | Some sc =>
      if float_eqb sc (FFin 0) then
        Return {| score := score st; first_file := first_file st;
                  lines_until_score := lines_until_score st;
                  line_num := line_num st;
                  error_code := 1;
                  problem_files := problem_files st ++ [filename];
                  score_dict := score_dict st |}
      else
        Return {| score := score st; first_file := first_file st;
                  lines_until_score := lines_until_score st;
                  line_num := line_num st;
                  error_code := error_code st;
                  problem_files := problem_files st;
                  score_dict := dict_set (score_dict st) sc filename |}
  end.

(** A file of the directory: its name and its lines. *)
Definition file := (text * list text)%type.

(** The body of [for filename in files]. *)
Definition file_body (st : rank_state) (f : file)
  : result (step rank_state) :=
  st <- scan_file st (snd f) ;;
  st <- classify st (fst f) ;;
  Return (Next st).

Definition main_loop (files : list file) : result rank_state :=
  for_each file_body rank_init files.

(** What a run leaves behind: the printed list of problem files, or the
    written [garli_scores.txt]. *)
Inductive report :=
| ProblemFiles (names : list text)
| ScoresFile (content : list written).

Definition finish (st : rank_state) : result report :=
  if (error_code st =? 1)%Z then Return (ProblemFiles (problem_files st))
  else
    out <- make_out_file (score_dict st) ;;
    Return (ScoresFile out).

(** The script on the best-tree files in the order they are processed. *)
Definition rank_files (files : list file) : result report :=
  st <- main_loop files ;;
  finish st.

(** [f.endswith(suffix)] *)
Definition py_endswith (s suffix : text) : bool :=
  starts_with (rev suffix) (rev s).

(** [files = [f for f in os.listdir('.') if f.endswith('.best.tre')]] *)
Definition best_tre_files (listdir : list file) : list file :=
  filter (fun f => py_endswith (fst f) (txt ".best.tre")) listdir.

Definition post_garli (listdir : list file) : result report :=
  rank_files (best_tre_files listdir).

End PostGarli.

(* ================================================================== *)
(** * cipres_data_parse.py: the main program *)
(* ================================================================== *)

Module CipresMain.
Import CipresDataParse.

(** The file types: the choices of the option [-t], and [unknown], its
    default. *)
Inductive file_type :=
| Beast | Beast2 | MigrateParm | MigrateInfile | Bayes | Garli | Unknown.

Definition type_name (t : file_type) : text :=
  match t with
  | Beast => txt "beast"
  | Beast2 => txt "beast2"
  | MigrateParm => txt "migrate_parm"
  | MigrateInfile => txt "migrate_infile"
  | Bayes => txt "bayes"
  | Garli => txt "garli"
  | Unknown => txt "unknown"
  end.

(** The signature of BEAST 2: [version=], then 2.0 between double quotes,
    then the closing bracket. *)
Definition version_2 : text :=
  txt "version=" ++ dquote :: txt "2.0" ++ dquote :: txt ">".

(** The body of the loop that determines the type: the line as read, the
    tests in their order, [break] on the first that holds. *)
Definition detect_body (file_type : file_type) (line : text)
  : result (step CipresMain.file_type) :=
  if contains line "BEAUTi" then Return (Break Beast)
  else if contains line "<beast" && (0 <=? py_find line version_2)%Z
  then Return (Break Beast2)
  else if contains line "Parmfile for Migrate" then Return (Break MigrateParm)
  else if contains line "#NEXUS" then Return (Break Bayes)
  else if contains line "[general]" then Return (Break Garli)
  else Return (Next file_type).

(** "Determine the input file type if not already set". *)
Definition determine_type (file_type : file_type) (fin : list text)
  : result CipresMain.file_type :=
  match file_type with
  | Unknown => for_each detect_body file_type fin
  | _ => Return file_type
  end.

(** [str(b)] for a bool. *)
Definition str_of_bool (b : bool) : text :=
  if b then txt "True" else txt "False".

(** [results = key1 + value1 + '\n'; results += ...]: the lines of the
    report, joined by newlines, none after the last. *)
Fixpoint join_lines (ls : list text) : text :=
  match ls with
  | [] => []
  | [l] => l
  | l :: ls' => l ++ newline :: join_lines ls'
  end.

Definition field (key : string) (value : text) : text := txt key ++ value.

(** The blocks that process a file of each type and build [results]: what
    the extractor printed, and [results].  The type is not assigned again
    once determined, so one block runs. *)
Definition report (file_type : file_type) (fin : list text)
  : result (text * text) :=
  match file_type with
  | Beast =>
      ' (err_code, datatype, codon_partitioning, nu_partitions,
         pattern_count) <- process_beast fin ;;
      Return ([],
              join_lines
                [field "file_type=" (type_name file_type);
                 field "err_code=" (str_of_int err_code);
                 field "datatype=" datatype;
                 field "codon_partitioning=" (str_of_bool codon_partitioning);
                 field "nu_partitions=" (str_of_int nu_partitions);
                 field "pattern_count=" (str_of_int pattern_count)])
  | Beast2 =>
      ' (err_code, nu_partitions) <- process_beast2 fin ;;
      Return ([],
              join_lines
                [field "file_type=" (type_name file_type);
                 field "err_code=" (str_of_int err_code);
                 field "nu_partitions=" (str_of_int nu_partitions)])
  | MigrateParm =>
      ' (err_code, num_reps) <- process_migrate_parm fin ;;
      Return ([],
              join_lines
                [field "file_type=" (type_name file_type);
                 field "err_code=" (str_of_int err_code);
                 field "num_reps=" (py_str num_reps)])
  | MigrateInfile =>
      ' (err_code, num_loci) <- process_migrate_infile fin ;;
      Return ([],
              join_lines
                [field "file_type=" (type_name file_type);
                 field "err_code=" (str_of_int err_code);
                 field "num_loci=" (py_str num_loci)])
  | Garli =>
      ' (printed, (err_code, nruns, bootreps, searchreps, availmem))
          <- process_garli_io fin ;;
      Return (printed,
              join_lines
                [field "file_type=" (type_name file_type);
                 field "err_code=" (str_of_int err_code);
                 field "nruns=" (py_str nruns);
                 field "bootstrapreps=" (py_str bootreps);
                 field "searchreps=" (py_str searchreps);
                 field "availablememory=" (py_str availmem)])
  | Bayes =>
      ' (printed, (err_code, nruns, nchains)) <- process_bayes_io fin ;;
      Return (printed,
              join_lines
                [field "file_type=" (type_name file_type);
                 field "err_code=" (str_of_int err_code);
                 field "nruns=" (py_str nruns);
                 field "nchains=" (py_str nchains)])
  | Unknown =>
      Return ([],
              join_lines
                [field "file_type=" (type_name file_type);
                 txt "err_code=1"])
  end.

(** The program: the type from the command line or from the file, the
    block of that type, then [print(results)].  The value is everything
    written to the standard output. *)
Definition main (file_type : file_type) (fin : list text) : result text :=
  file_type <- determine_type file_type fin ;;
  ' (printed, results) <- report file_type fin ;;
  Return (printed ++ print results).

End CipresMain.

(* ================================================================== *)
(** * What the extractors are specified to do *)
(* ================================================================== *)

(** The definitions of this part follow the words of the specification; the
    theorems below compare them with the embedding of the scripts. *)

Module Spec.
Import CipresDataParse PostGarli CipresMain.

Definition Z_sum (l : list Z) : Z := fold_right Z.add 0%Z l.

(** ** BEAST *)

(** The text the pattern-count test of [process_beast] sees for a line: the
    line without its trailing white space, or, for a line of the data type,
    what the data-type step left of it. *)
Definition patterns_text (line : text) : text :=
  snd (beast_datatype beast_init (py_rstrip line)).

Definition is_patterns_line (line : text) : bool :=
  found (search regex_patterns (patterns_text line)).

(** The digits that follow the prefix [npatterns =], and their value. *)
Definition patterns_numeral (line : text) : text :=
  patterns_digits (patterns_text line).

Definition patterns_value (line : text) : Z :=
  digits_val (patterns_numeral line).

(** A line that the claim counts: the line as read matches
    [npatterns\s*=\s*]. *)
Definition raw_patterns_line (line : text) : bool :=
  found (search regex_patterns (py_rstrip line)).

(** ** BEAST2 *)

Definition has_likelihood_tag (line : text) : bool :=
  (0 <=? py_find (py_rstrip line) likelihood_tag)%Z.

(** An opening tag of a distribution element that does not close itself. *)
Definition opens_distribution (line : text) : bool :=
  contains (py_rstrip line) "<distribution"
  && negb (contains (py_rstrip line) "/>").

(** The lines after the first line with the likelihood tag. *)
Fixpoint after_likelihood (fin : list text) : list text :=
  match fin with
  | [] => []
  | l :: fin' => if has_likelihood_tag l then fin' else after_likelihood fin'
  end.

(** The count as the claim words it: every later line that opens a
    distribution element. *)
Definition beast2_claimed (fin : list text) : Z * Z :=
  let n := Z.of_nat (length (filter opens_distribution
                               (after_likelihood fin))) in
  ((if (n <=? 0)%Z then 1 else 0)%Z, n).

(** The count as amended: a later line with the likelihood tag is skipped
    like the first one. *)
Definition beast2_counted (line : text) : bool :=
  opens_distribution line && negb (has_likelihood_tag line).

Definition beast2_spec (fin : list text) : Z * Z :=
  let n := Z.of_nat (length (filter beast2_counted
                               (after_likelihood fin))) in
  ((if (n <=? 0)%Z then 1 else 0)%Z, n).

(** ** Migrate parmfile *)

Definition has_replicate (line : text) : bool :=
  contains (py_rstrip line) "replicate=YES".

Definition digit_flag (s : text) : Z :=
  if py_isdigit s then 0%Z else 1%Z.

(** The amended claim, as a relation between a file and the result. *)
Inductive migrate_parm_spec : list text -> Z * pyval -> Prop :=
| parm_default fin :
    Forall (fun l => has_replicate l = false) fin ->
    migrate_parm_spec fin (0%Z, PyInt 1)
| parm_one_colon before line after a b :
    Forall (fun l => has_replicate l = false) before ->
    has_replicate line = true ->
    py_rstrip line = a ++ (chr ":") :: b ->
    ~ In (chr ":") a ->
    ~ In (chr ":") b ->
    migrate_parm_spec (before ++ line :: after) (digit_flag b, PyStr b).

(** The claim as worded: everything after the first colon. *)
Fixpoint after_first_colon (s : text) : text :=
  match s with
  | [] => []
  | c :: s' => if N.eqb c (chr ":") then s' else after_first_colon s'
  end.

Definition migrate_parm_claimed (fin : list text) : Z * pyval :=
  match find has_replicate fin with
  | Some line =>
      let reps := after_first_colon (py_rstrip line) in
      (digit_flag reps, PyStr reps)
  | None => (0%Z, PyInt 1)
  end.

(** ** Migrate infile *)

Definition all_space (s : text) : bool := forallb py_isspace s.
Definition no_space (s : text) : bool :=
  forallb (fun c => negb (py_isspace c)) s.

(** A line whose first two fields are [f0] and [f1]. *)
Inductive two_fields (f0 f1 : text) : text -> Prop :=
| two_fields_intro ws0 ws1 tail :
    all_space ws0 = true ->
    f0 <> [] -> no_space f0 = true ->
    ws1 <> [] -> all_space ws1 = true ->
    f1 <> [] -> no_space f1 = true ->
    (tail = [] \/ exists c t, tail = c :: t /\ py_isspace c = true) ->
    two_fields f0 f1 (ws0 ++ f0 ++ ws1 ++ f1 ++ tail).

(** The claim as worded: the first line that is not blank. *)
Definition is_blank (line : text) : bool := is_nil (py_strip line).

Definition migrate_infile_claimed (fin : list text) : option (Z * pyval) :=
  match find (fun l => negb (is_blank l)) fin with
  | Some line =>
      match py_split_ws (py_strip line) with
      | _ :: f1 :: _ => Some (digit_flag f1, PyStr f1)
      | _ => None
      end
  | None => None
  end.

(** ** MrBayes *)

(** A control line: [mcmc] or [mcmcp] at the start, then white space. *)
Definition then_space (rest : option text) : bool :=
  match rest with
  | Some (c :: _) => py_isspace c
  | _ => false
  end.

Definition is_control (line : text) : bool :=
  then_space (drop_prefix (txt "mcmc") (py_strip line))
  || then_space (drop_prefix (txt "mcmcp") (py_strip line)).

Definition captured_or (r : regex) (line : text) (default : Z) : pyval :=
  match search r (py_strip line) with
  | Some m => PyStr (group1 m)
  | None => PyInt default
  end.

(** [nruns\s*=\s*(\d+)] and [nchains\s*=\s*(\d+)], the patterns as the
    specification writes them. *)
Definition spec_nruns : regex :=
  seq [lit "nruns"; RStar CSpace; lit "="; RStar CSpace;
       RGroup (RPlus CDigit)].
Definition spec_nchains : regex :=
  seq [lit "nchains"; RStar CSpace; lit "="; RStar CSpace;
       RGroup (RPlus CDigit)].

(** The pattern of a setting as the specification writes it:
    [key\s*=\s*(\d+)]. *)
Definition key_pattern (key : string) : regex :=
  seq [lit key; RStar CSpace; lit "="; RStar CSpace; RGroup (RPlus CDigit)].

(** What the first group holds when [r] matches at the head of [s]. *)
Definition capture_here (whole : nat) (r : regex) (s : text) : option text :=
  match match_here whole r s with
  | Some (_, caps) => Some (hd [] caps)
  | None => None
  end.

(** The capture at the last place of [s] where [r] matches. *)
Fixpoint last_capture (whole : nat) (r : regex) (s : text) : option text :=
  match s with
  | [] => capture_here whole r []
  | _ :: s' =>
      match last_capture whole r s' with
      | Some d => Some d
      | None => capture_here whole r s
      end
  end.

(** The value of a setting on a control line: the capture at the last
    occurrence of the pattern in the stripped line, or the default. *)
Definition last_or (r : regex) (line : text) (default : Z) : pyval :=
  let s := py_strip line in
  match last_capture (length s) r s with
  | Some d => PyStr d
  | None => PyInt default
  end.

(** The same at the first occurrence in the line as read, the reading of
    the claim. *)
Definition first_or (r : regex) (line : text) (default : Z) : pyval :=
  match search r line with
  | Some m => PyStr (group1 m)
  | None => PyInt default
  end.

(** A line that starts with [mcmc] or [mcmcp] and white space, as read. *)
Definition starts_control (line : text) : bool :=
  then_space (drop_prefix (txt "mcmc") line)
  || then_space (drop_prefix (txt "mcmcp") line).

Definition bayes_claimed (fin : list text) : Z * pyval * pyval :=
  match find starts_control fin with
  | Some line =>
      (0%Z, first_or spec_nruns line 2, first_or spec_nchains line 4)
  | None => (1%Z, PyInt (-1), PyInt (-1))
  end.

(** A line as iterating over a file yields it: no newline before its last
    character. *)
Definition line_of_file (line : text) : bool :=
  forallb (fun c => negb (N.eqb c newline)) (removelast line).

(** A control line that sets the number of runs twice. *)
Definition two_nruns : list text := [ln "mcmc nruns=3 nruns=8 nchains=2"].

(** What [.*] leaves of a text: the text from its first newline on. *)
Fixpoint skip_any (s : text) : text :=
  match s with
  | c :: s' => if N.eqb c newline then s else skip_any s'
  | [] => []
  end.

(** The answer of [cont] at the last suffix of [s] where it has one. *)
Fixpoint last_suffix {A} (cont : text -> option A) (s : text) : option A :=
  match s with
  | [] => cont []
  | _ :: s' =>
      match last_suffix cont s' with
      | Some a => Some a
      | None => cont s
      end
  end.

Definition no_newline (s : text) : bool :=
  forallb (fun c => negb (N.eqb c newline)) s.

(** The pattern of a setting as the script compiles it:
    [.*key\s*=\s*(\d+).*]. *)
Definition compiled_pattern (key : string) : regex :=
  seq [RStar CAny; lit key; RStar CSpace; lit "="; RStar CSpace;
       RGroup (RPlus CDigit); RStar CAny].

(** The amended claim: the first control line, and on it the last
    occurrence of each setting. *)
Definition bayes_spec (fin : list text) : Z * pyval * pyval :=
  match find is_control fin with
  | Some line =>
      (0%Z, last_or spec_nruns line 2, last_or spec_nchains line 4)
  | None => (1%Z, PyInt (-1), PyInt (-1))
  end.

(** ** Ranking *)

Definition has_garliscore (line : text) : bool :=
  (0 <=? py_find (py_rstrip line) (txt "GarliScore"))%Z.

Definition is_zero (x : pyfloat) : bool := float_eqb x (FFin 0).

(** Some file of the run was classified with a score equal to [0]. *)
Inductive zero_score_seen : rank_state -> list file -> Prop :=
| zero_here st f fs st1 sc :
    scan_file st (snd f) = Return st1 ->
    score st1 = Some sc ->
    is_zero sc = true ->
    zero_score_seen st (f :: fs)
| zero_later st f fs st2 :
    file_body st f = Return (Next st2) ->
    zero_score_seen st2 fs ->
    zero_score_seen st (f :: fs).

Definition entry_line (e : pyfloat * text) : written :=
  WScore (fst e) (snd e).

Definition line_score (w : written) : pyfloat :=
  match w with
  | WScore gs _ => gs
  | WHeader => FFin 0
  end.

(** [a] ranks before [b]. *)
Definition higher (a b : written) : Prop :=
  float_ltb (line_score b) (line_score a) = true.

(** How a file is classified with the score [sc]: a problem file, or an
    entry of the dictionary. *)
Definition classified (sc : pyfloat) (name : text) (st st' : rank_state)
  : Prop :=
  if is_zero sc
  then error_code st' = 1%Z
       /\ problem_files st' = problem_files st ++ [name]
       /\ score_dict st' = score_dict st
  else error_code st' = error_code st
       /\ problem_files st' = problem_files st
       /\ score_dict st' = dict_set (score_dict st) sc name.

(** ** Fixtures *)

(** The configuration of the GARLI example. *)
Definition garli_zero_conf : list text :=
  [ln "[general]"; ln "bootstrapreps = 0"; ln "searchreps = 5";
   ln "availablememory = 1024"].

(** A best-tree file: [n] lines, the line of the score, the rest. *)
Definition score_line (sc : string) : text :=
  txt "tree best = [&U][!GarliScore " ++ txt sc ++ ln "][!GarliModel r 1 ];".

Definition best_tre (before : list text) (sc : string) (after : list text)
  : list text :=
  before ++ score_line sc :: after.

(** The three files of the ranking example. *)
Inductive fixture := F12_3 | F45_6 | Fm7_8.

Definition fixture_score (i : fixture) : string :=
  match i with
  | F12_3 => "12.3"
  | F45_6 => "45.6"
  | Fm7_8 => "-7.8"
  end.

Definition fixture_name (i : fixture) : text :=
  match i with
  | F12_3 => txt "run1.best.tre"
  | F45_6 => txt "run2.best.tre"
  | Fm7_8 => txt "run3.best.tre"
  end.

Definition fixture_matches (i : fixture) : bool :=
  match i with
  | Fm7_8 => true
  | _ => false
  end.

(** ** More fixtures *)

(** [bootreps] is the initial [-1] until a value is captured, and a string
    from then on. *)
Definition boot_inv (st : garli_state) : Prop :=
  (have_bootreps st = false /\ bootreps st = PyInt (-1))
  \/ (have_bootreps st = true /\ exists d, bootreps st = PyStr d).

Definition likelihood_line : text :=
  txt "<distribution id=" ++ dquote :: txt "likelihood" ++ dquote :: ln ">".

Definition two_likelihood_lines : list text :=
  [ln "<run>"; likelihood_line; likelihood_line; ln "</run>"].

(** The BEAST2 example: the likelihood line, three opening tags and one
    tag that closes itself. *)
Definition beast2_example : list text :=
  [ln "<beast version='2.0'>";
   ln "  <distribution id='posterior'>";
   likelihood_line;
   ln "    <distribution id='treeLikelihood.1' data='@d1'>";
   ln "      <siteModel id='s1'/>";
   ln "    </distribution>";
   ln "    <distribution id='treeLikelihood.2' data='@d2'>";
   ln "    </distribution>";
   ln "    <distribution id='prior' spec='x'/>";
   ln "    <distribution id='treeLikelihood.3' data='@d3'>";
   ln "    </distribution>";
   ln "  </distribution>";
   ln "</beast>"].

Definition two_colons : list text :=
  [ln "# Parmfile for Migrate"; ln "replicate=YES:10:20"].

Definition parm_fixture : list text :=
  [ln "# Parmfile for Migrate"; ln "replicate=YES:10"; ln "replicate=YES:x"].

Definition bayes_example : list text :=
  [ln "#NEXUS"; ln "begin mrbayes;"; ln "  mcmc ngen=100"; ln "end;"].


Definition blank_first : list text := [ln ""; ln "  2 3 Example data"].

Definition infile_fixture : list text :=
  [ln "  2 13 Example data"; ln "3 40"; ln "pop1"].


(** A numeral that [int] converts: at least one digit, and no more digits
    than the interpreter allows. *)
Definition convertible (s : text) : bool :=
  negb (is_nil s) && (Z.of_nat (length s) <=? int_max_str_digits)%Z.

(** A line that is not a line of patterns, or one with a numeral that
    [int] converts right after the prefix. *)
Definition numeral_present (line : text) : Prop :=
  is_patterns_line line = true -> convertible (patterns_numeral line) = true.


(** A BEAST file whose alignment line also lists a number of patterns. *)
Definition beast_same_line : list text :=
  [ln "<beast>";
   txt "  <alignment id='a' dataType=" ++ dquote :: txt "nucleotide"
     ++ dquote :: ln " npatterns=10>";
   ln "</beast>"].

(** A BEAST file with two lines of patterns. *)
Definition beast_fixture : list text :=
  [ln "<beast>";
   txt "  <alignment id='a' dataType=" ++ dquote :: txt "nucleotide"
     ++ dquote :: ln ">";
   ln "  <!-- npatterns=10 -->";
   ln "  <patterns id='p1' from='1'/>";
   ln "  <!-- npatterns = 15 -->";
   ln "</beast>"].


(** A best-tree file without a line of the score. *)
Definition no_score_file : list text :=
  [ln "#NEXUS"; ln "begin trees;"; ln "end;"].


(** Scanning a file changes neither the error code, nor the problem files,
    nor the dictionary. *)
Definition same_books (st st' : rank_state) : Prop :=
  error_code st' = error_code st
  /\ problem_files st' = problem_files st
  /\ score_dict st' = score_dict st.


Definition float_of (s : string) : pyfloat :=
  match py_float (txt s) with
  | Return x => x
  | Raise _ => FFin 0
  end.

(** The state after a first file with the score [-7.8] on its third line,
    and a second file of two lines. *)
Definition short_state : rank_state :=
  {| score := Some (float_of "-7.8"); first_file := false;
     lines_until_score := 2; line_num := 0; error_code := 0;
     problem_files := [];
     score_dict := [(float_of "-7.8", txt "run1.best.tre")] |}.



(** [a] comes before [b] in descending order. *)
Definition descending (a b : pyfloat) : Prop := float_ltb b a = true.


(** Three best-tree files with negative scores, and the state their
    processing ends in. *)
Definition ranked_fixture : list file :=
  [(txt "run1.best.tre",
    best_tre [ln "#NEXUS"; ln "begin trees;"] "-12.3" [ln "end;"]);
   (txt "run2.best.tre",
    best_tre [ln "#NEXUS"; ln "begin trees;"] "-45.6" [ln "end;"]);
   (txt "run3.best.tre",
    best_tre [ln "#NEXUS"; ln "begin trees;"] "-7.8" [ln "end;"])].

Definition ranked_state : rank_state :=
  match main_loop ranked_fixture with
  | Return st => st
  | Raise _ => rank_init
  end.

(** A file with the score [-0.0], then a file whose score starts with a
    question mark. *)
Definition zero_then_question : list file :=
  [(txt "run1.best.tre", [score_line "-0.0"]);
   (txt "run2.best.tre", [score_line "?12.3"])].

(** The files of the ranking example: each has its own lines before and
    after the line of the score. *)
Definition fixture_file (before after : fixture -> list text) (i : fixture)
  : file :=
  (fixture_name i, best_tre (before i) (fixture_score i) (after i)).

Definition is_problem (i : fixture) : bool := negb (fixture_matches i).

(** The three files in the order the claim hopes for: descending score. *)
Definition claimed_ranking : list written :=
  [WHeader;
   WScore (float_of "45.6") (fixture_name F45_6);
   WScore (float_of "12.3") (fixture_name F12_3);
   WScore (float_of "-7.8") (fixture_name Fm7_8)].

Definition three_fixtures : list file :=
  map (fixture_file (fun _ => [ln "#NEXUS"; ln "begin trees;"])
         (fun _ => [ln "end;"]))
    [F12_3; F45_6; Fm7_8].


Definition is_some {A} (o : option A) : bool :=
  match o with Some _ => true | None => false end.

(** Whether [r] matches somewhere in [s]. *)
Fixpoint found_from (whole : nat) (r : regex) (s : text) : bool :=
  is_some (match_here whole r s)
  || match s with
     | [] => false
     | _ :: s' => found_from whole r s'
     end.


(** What a pattern can hand to its continuation: [matches r s caps s' caps']
    when [r] matches a prefix of [s], leaves [s'] and extends the groups
    [caps] to [caps']. *)
Inductive matches (whole : nat) : regex -> text -> list text -> text ->
  list text -> Prop :=
| m_lit l s s' caps :
    drop_prefix l s = Some s' -> matches whole (RLit l) s caps s' caps
| m_one k c s caps :
    class_mem k c = true -> matches whole (ROne k) (c :: s) caps s caps
| m_star k p s caps :
    forallb (class_mem k) p = true ->
    matches whole (RStar k) (p ++ s) caps s caps
| m_plus k c p s caps :
    class_mem k c = true -> forallb (class_mem k) p = true ->
    matches whole (RPlus k) (c :: p ++ s) caps s caps
| m_seq r1 r2 s caps s1 caps1 s2 caps2 :
    matches whole r1 s caps s1 caps1 ->
    matches whole r2 s1 caps1 s2 caps2 ->
    matches whole (RSeq r1 r2) s caps s2 caps2
| m_alt_l r1 r2 s caps s' caps' :
    matches whole r1 s caps s' caps' ->
    matches whole (RAlt r1 r2) s caps s' caps'
| m_alt_r r1 r2 s caps s' caps' :
    matches whole r2 s caps s' caps' ->
    matches whole (RAlt r1 r2) s caps s' caps'
| m_group r s caps s' caps' :
    matches whole r s caps s' caps' ->
    matches whole (RGroup r) s caps s'
      (caps' ++ [firstn (length s - length s') s])
| m_bol s caps :
    length s = whole -> matches whole RBol s caps s caps.

(** A pattern without groups. *)
Fixpoint no_group (r : regex) : bool :=
  match r with
  | RSeq r1 r2 | RAlt r1 r2 => no_group r1 && no_group r2
  | RGroup _ => false
  | _ => true
  end.

(** The patterns that capture a number: parts without groups, then a group
    of digits, then [.*]. *)
Inductive number_pattern : regex -> Prop :=
| number_tail :
    number_pattern (RSeq (RGroup (RPlus CDigit)) (RStar CAny))
| number_step r0 r :
    no_group r0 = true -> number_pattern r -> number_pattern (RSeq r0 r).


(** A likelihood line as BEAUti writes it: attributes follow the id. *)
Definition likelihood_with_attributes : list text :=
  [likelihood_tag ++ ln " spec='util.CompoundDistribution'>";
   ln "  <distribution id='treeLikelihood.1' data='@d1'>";
   ln "  </distribution>"].


(** ** The main program *)

(** A line that carries one of the five signatures. *)
Definition has_signature (line : text) : bool :=
  contains line "BEAUTi"
  || (contains line "<beast" && (0 <=? py_find line version_2)%Z)
  || contains line "Parmfile for Migrate"
  || contains line "#NEXUS"
  || contains line "[general]".

(** The type one line stands for, by the order of the tests. *)
Definition line_type (line : text) : file_type :=
  if contains line "BEAUTi" then Beast
  else if contains line "<beast" && (0 <=? py_find line version_2)%Z
  then Beast2
  else if contains line "Parmfile for Migrate" then MigrateParm
  else if contains line "#NEXUS" then Bayes
  else Garli.

(** The first two lines of every report. *)
Definition report_head (t : file_type) (err : char) : text :=
  txt "file_type=" ++ type_name t ++ newline :: txt "err_code=" ++ [err].

(** A report that has nothing after its head, or a newline and more. *)
Definition head_of (head out : text) : Prop :=
  out = head \/ exists more, out = head ++ newline :: more.

(** What the extractor of a type prints before the report: the notice of
    the GARLI and of the MrBayes extractor, when the error flag is 1. *)
Definition notice_of (t : file_type) (err : Z) : text :=
  match t with
  | Garli => if (err =? 1)%Z then print garli_notice else []
  | Bayes => if (err =? 1)%Z then print bayes_notice else []
  | _ => []
  end.

Definition flag_char (err : Z) : char :=
  if (err =? 0)%Z then (chr "0") else (chr "1").

(** A file of Migrate data given without a type: nothing in it is a
    signature. *)
Definition infile_without_type : list text :=
  [ln "  2 13 Example data"; ln "3 40"; ln "pop1"].


(** The types the program can find by itself. *)
Definition detectable (t : file_type) : bool :=
  match t with
  | MigrateInfile => false
  | _ => true
  end.

(** The error flag of the extractor of each type. *)
Definition extractor_flag (t : file_type) (fin : list text) : result Z :=
  match t with
  | Beast => ' (e, _, _, _, _) <- process_beast fin ;; Return e
  | Beast2 => ' (e, _) <- process_beast2 fin ;; Return e
  | MigrateParm => ' (e, _) <- process_migrate_parm fin ;; Return e
  | MigrateInfile => ' (e, _) <- process_migrate_infile fin ;; Return e
  | Garli => ' (e, _, _, _, _) <- process_garli fin ;; Return e
  | Bayes => ' (e, _, _) <- process_bayes fin ;; Return e
  | Unknown => Return 1%Z
  end.

(** A MrBayes file, to be recognised by its first line. *)
Definition nexus_file : list text :=
  [ln "#NEXUS"; ln "begin mrbayes;"; ln "  mcmc ngen=100 nruns=3;"; ln "end;"].


(** ** BEAST: errors, data type and codon flag *)

(** A line of patterns without a numeral that [int] converts after the
    prefix: no digit at all, or more digits than the interpreter allows. *)
Definition missing_numeral (line : text) : bool :=
  is_patterns_line line && negb (convertible (patterns_numeral line)).

(** A line that matches the pattern of the data type, and the token the
    data-type step takes from it. *)
Definition is_datatype_line (line : text) : bool :=
  found (search regex_datatype (py_rstrip line)).

Definition datatype_token (line : text) : text :=
  datatype (fst (beast_datatype beast_init (py_rstrip line))).

(** The token of the last line of the data type. *)
Definition last_datatype (fin : list text) : text :=
  match find is_datatype_line (rev fin) with
  | Some line => datatype_token line
  | None => txt "unknown"
  end.

Definition not_space (c : char) : bool := negb (py_isspace c).

Definition plain_char (c : char) : bool :=
  negb (py_isspace c) && negb (N.eqb c dquote).

(** A line that sets the codon flag: not a line of patterns, and the word
    is in what the data-type step left of it. *)
Definition codon_line (line : text) : bool :=
  negb (is_patterns_line line) && contains (patterns_text line) "codon".

(** A BEAST file whose line of patterns has no number. *)
Definition beast_no_number : list text :=
  [ln "<beast>"; ln "  <!-- npatterns=unknown -->"; ln "</beast>"].

(** A BEAST file with two alignments and a codon model. *)
Definition beast_two_alignments : list text :=
  [ln "<beast>";
   txt "  <alignment id='a1' dataType=" ++ dquote :: txt "nucleotide"
     ++ dquote :: ln ">";
   ln "  <!-- npatterns=10 codon positions -->";
   txt "  <alignment id='a2' dataType = " ++ dquote :: txt " amino acid "
     ++ dquote :: ln ">";
   ln "  <!-- npatterns=15 -->";
   ln "  <codonModel/>";
   ln "</beast>"].


(** A file whose only mention of codon is on a line of patterns. *)
Definition beast_codon_in_patterns : list text :=
  [ln "<beast>"; ln "  <!-- npatterns=10 codon positions -->"; ln "</beast>"].


(** ** GARLI: the three settings *)

(** What a pattern captures in the first line of the file in which it is
    found; lines are searched without their surrounding white space. *)
Fixpoint first_capture (r : regex) (fin : list text) : option text :=
  match fin with
  | [] => None
  | line :: rest =>
      match search r (py_strip line) with
      | Some m => Some (group1 m)
      | None => first_capture r rest
      end
  end.

(** A setting that was captured, or the initial [-1]. *)
Definition setting (o : option text) : pyval :=
  match o with
  | Some s => PyStr s
  | None => PyInt (-1)
  end.

Definition garli_spec (fin : list text)
  : Z * pyval * pyval * pyval * pyval :=
  let b := first_capture cregex_bootstrapreps fin in
  let s := first_capture cregex_searchreps fin in
  let a := first_capture cregex_availmem fin in
  match b, s, a with
  | Some b, Some s, Some a => (0%Z, PyStr b, PyInt 1, PyStr s, PyStr a)
  | _, _, _ => (1%Z, PyInt (-1), setting b, setting s, setting a)
  end.

(** A setting as the loop leaves it: the capture, unless the setting was
    collected before or nothing is captured. *)
Definition collected (have : bool) (v : pyval) (o : option text) : pyval :=
  match o with
  | Some s => if have then v else PyStr s
  | None => v
  end.

(** ** Migrate: the whole of both extractors *)

(** The colons of a line. *)
Definition colons (s : text) : nat :=
  length (filter (N.eqb (chr ":")) s).

(** [process_migrate_parm] in one piece: the first line with
    [replicate=YES] decides, and a number of colons other than one is an
    error. *)
Definition migrate_parm_result (fin : list text) : result (Z * pyval) :=
  match find has_replicate fin with
  | None => Return (0%Z, PyInt 1)
  | Some line =>
      if colons (py_rstrip line) =? 1
      then let reps := after_first_colon (py_rstrip line) in
           Return (digit_flag reps, PyStr reps)
      else Raise ValueError
  end.

(** A line with at most one field: white space, a run without white space
    (empty on a blank line), white space. *)
Inductive at_most_one_field : text -> Prop :=
| one_field ws f ws' :
    all_space ws = true -> no_space f = true -> all_space ws' = true ->
    at_most_one_field (ws ++ f ++ ws').

Definition garli_one_line : list text :=
  [ln "searchreps = 2 bootstrapreps = 100 availablememory = 512";
   ln "searchreps = 7"; ln "bootstrapreps = 0"].


(** ** Ranking: what the scores are *)

(** A score that is not above zero. *)
Definition not_positive (x : pyfloat) : bool := negb (float_ltb (FFin 0) x).

(** A line of the written file below zero; the header has no score. *)
Definition negative_line (w : written) : bool :=
  match w with
  | WScore gs _ => float_ltb gs (FFin 0)
  | WHeader => false
  end.


(** ** Ranking: the run as a whole *)

(** The pattern of the score finds something in the line. *)
Definition has_score (line : text) : bool :=
  found (search regex_score (py_rstrip line)).

(** A second file whose third line carries a score without a sign. *)
Definition unsigned_file : list text :=
  [ln "#NEXUS"; ln "begin trees;"; score_line "12.3"; ln "end;"].

Definition first_run : list file :=
  [(txt "run1.best.tre",
    best_tre [ln "#NEXUS"; ln "begin trees;"] "-7.8" [ln "end;"])].


(** What a completed run wrote, if it wrote the file of scores. *)
Definition scores_written (files : list file) : list written :=
  match rank_files files with
  | Return (ScoresFile out) => out
  | _ => []
  end.

(** The state a file leaves, when its processing completes. *)
Definition state_after (st : rank_state) (f : file) : rank_state :=
  match file_body st f with
  | Return (Next st') => st'
  | _ => st
  end.

(** A second file with the score of the first. *)
Definition same_score_file : file :=
  (txt "run2.best.tre",
   best_tre [ln "#NEXUS"; ln "begin trees;"] "-7.8" [ln "end;"]).


(** ** BEAST: the error flag *)

(** The counts as the loop keeps them: neither is negative, and patterns
    are only counted together with a partition. *)
Definition counts_inv (st : beast_state) : Prop :=
  (0 <= nu_partitions st)%Z /\ (0 <= pattern_count st)%Z
  /\ ((0 < pattern_count st)%Z -> (0 < nu_partitions st)%Z).

(** A known data type. *)
Definition known_datatype (dt : text) : bool :=
  text_eqb dt (txt "aminoacid") || text_eqb dt (txt "nucleotide").

(** ** The directory *)

(** A directory entry that is not a best-tree file. *)
Definition conf_entry : file := (txt "garli.conf", garli_zero_conf).


(** ** Characters outside ASCII *)

Definition nbsp : char := 0xA0%N.
Definition superscript_two : char := 0xB2%N.
Definition arabic_three : char := 0x663%N.

(** A replicate line with a no-break space after the count, and one whose
    count is a superscript. *)
Definition parm_nbsp : list text :=
  [txt "replicate=YES:10" ++ [nbsp; newline]].
Definition parm_superscript : list text :=
  [txt "replicate=YES:" ++ [superscript_two; newline]].

(** A first line whose fields are separated by a no-break space. *)
Definition infile_nbsp : list text :=
  [txt "2" ++ nbsp :: ln "3"].

(** Lines of patterns with a no-break space around the equals sign, and a
    numeral in Arabic-Indic digits. *)
Definition beast_nbsp : list text :=
  [txt "npatterns" ++ nbsp :: txt "=" ++ nbsp :: ln "5 codon";
   txt "npatterns=" ++ [arabic_three; arabic_three; newline]].

(** A numeral of 4301 digits. *)
Definition beast_long_numeral : list text :=
  [txt "npatterns=" ++ repeat (chr "1") 4301 ++ [newline]].

(** A control line indented in the file, and a line that holds nothing
    but [mcmc]. *)
Definition indented_control : list text := [ln "  mcmc nruns=3"].
Definition bare_mcmc : list text := [ln "mcmc"].

(** One table of ranges lies within another. *)
Definition within (t u : list (N * N)) : bool :=
  forallb (fun r => existsb (fun q => (fst q <=? fst r)%N
                                      && (snd r <=? snd q)%N) u) t.

End Spec.

(* ================================================================== *)
(** * Properties *)
(* ================================================================== *)

Import CipresDataParse PostGarli CipresMain Spec.

(** ** Loops *)

Lemma for_each_invariant {A S} (P : S -> Prop)
  (body : S -> A -> result (step S)) xs :
  (forall s x s', In x xs -> P s ->
     body s x = Return (Next s') \/ body s x = Return (Break s') -> P s') ->
  forall s s', P s -> for_each body s xs = Return s' -> P s'.
Proof.
  induction xs as [|x xs IH]; intros Hb s s' Hs H; simpl in *.
  - now inversion H; subst.
  - destruct (body s x) as [[t|t]|e] eqn:E; try discriminate.
    + eapply IH; [| |exact H].
      * intros; eapply Hb; eauto.
      * eapply Hb; eauto.
    + inversion H; subst. eapply Hb; eauto.
Qed.

(** ** GARLI *)

(** C1.  On the configuration with [bootstrapreps = 0], [searchreps = 5]
    and [availablememory = 1024], [process_garli] returns error code 0,
    number of runs ['0'] (the captured text of bootstrapreps), bootstrap
    repetitions [1] and search repetitions ['5']: the captured ['0'] is a
    string, it never equals the int [0], and the branch that would take the
    number of runs from searchreps is not entered. *)
Theorem process_garli_zero_bootstrapreps :
  process_garli garli_zero_conf
  = Return (0%Z, PyStr (txt "0"), PyInt 1, PyStr (txt "5"),
            PyStr (txt "1024")).
Proof. vm_compute. reflexivity. Qed.

Lemma garli_body_boot_inv st line st' :
  boot_inv st ->
  garli_body st line = Return (Next st')
  \/ garli_body st line = Return (Break st') ->
  boot_inv st'.
Proof.
  intros H [E|E]; unfold garli_body in E; inversion E; subst; clear E.
  destruct H as [[Hh Hb]|[Hh [d Hb]]]; rewrite Hh; simpl.
  - destruct (search cregex_bootstrapreps (py_strip line)); simpl;
      repeat match goal with
      | |- context [if ?b then _ else _] => destruct b
      | |- context [match ?m with Some _ => _ | None => _ end] => destruct m
      end; simpl; unfold boot_inv; simpl; eauto.
  - repeat match goal with
      | |- context [if ?b then _ else _] => destruct b
      | |- context [match ?m with Some _ => _ | None => _ end] => destruct m
      end; simpl; unfold boot_inv; simpl; eauto.
Qed.

(** Whatever the file, a successful [process_garli] takes the number of
    runs from the captured bootstrapreps and resets bootstrapreps to 1: the
    other branch is dead code. *)
Lemma process_garli_runs_from_bootreps fin n b s a :
  process_garli fin = Return (0%Z, n, b, s, a) ->
  b = PyInt 1 /\ exists d, n = PyStr d.
Proof.
  unfold process_garli, process_garli_io, bind.
  destruct (for_each garli_body garli_init fin) as [st|e] eqn:E;
    [|discriminate].
  assert (I : boot_inv st).
  { eapply for_each_invariant; [| |exact E].
    - intros; eapply garli_body_boot_inv; eauto.
    - left; split; reflexivity. }
  unfold garli_finish.
  destruct (negb (have_bootreps st) || negb (have_searchreps st)
            || negb (have_availmem st)) eqn:F; [discriminate|].
  destruct I as [[Hh Hb]|[Hh [d Hb]]].
  - rewrite Hh in F. discriminate.
  - rewrite Hb. simpl. intros H; inversion H; subst. eauto.
Qed.

(** ** BEAST2 *)

Lemma ltb_negb_leb x : (x <? 0)%Z = negb (0 <=? x)%Z.
Proof. apply Z.ltb_antisym. Qed.

Lemma beast2_body_eq st line :
  beast2_body st line =
  Return (Next
    (if has_likelihood_tag line
     then {| b2_partitions := b2_partitions st; start_counting := true |}
     else if start_counting st && beast2_counted line
          then {| b2_partitions := b2_partitions st + 1;
                  start_counting := start_counting st |}
          else st)).
Proof.
  unfold beast2_body, beast2_counted, opens_distribution, has_likelihood_tag,
    contains.
  rewrite ltb_negb_leb.
  destruct (0 <=? py_find (py_rstrip line) likelihood_tag)%Z; [reflexivity|].
  rewrite andb_true_r, andb_assoc.
  destruct (start_counting st && _ && _); reflexivity.
Qed.

Lemma beast2_loop_counting fin : forall n,
  for_each beast2_body {| b2_partitions := n; start_counting := true |} fin
  = Return {| b2_partitions :=
                n + Z.of_nat (length (filter beast2_counted fin));
              start_counting := true |}.
Proof.
  induction fin as [|l fin IH]; intros n; simpl.
  - now rewrite Z.add_0_r.
  - rewrite beast2_body_eq. simpl.
    unfold beast2_counted at 1 2.
    destruct (has_likelihood_tag l); simpl.
    + rewrite andb_false_r. apply IH.
    + rewrite andb_true_r. destruct (opens_distribution l); simpl.
      * rewrite IH. f_equal. f_equal. lia.
      * apply IH.
Qed.

Lemma beast2_loop_waiting fin : forall n,
  exists b,
  for_each beast2_body {| b2_partitions := n; start_counting := false |} fin
  = Return {| b2_partitions :=
                n + Z.of_nat (length (filter beast2_counted
                                        (after_likelihood fin)));
              start_counting := b |}.
Proof.
  induction fin as [|l fin IH]; intros n; simpl.
  - exists false. now rewrite Z.add_0_r.
  - rewrite beast2_body_eq. simpl.
    destruct (has_likelihood_tag l); simpl.
    + exists true. apply beast2_loop_counting.
    + apply IH.
Qed.

(** C7, the claim as worded fails: of two lines with the likelihood tag the
    second comes after the first, contains [<distribution] and no [/>], and
    is not counted. *)
Lemma process_beast2_second_likelihood_line :
  process_beast2 two_likelihood_lines = Return (1%Z, 0%Z)
  /\ beast2_claimed two_likelihood_lines = (0%Z, 1%Z).
Proof. split; vm_compute; reflexivity. Qed.

(** C7, amended.  For every BEAST2 file, [process_beast2] returns the number
    of lines after the first line with the likelihood tag that contain
    [<distribution], do not contain [/>] and do not contain the likelihood
    tag again; the error flag is 1 exactly when that number is at most 0. *)
Theorem process_beast2_counts fin :
  process_beast2 fin = Return (beast2_spec fin).
Proof.
  unfold process_beast2, beast2_spec.
  destruct (beast2_loop_waiting fin 0) as [b ->]. reflexivity.
Qed.

(** The example of the specification: three opening tags and one tag that
    closes itself after the likelihood line give the count 3. *)
Lemma process_beast2_example :
  process_beast2 beast2_example = Return (0%Z, 3%Z).
Proof. vm_compute. reflexivity. Qed.

(** ** MrBayes *)

Lemma match_here_bol whole r s :
  match_here whole (RSeq RBol r) s
  = if length s =? whole then match_here whole r s else None.
Proof. reflexivity. Qed.

Lemma search_from_bol whole r s : forall before,
  length s < whole ->
  search_from whole (RSeq RBol r) before s = None.
Proof.
  induction s as [|c s IH]; intros before H;
    cbn [search_from]; rewrite match_here_bol.
  - destruct (Nat.eqb_spec (length (@nil char)) whole) as [E|_];
      [cbn [length] in *; lia|reflexivity].
  - destruct (Nat.eqb_spec (length (c :: s)) whole) as [E|_];
      [cbn [length] in *; lia|].
    apply IH. cbn [length] in H. lia.
Qed.

(** An anchored pattern matches at the start of the text or nowhere. *)
Lemma search_bol_found r s :
  found (search (RSeq RBol r) s)
  = match match_here (length s) (RSeq RBol r) s with
    | Some _ => true
    | None => false
    end.
Proof.
  unfold search. destruct s as [|c s]; cbn [search_from].
  - destruct (match_here _ (RSeq RBol r) []) as [[? ?]|]; reflexivity.
  - destruct (match_here _ (RSeq RBol r) (c :: s)) as [[? ?]|];
      [reflexivity|].
    rewrite search_from_bol; [reflexivity|cbn [length]; lia].
Qed.

(** The compiled pattern of the control line finds exactly the lines that,
    stripped, start with [mcmc] or [mcmcp] and a white-space character. *)
Lemma mcmcp_found line :
  found (search cregex_mcmcp (py_strip line)) = is_control line.
Proof.
  unfold cregex_mcmcp, is_control. simpl seq.
  rewrite search_bol_found.
  generalize (py_strip line); intros s.
  rewrite match_here_bol, Nat.eqb_refl.
  unfold match_here, lit. cbn [run].
  destruct (drop_prefix (txt "mcmc") s) as [[|c r]|];
    destruct (drop_prefix (txt "mcmcp") s) as [[|c' r']|];
    cbn [then_space class_mem orb]; try reflexivity;
    try destruct (py_isspace c); try destruct (py_isspace c');
    reflexivity.
Qed.

Lemma bayes_loop fin : forall st,
  for_each bayes_body st fin
  = Return match find is_control fin with
           | Some line =>
               {| nruns := captured_or cregex_nruns line 2;
                  nchains := captured_or cregex_nchains line 4;
                  mrbayes := true |}
           | None => st
           end.
Proof.
  induction fin as [|l fin IH]; intros st; simpl; [reflexivity|].
  unfold bayes_body. rewrite mcmcp_found.
  destruct (is_control l); [reflexivity|apply IH].
Qed.

(** The line [mcmc ngen=100] gives the defaults. *)
Lemma process_bayes_defaults :
  process_bayes bayes_example = Return (0%Z, PyInt 2, PyInt 4).
Proof. vm_compute. reflexivity. Qed.

(** ** Migrate parmfile *)

Lemma py_split_none sep s :
  ~ In sep s -> py_split sep s = [s].
Proof.
  induction s as [|c s IH]; intros H; simpl; [reflexivity|].
  destruct (N.eqb_spec c sep) as [->|_].
  - exfalso; apply H; now left.
  - rewrite IH; [reflexivity|]. intros F; apply H; now right.
Qed.

Lemma py_split_one sep a b :
  ~ In sep a -> ~ In sep b -> py_split sep (a ++ sep :: b) = [a; b].
Proof.
  intros Ha Hb. induction a as [|c a IH]; simpl.
  - rewrite N.eqb_refl, py_split_none by assumption. reflexivity.
  - destruct (N.eqb_spec c sep) as [->|_].
    + exfalso; apply Ha; now left.
    + rewrite IH; [reflexivity|]. intros F; apply Ha; now right.
Qed.

Lemma migrate_parm_loop_skip before : forall st rest,
  Forall (fun l => has_replicate l = false) before ->
  for_each migrate_parm_body st (before ++ rest)
  = for_each migrate_parm_body st rest.
Proof.
  induction before as [|l before IH]; intros st rest H; simpl;
    [reflexivity|].
  inversion H as [|? ? Hl Hb]; subst.
  unfold migrate_parm_body at 1. unfold has_replicate in Hl. rewrite Hl.
  now apply IH.
Qed.

(** C4, the claim as worded fails: with two colons on the line the script
    raises ValueError where the claim returns the text after the first
    colon and the error flag 1. *)
Lemma process_migrate_parm_two_colons :
  process_migrate_parm two_colons = Raise ValueError
  /\ migrate_parm_claimed two_colons = (1%Z, PyStr (txt "10:20")).
Proof. split; vm_compute; reflexivity. Qed.

(** C4, amended.  When no line contains [replicate=YES] the replicate count
    stays the default 1 and the error flag is 0.  When the first such line,
    without its trailing white space, has exactly one colon, the replicate
    count is the text after the colon, later lines are not read, and the
    error flag is 1 exactly when [str.isdigit] rejects that text: it is
    empty, or one of its characters is not a digit.  White space and digits
    are Python's, over all of Unicode. *)
Theorem process_migrate_parm_one_colon fin r :
  migrate_parm_spec fin r -> process_migrate_parm fin = Return r.
Proof.
  intros H. unfold process_migrate_parm.
  destruct H as [fin H|before line after a b Hb Hl Hs Ha Hb'].
  - rewrite <- (app_nil_r fin), migrate_parm_loop_skip by assumption.
    reflexivity.
  - rewrite migrate_parm_loop_skip by assumption. simpl.
    unfold migrate_parm_body. unfold has_replicate in Hl. rewrite Hl, Hs.
    rewrite py_split_one by assumption. simpl.
    unfold digit_flag. destruct (py_isdigit b); reflexivity.
Qed.

Lemma process_migrate_parm_one_colon_witness :
  process_migrate_parm parm_fixture = Return (0%Z, PyStr (txt "10")).
Proof.
  apply (@process_migrate_parm_one_colon parm_fixture
           (digit_flag (txt "10"), PyStr (txt "10"))).
  apply (@parm_one_colon [ln "# Parmfile for Migrate"] (ln "replicate=YES:10")
           [ln "replicate=YES:x"] (txt "replicate=YES") (txt "10")).
  - repeat constructor.
  - reflexivity.
  - reflexivity.
  - simpl. intros H. repeat (destruct H as [H|H]; [discriminate|]). exact H.
  - simpl. intros H. repeat (destruct H as [H|H]; [discriminate|]). exact H.
Defined.

(** ** Migrate infile *)

Lemma all_space_rev ws : all_space ws = true -> all_space (rev ws) = true.
Proof.
  unfold all_space. rewrite !forallb_forall. intros H c Hc.
  apply H. now apply in_rev.
Qed.

Lemma lstrip_split s :
  exists ws, s = ws ++ py_lstrip s /\ all_space ws = true.
Proof.
  induction s as [|c s [ws [E H]]]; simpl.
  - exists []. split; reflexivity.
  - destruct (py_isspace c) eqn:C.
    + exists (c :: ws). split.
      * simpl. now rewrite <- E.
      * simpl. now rewrite C.
    + exists []. split; reflexivity.
Qed.

Lemma rstrip_split s :
  exists ws, s = py_rstrip s ++ ws /\ all_space ws = true.
Proof.
  destruct (lstrip_split (rev s)) as [ws [E H]].
  exists (rev ws). split.
  - unfold py_rstrip. rewrite <- rev_app_distr, <- E. now rewrite rev_involutive.
  - now apply all_space_rev.
Qed.

Lemma split_fields_spaces ws : forall cur,
  all_space ws = true -> split_fields cur ws = split_fields cur [].
Proof.
  induction ws as [|c ws IH]; intros cur H; [reflexivity|].
  simpl in H. apply andb_prop in H as [C H]. simpl. rewrite C.
  destruct cur; simpl; rewrite (IH [] H); reflexivity.
Qed.

Lemma split_fields_trailing s : forall cur ws,
  all_space ws = true -> split_fields cur (s ++ ws) = split_fields cur s.
Proof.
  induction s as [|c s IH]; intros cur ws H.
  - now apply split_fields_spaces.
  - simpl. rewrite !IH by assumption. reflexivity.
Qed.

Lemma split_fields_leading ws : forall s,
  all_space ws = true -> split_fields [] (ws ++ s) = split_fields [] s.
Proof.
  induction ws as [|c ws IH]; intros s H; [reflexivity|].
  simpl in H. apply andb_prop in H as [C H]. simpl. rewrite C. now apply IH.
Qed.

Lemma split_fields_field f : forall cur s,
  no_space f = true -> split_fields cur (f ++ s) = split_fields (rev f ++ cur) s.
Proof.
  induction f as [|c f IH]; intros cur s H; [reflexivity|].
  simpl in H. apply andb_prop in H as [C H].
  apply negb_true_iff in C. simpl. rewrite C, IH by assumption.
  now rewrite <- app_assoc.
Qed.

(** [strip] does not change the fields of a line. *)
Lemma split_ws_strip s : py_split_ws (py_strip s) = py_split_ws s.
Proof.
  unfold py_split_ws, py_strip.
  destruct (lstrip_split (py_rstrip s)) as [ws [E H]].
  destruct (rstrip_split s) as [ws' [E' H']].
  rewrite E' at 2. rewrite split_fields_trailing by assumption.
  rewrite E at 2. now rewrite split_fields_leading.
Qed.

Lemma split_ws_two_fields f0 f1 line :
  two_fields f0 f1 line ->
  exists more, py_split_ws line = f0 :: f1 :: more.
Proof.
  intros [ws0 ws1 tail H0 N0 S0 N1 S1 N2 S2 T].
  unfold py_split_ws.
  rewrite split_fields_leading by assumption.
  rewrite split_fields_field by assumption. rewrite app_nil_r.
  destruct ws1 as [|c ws1]; [contradiction|].
  simpl in S1. apply andb_prop in S1 as [C S1].
  simpl. rewrite C.
  destruct (rev f0) eqn:R.
  { exfalso. apply N0. rewrite <- (rev_involutive f0), R. reflexivity. }
  simpl is_nil. cbv iota. rewrite <- R, rev_involutive.
  rewrite split_fields_leading by assumption.
  rewrite split_fields_field by assumption. rewrite app_nil_r.
  assert (Rn : is_nil (rev f1) = false).
  { destruct (rev f1) eqn:R1; [|reflexivity].
    exfalso. apply N2. rewrite <- (rev_involutive f1), R1. reflexivity. }
  destruct T as [->|[c' [t [-> C']]]]; simpl; rewrite ?C', Rn, rev_involutive;
    eauto.
Qed.

(** C5, amended.  For every migrate input file whose first line has at
    least two fields (white space, a first field, white space, a second
    field, then nothing or white space and anything), [process_migrate_infile]
    reads that first line only, whatever follows it, takes the second field
    as the locus count, and returns error flag 1 exactly when
    [str.isdigit] rejects that field: one of its characters is not a digit.
    White space and digits are Python's, over all of Unicode. *)
Theorem process_migrate_infile_first_line line rest f0 f1 :
  two_fields f0 f1 line ->
  process_migrate_infile (line :: rest) = Return (digit_flag f1, PyStr f1).
Proof.
  intros H. destruct (split_ws_two_fields H) as [more E].
  unfold process_migrate_infile. simpl.
  unfold migrate_infile_body. rewrite split_ws_strip, E. simpl.
  unfold digit_flag. destruct (py_isdigit f1); reflexivity.
Qed.

(** C5, the claim as worded fails: the first line is read even when it is
    blank, and a first line with fewer than two fields is an IndexError,
    where the claim takes the second field of the first line that is not
    blank. *)
Lemma process_migrate_infile_blank_first_line :
  process_migrate_infile blank_first = Raise IndexError
  /\ migrate_infile_claimed blank_first = Some (0%Z, PyStr (txt "3")).
Proof. split; vm_compute; reflexivity. Qed.

Lemma process_migrate_infile_first_line_witness :
  process_migrate_infile infile_fixture = Return (0%Z, PyStr (txt "13")).
Proof.
  apply (@process_migrate_infile_first_line (ln "  2 13 Example data")
           [ln "3 40"; ln "pop1"] (txt "2") (txt "13")).
  apply (@two_fields_intro (txt "2") (txt "13") (txt "  ") (txt " ")
           (ln " Example data")).
  - reflexivity.
  - discriminate.
  - reflexivity.
  - discriminate.
  - reflexivity.
  - discriminate.
  - reflexivity.
  - right. eexists; eexists; split; reflexivity.
Defined.

(** An empty file keeps the default. *)
Lemma process_migrate_infile_empty :
  process_migrate_infile [] = Return (0%Z, PyInt 1).
Proof. reflexivity. Qed.

(** ** BEAST *)

Lemma star_greedy_total k (caps : list text) s :
  exists rest,
    star_greedy (A:=text * list text) k s (fun s' => Some (s', caps))
    = Some (rest, caps)
    /\ length rest <= length s.
Proof.
  induction s as [|c s [rest [E L]]]; simpl.
  - exists []. split; [reflexivity|simpl; lia].
  - destruct (class_mem k c).
    + rewrite E. exists rest. split; [reflexivity|simpl; lia].
    + exists (c :: s). split; [reflexivity|simpl; lia].
Qed.

(** Deleting [\D.*] leaves digits only. *)
Lemma sub_nondigit_rest_digits whole s : forall skip,
  forallb is_decimal (sub_go whole regex_nondigit_rest skip s) = true.
Proof.
  induction s as [|c s IH]; intros skip; [reflexivity|].
  cbn [sub_go]. destruct skip as [|k]; [|apply IH].
  unfold match_here, regex_nondigit_rest. cbn [seq run class_mem].
  destruct (is_decimal c) eqn:D; cbn [negb].
  - simpl. rewrite D. apply IH.
  - destruct (star_greedy_total CAny [] s) as [rest [E L]].
    rewrite E.
    replace (length (c :: s) - length rest) with (S (length s - length rest))
      by (cbn [length]; lia).
    apply IH.
Qed.

Lemma patterns_digits_digits line :
  forallb is_decimal (patterns_digits line) = true.
Proof. apply sub_nondigit_rest_digits. Qed.

Lemma py_int_numeral line :
  py_int (patterns_digits line)
  = if convertible (patterns_digits line)
    then Return (digits_val (patterns_digits line))
    else Raise ValueError.
Proof.
  unfold py_int, py_isdecimal, convertible.
  rewrite patterns_digits_digits, andb_true_r. reflexivity.
Qed.

Lemma beast_datatype_text st line :
  snd (beast_datatype st line) = snd (beast_datatype beast_init line).
Proof.
  unfold beast_datatype. destruct (found (search regex_datatype line));
    reflexivity.
Qed.

Lemma beast_datatype_counts st line :
  nu_partitions (fst (beast_datatype st line)) = nu_partitions st
  /\ pattern_count (fst (beast_datatype st line)) = pattern_count st.
Proof.
  unfold beast_datatype. destruct (found (search regex_datatype line));
    split; reflexivity.
Qed.

Lemma beast_codon_counts st line :
  nu_partitions (beast_codon st line) = nu_partitions st
  /\ pattern_count (beast_codon st line) = pattern_count st.
Proof.
  unfold beast_codon. destruct (found (search regex_codon line));
    split; reflexivity.
Qed.

(** One line: a line of patterns with a numeral adds one partition and the
    value of the numeral; any other line leaves both counts. *)
Lemma beast_body_counts st line :
  numeral_present line ->
  exists st',
    beast_body st line = Return (Next st')
    /\ nu_partitions st'
       = (nu_partitions st + if is_patterns_line line then 1 else 0)%Z
    /\ pattern_count st'
       = (pattern_count st
          + if is_patterns_line line then patterns_value line else 0)%Z.
Proof.
  intros H. unfold beast_body.
  destruct (beast_datatype st (py_rstrip line)) as [st1 l1] eqn:E.
  assert (El : l1 = patterns_text line).
  { unfold patterns_text. rewrite <- (beast_datatype_text st), E.
    reflexivity. }
  destruct (beast_datatype_counts st (py_rstrip line)) as [N P].
  rewrite E in N, P. simpl in N, P.
  unfold numeral_present, is_patterns_line, patterns_value,
    patterns_numeral in *.
  rewrite <- El in *. unfold beast_patterns.
  destruct (found (search regex_patterns l1)).
  - rewrite py_int_numeral, H by reflexivity. simpl.
    eexists; split; [reflexivity|].
    destruct (beast_codon_counts
      {| datatype := datatype st1;
         codon_partitioning := codon_partitioning st1;
         nu_partitions := nu_partitions st1 + 1;
         pattern_count := pattern_count st1 + digits_val (patterns_digits l1)
      |} (patterns_digits l1)) as [N' P'].
    rewrite N', P'. simpl. rewrite N, P. split; reflexivity.
  - simpl. eexists; split; [reflexivity|].
    destruct (beast_codon_counts st1 l1) as [N' P'].
    rewrite N', P', N, P. split; lia.
Qed.

Lemma beast_loop_counts fin : forall st,
  Forall numeral_present fin ->
  exists st',
    for_each beast_body st fin = Return st'
    /\ nu_partitions st'
       = (nu_partitions st
          + Z.of_nat (length (filter is_patterns_line fin)))%Z
    /\ pattern_count st'
       = (pattern_count st
          + Z_sum (map patterns_value (filter is_patterns_line fin)))%Z.
Proof.
  induction fin as [|l fin IH]; intros st H.
  - exists st. simpl. repeat split; lia.
  - inversion H as [|? ? Hl Hf]; subst.
    destruct (beast_body_counts st Hl) as [st1 [E [N P]]].
    destruct (IH st1 Hf) as [st2 [E2 [N2 P2]]].
    exists st2. simpl. rewrite E. split; [exact E2|].
    rewrite N2, P2, N, P.
    destruct (is_patterns_line l); simpl; split; lia.
Qed.

(** C6, amended.  For every BEAST file in which every line of patterns has
    a numeral that [int] converts right after the prefix [npatterns =], at
    least one decimal digit and at most 4300 of them, [process_beast]
    returns, as partition count, the number of lines of
    patterns and, as pattern count, the sum of their values.  A line of
    patterns is a line whose text matches the pattern at the time of the
    test: the line without trailing white space, or what the data-type
    step left of a line that matched the data-type pattern. *)
Theorem process_beast_accumulates fin :
  Forall numeral_present fin ->
  exists err dt codon,
    process_beast fin
    = Return (err, dt, codon,
              Z.of_nat (length (filter is_patterns_line fin)),
              Z_sum (map patterns_value (filter is_patterns_line fin))).
Proof.
  intros H. destruct (beast_loop_counts beast_init H) as [st [E [N P]]].
  unfold process_beast. rewrite E. simpl.
  rewrite N, P. simpl. eauto.
Qed.

Lemma filter_none {A} (f : A -> bool) xs :
  Forall (fun x => f x = false) xs -> filter f xs = [].
Proof.
  induction 1 as [|x xs Hx _ IH]; simpl; [reflexivity|].
  now rewrite Hx.
Qed.

Lemma not_patterns_numeral_present xs :
  Forall (fun l => is_patterns_line l = false) xs ->
  Forall numeral_present xs.
Proof.
  apply Forall_impl. unfold numeral_present. intros l H E.
  rewrite H in E. discriminate.
Qed.

(** The example of the specification: two lines of patterns with the values
    10 and 15 give 2 partitions and 25 patterns, whatever the other lines
    are. *)
Lemma process_beast_two_patterns_lines a b c l10 l15 :
  Forall (fun l => is_patterns_line l = false) (a ++ b ++ c) ->
  is_patterns_line l10 = true -> patterns_numeral l10 = txt "10" ->
  is_patterns_line l15 = true -> patterns_numeral l15 = txt "15" ->
  exists err dt codon,
    process_beast (a ++ l10 :: b ++ l15 :: c)
    = Return (err, dt, codon, 2%Z, 25%Z).
Proof.
  intros H H10 N10 H15 N15.
  apply Forall_app in H as [Ha H]. apply Forall_app in H as [Hb Hc].
  assert (F : filter is_patterns_line (a ++ l10 :: b ++ l15 :: c)
              = [l10; l15]).
  { rewrite filter_app. simpl. rewrite H10, filter_app. simpl.
    rewrite H15, !filter_none by assumption. reflexivity. }
  assert (P : Forall numeral_present (a ++ l10 :: b ++ l15 :: c)).
  { apply Forall_app. split; [now apply not_patterns_numeral_present|].
    constructor; [intros _; rewrite N10; reflexivity|].
    apply Forall_app. split; [now apply not_patterns_numeral_present|].
    constructor; [intros _; rewrite N15; reflexivity|].
    now apply not_patterns_numeral_present. }
  destruct (beast_loop_counts beast_init P) as [st [E [N Q]]].
  unfold process_beast. rewrite E. simpl.
  rewrite N, Q, F. unfold patterns_value. simpl map.
  rewrite N10, N15. simpl. eauto.
Qed.

(** C6, the claim as worded fails: a line that matches both the data-type
    pattern and [npatterns=10] is cut down to the data type before the
    test for patterns, and adds nothing to either count. *)
Lemma process_beast_data_type_line_not_counted :
  process_beast beast_same_line
  = Return (1%Z, txt "nucleotide", false, 0%Z, 0%Z)
  /\ filter raw_patterns_line beast_same_line <> [].
Proof. split; [vm_compute; reflexivity|vm_compute; discriminate]. Qed.

(** Without a digit after the prefix, [int] of the empty text raises. *)
Lemma process_beast_no_numeral :
  process_beast [ln "<!-- npatterns= -->"] = Raise ValueError.
Proof. vm_compute. reflexivity. Qed.

Lemma process_beast_accumulates_witness :
  exists err dt codon,
    process_beast beast_fixture = Return (err, dt, codon, 2%Z, 25%Z).
Proof.
  apply (@process_beast_accumulates beast_fixture).
  repeat constructor; unfold numeral_present; vm_compute; intros H;
    first [discriminate H | reflexivity].
Defined.

(** ** Ranking: one file *)

Lemma line_body_first_miss st line :
  first_file st = true -> has_garliscore line = false ->
  line_body st line
  = Return (Next (set_counters st (lines_until_score st + 1) (line_num st))).
Proof.
  intros F H. unfold line_body. unfold has_garliscore in H.
  now rewrite F, H.
Qed.

Lemma line_body_first_hit st line :
  first_file st = true -> has_garliscore line = true ->
  line_body st line
  = (sc <- collect_score regex_score (py_rstrip line) ;;
     Return (Break (set_score st sc false))).
Proof.
  intros F H. unfold line_body. unfold has_garliscore in H.
  now rewrite F, H.
Qed.

(** The first file, up to the line of the score. *)
Lemma scan_first_none fin : forall st,
  first_file st = true ->
  Forall (fun l => has_garliscore l = false) fin ->
  for_each line_body st fin
  = Return (set_counters st (lines_until_score st + length fin)
              (line_num st)).
Proof.
  induction fin as [|l fin IH]; intros st F H.
  - simpl. rewrite Nat.add_0_r. destruct st; reflexivity.
  - inversion H as [|? ? Hl Hf]; subst. simpl.
    rewrite line_body_first_miss by assumption.
    rewrite IH by assumption. simpl. f_equal.
    unfold set_counters. simpl. f_equal. lia.
Qed.

Lemma scan_first_found before : forall st line after,
  first_file st = true ->
  Forall (fun l => has_garliscore l = false) before ->
  has_garliscore line = true ->
  for_each line_body st (before ++ line :: after)
  = (sc <- collect_score regex_score (py_rstrip line) ;;
     Return (set_score
               (set_counters st (lines_until_score st + length before)
                  (line_num st)) sc false)).
Proof.
  induction before as [|l before IH]; intros st line after F H Hl.
  - simpl. rewrite line_body_first_hit by assumption.
    rewrite Nat.add_0_r.
    destruct (collect_score regex_score (py_rstrip line)); simpl;
      [|reflexivity].
    destruct st; reflexivity.
  - inversion H as [|? ? Hm Hf]; subst. simpl.
    rewrite line_body_first_miss by assumption.
    rewrite IH by assumption. simpl.
    destruct (collect_score regex_score (py_rstrip line)); simpl;
      [|reflexivity].
    unfold set_score, set_counters. simpl. do 2 f_equal. lia.
Qed.


(** A later file: the line at the offset is the only one looked at. *)
Lemma scan_later_found before : forall st line after,
  first_file st = false ->
  line_num st + length before = lines_until_score st ->
  for_each line_body st (before ++ line :: after)
  = (sc <- collect_score regex_score (py_rstrip line) ;;
     Return (set_score
               (set_counters st (lines_until_score st)
                  (lines_until_score st)) sc false)).
Proof.
  induction before as [|l before IH]; intros st line after F H.
  - simpl in *. unfold line_body. rewrite F.
    rewrite Nat.add_0_r in H. rewrite H, Nat.eqb_refl.
    destruct (collect_score regex_score (py_rstrip line)); simpl;
      [|reflexivity].
    unfold set_score, set_counters. simpl. rewrite ?H. reflexivity.
  - simpl in *. unfold line_body at 1. rewrite F.
    destruct (Nat.eqb_spec (line_num st) (lines_until_score st)); [lia|].
    rewrite IH; simpl; [|assumption|lia]. reflexivity.
Qed.

Lemma line_body_books st line st' :
  line_body st line = Return (Next st')
  \/ line_body st line = Return (Break st') ->
  same_books st st'.
Proof.
  unfold line_body.
  destruct (first_file st).
  - destruct (0 <=? py_find (py_rstrip line) (txt "GarliScore"))%Z.
    + destruct (collect_score regex_score (py_rstrip line)); simpl;
        intros [E|E]; inversion E; subst; repeat split.
    + intros [E|E]; inversion E; subst; repeat split.
  - destruct (line_num st =? lines_until_score st).
    + destruct (collect_score regex_score (py_rstrip line)); simpl;
        intros [E|E]; inversion E; subst; repeat split.
    + intros [E|E]; inversion E; subst; repeat split.
Qed.

Lemma scan_file_books st fin st' :
  scan_file st fin = Return st' -> same_books st st'.
Proof.
  unfold scan_file. intros H.
  apply (for_each_invariant (fun s => same_books st s)) in H; auto.
  - intros s x s' _ [A [B C]] E.
    destruct (line_body_books _ _ E) as [A' [B' C']].
    repeat split; congruence.
  - repeat split.
Qed.

(** C2.  When no line of the first file contains [GarliScore], the scan
    ends with the offset equal to the number of lines of the file and with
    [score] still unbound, and the test of the score that follows raises
    NameError: the file is not given the score 0, and no problem list is
    reported. *)
Theorem first_file_without_score fin name rest :
  Forall (fun l => has_garliscore l = false) fin ->
  scan_file rank_init fin = Return (set_counters rank_init (length fin) 0)
  /\ rank_files ((name, fin) :: rest) = Raise NameError.
Proof.
  intros H.
  assert (E : scan_file rank_init fin
              = Return (set_counters rank_init (length fin) 0)).
  { unfold scan_file. rewrite scan_first_none by (auto; reflexivity).
    reflexivity. }
  split; [exact E|].
  unfold rank_files, main_loop. simpl. unfold file_body. simpl.
  rewrite E. reflexivity.
Qed.

Lemma first_file_without_score_witness :
  scan_file rank_init no_score_file
  = Return (set_counters rank_init 3 0)
  /\ rank_files [(txt "run1.best.tre", no_score_file);
                 (txt "run2.best.tre", best_tre [] "-7.8" [])]
     = Raise NameError.
Proof.
  apply (@first_file_without_score no_score_file (txt "run1.best.tre")
           [(txt "run2.best.tre", best_tre [] "-7.8" [])]).
  repeat constructor.
Defined.

(** ** Ranking: the loop over the files *)

Lemma file_body_inv st f r :
  file_body st f = Return r ->
  exists st1 sc st2,
    scan_file st (snd f) = Return st1
    /\ score st1 = Some sc
    /\ classify st1 (fst f) = Return st2
    /\ r = Next st2.
Proof.
  unfold file_body, bind.
  destruct (scan_file st (snd f)) as [st1|e] eqn:E; [|discriminate].
  destruct (classify st1 (fst f)) as [st2|e] eqn:C; [|discriminate].
  intros H; inversion H; subst.
  unfold classify in C. destruct (score st1) as [sc|] eqn:S; [|discriminate].
  exists st1, sc, st2. rewrite <- S. repeat split; try assumption.
  unfold classify. now rewrite S.
Qed.

Lemma classify_classified st name sc :
  score st = Some sc ->
  exists st',
    classify st name = Return st'
    /\ score st' = Some sc
    /\ first_file st' = first_file st
    /\ lines_until_score st' = lines_until_score st
    /\ classified sc name st st'.
Proof.
  intros S. unfold classify, classified, is_zero. rewrite S.
  destruct (float_eqb sc (FFin 0)); eexists; (split; [reflexivity|]);
    simpl; repeat split; assumption.
Qed.




(** ** Floats *)

Lemma float_eqb_eq x y : float_eqb x y = true <-> x = y.
Proof.
  destruct x as [a|s], y as [b|t]; simpl; split; intros H;
    try discriminate; try (inversion H; subst).
  - apply Z.eqb_eq in H. now subst.
  - apply Z.eqb_refl.
  - apply Bool.eqb_prop in H. now subst.
  - apply Bool.eqb_reflx.
Qed.

Lemma float_eqb_refl x : float_eqb x x = true.
Proof. now apply float_eqb_eq. Qed.

Lemma float_eqb_sym x y : float_eqb x y = float_eqb y x.
Proof.
  destruct (float_eqb x y) eqn:E.
  - apply float_eqb_eq in E. subst. symmetry. apply float_eqb_refl.
  - destruct (float_eqb y x) eqn:E'; [|reflexivity].
    apply float_eqb_eq in E'. subst. now rewrite float_eqb_refl in E.
Qed.

Lemma float_ltb_trans x y z :
  float_ltb x y = true -> float_ltb y z = true -> float_ltb x z = true.
Proof.
  destruct x as [a|[|]], y as [b|[|]], z as [c|[|]]; simpl;
    try discriminate; try reflexivity.
  rewrite !Z.ltb_lt. lia.
Qed.

Lemma float_ltb_total x y :
  float_ltb x y = false -> x <> y -> float_ltb y x = true.
Proof.
  destruct x as [a|[|]], y as [b|[|]]; simpl;
    try discriminate; try reflexivity; try congruence.
  rewrite Z.ltb_ge, Z.ltb_lt. intros H N.
  assert (a <> b) by congruence. lia.
Qed.

(** ** Sorting *)

Lemma insert_desc_perm x l : Permutation (insert_desc x l) (x :: l).
Proof.
  induction l as [|y l IH]; simpl; [reflexivity|].
  destruct (float_ltb x y); [|reflexivity].
  rewrite IH. apply perm_swap.
Qed.

Lemma sorted_desc_perm l : Permutation (sorted_desc l) l.
Proof.
  induction l as [|x l IH]; simpl; [reflexivity|].
  rewrite insert_desc_perm. now constructor.
Qed.

Lemma insert_desc_sorted x l :
  StronglySorted descending l -> ~ In x l ->
  StronglySorted descending (insert_desc x l).
Proof.
  induction l as [|y l IH]; intros S N; simpl.
  - repeat constructor.
  - inversion S as [|? ? S' F]; subst.
    destruct (float_ltb x y) eqn:L.
    + constructor.
      * apply IH; [assumption|]. intros I; apply N; now right.
      * rewrite Forall_forall in *. intros z Hz.
        apply (Permutation_in _ (insert_desc_perm x l)) in Hz.
        destruct Hz as [<-|Hz]; [exact L|now apply F].
    + assert (G : float_ltb y x = true).
      { apply float_ltb_total; [assumption|].
        intros ->. apply N. now left. }
      constructor; [assumption|].
      constructor; [exact G|].
      rewrite Forall_forall in *. intros z Hz.
      unfold descending. eapply float_ltb_trans; [|exact G].
      now apply F.
Qed.

(** [sorted(..., reverse = True)] of distinct keys is strictly descending. *)
Lemma sorted_desc_sorted l :
  NoDup l -> StronglySorted descending (sorted_desc l).
Proof.
  induction 1 as [|x l N _ IH]; simpl; [constructor|].
  apply insert_desc_sorted; [assumption|].
  intros I. apply N.
  now apply (Permutation_in _ (sorted_desc_perm l)).
Qed.

(** ** The dictionary *)

Lemma dict_set_keys d k v :
  dict_keys (dict_set d k v)
  = if existsb (float_eqb k) (dict_keys d) then dict_keys d
    else dict_keys d ++ [k].
Proof.
  induction d as [|[k' v'] d IH]; simpl; [reflexivity|].
  rewrite (float_eqb_sym k k').
  destruct (float_eqb k' k); simpl; [reflexivity|].
  rewrite IH. destruct (existsb (float_eqb k) (dict_keys d)); reflexivity.
Qed.

Lemma dict_set_nodup d k v :
  NoDup (dict_keys d) -> NoDup (dict_keys (dict_set d k v)).
Proof.
  intros N. rewrite dict_set_keys.
  destruct (existsb (float_eqb k) (dict_keys d)) eqn:E; [assumption|].
  apply NoDup_app; repeat split; auto.
  - constructor; [intros []|constructor].
  - intros x I [<-|[]].
    assert (T : existsb (float_eqb k) (dict_keys d) = true).
    { apply existsb_exists. exists k. split; [assumption|].
      apply float_eqb_refl. }
    congruence.
Qed.

Lemma dict_get_in d k v :
  NoDup (dict_keys d) -> In (k, v) d -> dict_get d k = Return v.
Proof.
  induction d as [|[k' v'] d IH]; intros N I; [contradiction|].
  simpl in *. inversion N as [|? ? Nk Nd]; subst.
  destruct I as [E|I].
  - inversion E; subst. now rewrite float_eqb_refl.
  - destruct (float_eqb k' k) eqn:Q.
    + apply float_eqb_eq in Q. subst. exfalso. apply Nk.
      change k with (fst (k, v)). now apply in_map.
    + now apply IH.
Qed.

Lemma write_scores_entries d es :
  NoDup (dict_keys d) -> (forall e, In e es -> In e d) ->
  write_scores d (map fst es) = Return (map entry_line es).
Proof.
  intros N. induction es as [|[k v] es IH]; intros H; [reflexivity|].
  simpl. rewrite (@dict_get_in d k v) by (auto; apply H; now left).
  simpl. rewrite IH by (intros e I; apply H; now right). reflexivity.
Qed.

(** The written file: the header, then the entries of the dictionary, one
    line each, highest score first. *)
Lemma make_out_file_sorted d :
  NoDup (dict_keys d) ->
  exists lines,
    make_out_file d = Return (WHeader :: lines)
    /\ Permutation lines (map entry_line d)
    /\ StronglySorted higher lines.
Proof.
  intros N.
  destruct (Permutation_map_inv fst d (sorted_desc_perm (dict_keys d)))
    as [es [E P]].
  exists (map entry_line es). unfold make_out_file.
  rewrite E, write_scores_entries; auto.
  - split; [reflexivity|]. split.
    + apply Permutation_map. now symmetry.
    + assert (S := sorted_desc_sorted N). rewrite E in S.
      clear -S. induction es as [|[k v] es IH]; [constructor|].
      simpl in *. inversion S as [|? ? S' F]; subst.
      constructor; [now apply IH|].
      rewrite Forall_forall in *. intros w Hw.
      apply in_map_iff in Hw as [[k' v'] [<- I]].
      unfold higher. simpl. apply F.
      change k' with (fst (k', v')). now apply in_map.
  - intros e I. apply (Permutation_in _ (Permutation_sym P)). exact I.
Qed.

(** ** Ranking: the report *)

Lemma file_body_books st f st' :
  file_body st f = Return (Next st') ->
  exists sc st1,
    scan_file st (snd f) = Return st1
    /\ score st1 = Some sc
    /\ classified sc (fst f) st st'.
Proof.
  intros H. apply file_body_inv in H as [st1 [sc [st2 [E [S [C R]]]]]].
  inversion R; subst st2.
  destruct (@classify_classified st1 (fst f) sc S) as [st'' [C' [_ [_ [_ K]]]]].
  rewrite C in C'. inversion C'; subst st''.
  destruct (scan_file_books _ _ E) as [A [B D]].
  exists sc, st1. repeat split; try assumption.
  unfold classified in *. destruct (is_zero sc);
    destruct K as [K1 [K2 K3]]; repeat split; congruence.
Qed.

Lemma file_body_next st f r :
  file_body st f = Return r -> exists st', r = Next st'.
Proof.
  intros H. apply file_body_inv in H as [_ [_ [st2 [_ [_ [_ R]]]]]]. eauto.
Qed.

(** The keys of the dictionary stay distinct. *)
Lemma main_loop_nodup files st :
  main_loop files = Return st -> NoDup (dict_keys (score_dict st)).
Proof.
  unfold main_loop. intros H.
  refine (@for_each_invariant _ _
            (fun s => NoDup (dict_keys (score_dict s)))
            file_body files _ rank_init st _ H).
  - intros s f s' _ N [E|E].
    + apply file_body_books in E as [sc [st1 [_ [_ K]]]].
      unfold classified in K. destruct (is_zero sc);
        destruct K as [_ [_ ->]]; [assumption|now apply dict_set_nodup].
    + apply file_body_next in E as [? E]. discriminate.
  - constructor.
Qed.

(** The error flag is set exactly when a file was classified with a score
    equal to 0. *)
Lemma error_code_zero_seen files : forall s0 st,
  for_each file_body s0 files = Return st ->
  (error_code st = 1%Z <-> error_code s0 = 1%Z \/ zero_score_seen s0 files).
Proof.
  induction files as [|f fs IH]; intros s0 st H; simpl in H.
  - inversion H; subst. split; [now left|].
    intros [E|Z]; [assumption|inversion Z].
  - destruct (file_body s0 f) as [[s1|s1]|e] eqn:E; try discriminate.
    2:{ apply file_body_next in E as [? E]. discriminate. }
    destruct (file_body_books _ _ E) as [sc [st1 [Sc [S K]]]].
    rewrite (IH s1 st H). unfold classified in K.
    destruct (is_zero sc) eqn:Zr; destruct K as [K1 [_ _]].
    + split; [intros _|intros _; now left].
      right. eapply zero_here; eauto.
    + rewrite K1. split.
      * intros [A|A]; [now left|]. right. eapply zero_later; eauto.
      * intros [A|A]; [now left|].
        inversion A as [? ? ? st1' sc' Sc' S' Z'|? ? ? st2 E' Z']; subst.
        -- rewrite Sc in Sc'. inversion Sc'; subst st1'.
           rewrite S in S'. inversion S'; subst sc'. congruence.
        -- rewrite E in E'. inversion E'; subst st2. now right.
Qed.

(** C9, amended.  For every run of the ranking tool whose loop over the
    files ends without an exception: if some file was classified with a
    score equal to 0, no file is written and the list of problem files is
    reported; otherwise
    [garli_scores.txt] is written with the header and then exactly the
    entries of the dictionary, one line of score and file name each, in
    strictly descending order of score. *)
Theorem rank_files_report files st :
  main_loop files = Return st ->
  (zero_score_seen rank_init files ->
     rank_files files = Return (ProblemFiles (problem_files st)))
  /\ (~ zero_score_seen rank_init files ->
        exists lines,
          rank_files files = Return (ScoresFile (WHeader :: lines))
          /\ Permutation lines (map entry_line (score_dict st))
          /\ StronglySorted higher lines).
Proof.
  intros H. unfold rank_files. rewrite H. simpl. unfold finish.
  assert (Z := @error_code_zero_seen files rank_init st H).
  split.
  - intros S. destruct Z as [_ Z]. rewrite Z by now right. reflexivity.
  - intros S.
    destruct (Z.eqb_spec (error_code st) 1) as [E|_].
    + apply Z in E as [E|E]; [discriminate|contradiction].
    + destruct (@make_out_file_sorted (score_dict st)
                  (@main_loop_nodup files st H))
        as [lines [M [P Q]]].
      exists lines. rewrite M. repeat split; assumption.
Qed.

Lemma rank_files_report_witness :
  (zero_score_seen rank_init ranked_fixture ->
     rank_files ranked_fixture
     = Return (ProblemFiles (problem_files ranked_state)))
  /\ (~ zero_score_seen rank_init ranked_fixture ->
        exists lines,
          rank_files ranked_fixture = Return (ScoresFile (WHeader :: lines))
          /\ Permutation lines (map entry_line (score_dict ranked_state))
          /\ StronglySorted higher lines).
Proof.
  apply (@rank_files_report ranked_fixture ranked_state).
  vm_compute. reflexivity.
Defined.

(** C9, the claim as worded fails: the first file has the score [-0.0],
    which is equal to 0, but the second carries [?12.3], which the pattern
    captures and [float] rejects: the run ends with ValueError, and the
    list of problem files is not reported. *)
Lemma rank_files_zero_score_then_error :
  zero_score_seen rank_init zero_then_question
  /\ rank_files zero_then_question = Raise ValueError.
Proof.
  split; [|vm_compute; reflexivity].
  eapply zero_here;
    [vm_compute; reflexivity|reflexivity|vm_compute; reflexivity].
Qed.

(** Three files with the scores -12.3, -45.6 and -7.8 are ranked with the
    highest score first. *)
Lemma rank_files_ranked_fixture :
  rank_files ranked_fixture
  = Return (ScoresFile
              [WHeader;
               WScore (float_of "-7.8") (txt "run3.best.tre");
               WScore (float_of "-12.3") (txt "run1.best.tre");
               WScore (float_of "-45.6") (txt "run2.best.tre")]).
Proof. vm_compute. reflexivity. Qed.

(** ** Ranking: the three files of the example *)

Lemma fixture_line_has_score i :
  has_garliscore (score_line (fixture_score i)) = true.
Proof. destruct i; vm_compute; reflexivity. Qed.

(** The pattern asks for a minus sign or a question mark before the
    digits: of the three lines only the one with -7.8 matches. *)
Lemma fixture_collect_score i :
  collect_score regex_score (py_rstrip (score_line (fixture_score i)))
  = Return (if fixture_matches i then float_of "-7.8" else FFin 0).
Proof. destruct i; vm_compute; reflexivity. Qed.

Lemma fixture_score_zero i :
  is_zero (if fixture_matches i then float_of "-7.8" else FFin 0)
  = is_problem i.
Proof. destruct i; vm_compute; reflexivity. Qed.

Lemma fixture_later before after i st :
  first_file st = false ->
  length (before i) = lines_until_score st ->
  exists st',
    file_body st (fixture_file before after i) = Return (Next st')
    /\ first_file st' = false
    /\ lines_until_score st' = lines_until_score st
    /\ error_code st' = (if is_problem i then 1%Z else error_code st)
    /\ problem_files st'
       = problem_files st ++ (if is_problem i then [fixture_name i] else []).
Proof.
  intros F L. unfold file_body, fixture_file, best_tre, scan_file. simpl.
  rewrite scan_later_found by (simpl; auto).
  rewrite fixture_collect_score. simpl.
  unfold classify. simpl.
  change (float_eqb ?x (FFin 0)) with (is_zero x).
  rewrite fixture_score_zero.
  destruct (is_problem i); simpl; eexists; split; try reflexivity; simpl;
    repeat split; auto using app_nil_r.
Qed.

Lemma fixture_first before after i :
  Forall (fun l => has_garliscore l = false) (before i) ->
  exists st',
    file_body rank_init (fixture_file before after i) = Return (Next st')
    /\ first_file st' = false
    /\ lines_until_score st' = length (before i)
    /\ error_code st' = (if is_problem i then 1%Z else 0%Z)
    /\ problem_files st' = (if is_problem i then [fixture_name i] else []).
Proof.
  intros H. unfold file_body, fixture_file, best_tre, scan_file. simpl.
  rewrite scan_first_found
    by (try reflexivity; auto using fixture_line_has_score).
  rewrite fixture_collect_score. simpl.
  unfold classify. simpl.
  change (float_eqb ?x (FFin 0)) with (is_zero x).
  rewrite fixture_score_zero.
  destruct (is_problem i); simpl; eexists; split; try reflexivity; simpl;
    repeat split; auto.
Qed.

Lemma fixtures_later before after order : forall st,
  first_file st = false ->
  (forall i, length (before i) = lines_until_score st) ->
  exists st',
    for_each file_body st (map (fixture_file before after) order)
    = Return st'
    /\ error_code st'
       = (if existsb is_problem order then 1%Z else error_code st)
    /\ problem_files st'
       = problem_files st ++ map fixture_name (filter is_problem order).
Proof.
  induction order as [|i order IH]; intros st F L.
  - exists st. simpl. rewrite app_nil_r. auto.
  - destruct (@fixture_later before after i st F (L i))
      as [s1 [E [F1 [U1 [E1 P1]]]]].
    destruct (IH s1 F1) as [s2 [E2 [C2 P2]]].
    { intros j. rewrite U1. apply L. }
    exists s2. simpl. rewrite E. split; [exact E2|].
    rewrite C2, P2, E1, P1.
    destruct (is_problem i); simpl.
    + split; [now destruct (existsb is_problem order)|].
      now rewrite <- app_assoc.
    + now rewrite app_nil_r.
Qed.

Lemma fixtures_run before after n i order :
  (forall j, length (before j) = n) ->
  (forall j, Forall (fun l => has_garliscore l = false) (before j)) ->
  exists st,
    main_loop (map (fixture_file before after) (i :: order)) = Return st
    /\ error_code st
       = (if existsb is_problem (i :: order) then 1%Z else 0%Z)
    /\ problem_files st
       = map fixture_name (filter is_problem (i :: order)).
Proof.
  intros L H.
  destruct (@fixture_first before after i (H i))
    as [s1 [E [F1 [U1 [E1 P1]]]]].
  destruct (@fixtures_later before after order s1 F1) as [s2 [E2 [C2 P2]]].
  { intros j. rewrite U1, !L. reflexivity. }
  exists s2. unfold main_loop. simpl. rewrite E. split; [exact E2|].
  rewrite C2, P2, E1, P1.
  destruct (is_problem i); simpl; split; auto.
  now destruct (existsb is_problem order).
Qed.

(** C3, amended.  For three best-tree files whose line of the score sits
    at the same offset and carries 12.3, 45.6 and -7.8, processed in any
    order: the pattern matches the line with -7.8 only, the files with 12.3
    and 45.6 extract as 0 and are reported as the problem files, in the
    order they were processed, and no output file is written. *)
Theorem rank_three_fixtures before after n order :
  Permutation order [F12_3; F45_6; Fm7_8] ->
  (forall i, length (before i) = n) ->
  (forall i, Forall (fun l => has_garliscore l = false) (before i)) ->
  rank_files (map (fixture_file before after) order)
  = Return (ProblemFiles
              (map fixture_name
                 (filter (fun i => negb (fixture_matches i)) order))).
Proof.
  intros P L H.
  assert (I : In F12_3 order).
  { apply (Permutation_in _ (Permutation_sym P)). now left. }
  destruct order as [|i order]; [contradiction|].
  destruct (@fixtures_run before after n i order L H) as [st [E [C Pf]]].
  unfold rank_files. rewrite E. simpl. unfold finish.
  assert (X : existsb is_problem (i :: order) = true).
  { apply existsb_exists. exists F12_3. split; [assumption|reflexivity]. }
  rewrite X in C. rewrite C. simpl. rewrite Pf. reflexivity.
Qed.

Lemma rank_three_fixtures_witness :
  rank_files three_fixtures
  = Return (ProblemFiles [fixture_name F12_3; fixture_name F45_6]).
Proof.
  apply (@rank_three_fixtures (fun _ => [ln "#NEXUS"; ln "begin trees;"])
           (fun _ => [ln "end;"]) 2 [F12_3; F45_6; Fm7_8]).
  - reflexivity.
  - reflexivity.
  - intros _. repeat constructor.
Defined.

(** C3, the claim as worded fails: on the three files no output file is
    written at all, in particular not one that lists the files by
    descending score. *)
Lemma rank_three_fixtures_no_output :
  rank_files three_fixtures
  = Return (ProblemFiles [fixture_name F12_3; fixture_name F45_6])
  /\ rank_files three_fixtures <> Return (ScoresFile claimed_ranking).
Proof. split; [vm_compute; reflexivity|vm_compute; discriminate]. Qed.

(** ** Matching: whether a pattern is found *)

Lemma star_greedy_some {A B} k s (c1 : text -> option A)
  (c2 : text -> option B) :
  (forall t, is_some (c1 t) = is_some (c2 t)) ->
  is_some (star_greedy k s c1) = is_some (star_greedy k s c2).
Proof.
  intros H. induction s as [|c s IH]; simpl; [apply H|].
  destruct (class_mem k c); [|apply H].
  destruct (star_greedy k s c1), (star_greedy k s c2); simpl in *;
    try discriminate; auto.
Qed.

(** Whether a pattern matches depends on the continuation only through
    where the continuation succeeds. *)
Lemma run_some {A B} whole r : forall s caps caps'
  (c1 : text -> list text -> option A) (c2 : text -> list text -> option B),
  (forall t g g', is_some (c1 t g) = is_some (c2 t g')) ->
  is_some (run whole r s caps c1) = is_some (run whole r s caps' c2).
Proof.
  induction r as [l|k|k|k|r1 IH1 r2 IH2|r1 IH1 r2 IH2|r1 IH1|];
    intros s caps caps' c1 c2 H; cbn [run].
  - destruct (drop_prefix l s); [apply H|reflexivity].
  - destruct s as [|c s]; [reflexivity|].
    destruct (class_mem k c); [apply H|reflexivity].
  - apply star_greedy_some. intros t. apply H.
  - destruct s as [|c s]; [reflexivity|].
    destruct (class_mem k c); [|reflexivity].
    apply star_greedy_some. intros t. apply H.
  - apply IH1. intros t g g'. apply IH2, H.
  - specialize (IH1 s caps caps' c1 c2 H).
    specialize (IH2 s caps caps' c1 c2 H).
    destruct (run whole r1 s caps c1), (run whole r1 s caps' c2);
      simpl in *; try discriminate; auto.
  - apply IH1. intros t g g'. apply H.
  - destruct (length s =? whole); [apply H|reflexivity].
Qed.

Lemma found_search_from whole r s : forall before,
  found (search_from whole r before s) = found_from whole r s.
Proof.
  induction s as [|c s IH]; intros before; cbn [search_from found_from];
    destruct (match_here whole r _) as [[? ?]|]; simpl; auto.
Qed.

(** A trailing [.*] does not change whether a pattern is found. *)
Lemma match_here_trailing whole r s :
  is_some (match_here whole (RSeq r (RStar CAny)) s)
  = is_some (match_here whole r s).
Proof.
  unfold match_here. cbn [run].
  apply run_some. intros t g g'. cbn [run].
  clear. induction t as [|c t IH]; simpl; [reflexivity|].
  destruct (negb (N.eqb c newline)); [|reflexivity].
  destruct (star_greedy _ t _); reflexivity.
Qed.

Lemma found_from_ext whole r r' s :
  (forall t, is_some (match_here whole r t) = is_some (match_here whole r' t))
  -> found_from whole r s = found_from whole r' s.
Proof.
  intros H. induction s as [|c s IH]; cbn [found_from]; rewrite H;
    [reflexivity|now rewrite IH].
Qed.

Lemma star_greedy_later {A} whole r k s (cont : text -> option A) :
  (forall t, is_some (cont t) = is_some (match_here whole r t)) ->
  is_some (star_greedy k s cont) = true -> found_from whole r s = true.
Proof.
  intros H. induction s as [|c s IH]; cbn [star_greedy found_from].
  - rewrite H. now intros ->.
  - destruct (class_mem k c).
    + destruct (star_greedy k s cont) eqn:E.
      * intros _. rewrite IH by reflexivity. apply orb_true_r.
      * rewrite H. now intros ->.
    + rewrite H. now intros ->.
Qed.

Lemma star_greedy_here {A} k s (cont : text -> option A) :
  is_some (cont s) = true -> is_some (star_greedy k s cont) = true.
Proof.
  destruct s as [|c s]; simpl; [auto|].
  destruct (class_mem k c); [|auto].
  destruct (star_greedy k s cont); auto.
Qed.

(** A leading [.*] does not change whether a pattern is found. *)
Lemma found_from_leading whole r s :
  found_from whole (RSeq (RStar CAny) r) s = found_from whole r s.
Proof.
  induction s as [|c s IH]; cbn [found_from].
  - unfold match_here. cbn [run star_greedy]. now rewrite orb_false_r.
  - rewrite IH.
    destruct (is_some (match_here whole r (c :: s))) eqn:E.
    + unfold match_here at 1. cbn [run].
      rewrite star_greedy_here; [reflexivity|exact E].
    + simpl. destruct (is_some (match_here whole (RSeq (RStar CAny) r)
                                  (c :: s))) eqn:F; [|reflexivity].
      unfold match_here at 1 in F. cbn [run] in F.
      apply (@star_greedy_later _ whole r) in F; [|reflexivity].
      cbn [found_from] in F. rewrite E in F. simpl in F. now rewrite F.
Qed.

Lemma star_any_some {A} k s (a : text -> A) :
  is_some (star_greedy k s (fun s' => Some (a s'))) = true.
Proof.
  induction s as [|c s IH]; simpl; [reflexivity|].
  destruct (class_mem k c); [|reflexivity].
  destruct (star_greedy k s _); reflexivity.
Qed.

Lemma found_search r s :
  found (search r s) = found_from (length s) r s.
Proof. apply found_search_from. Qed.

Lemma run_seq {A} whole r1 r2 s caps
  (cont : text -> list text -> option A) :
  run whole (RSeq r1 r2) s caps cont
  = run whole r1 s caps (fun s' caps' => run whole r2 s' caps' cont).
Proof. reflexivity. Qed.

(** The compiled patterns of nruns and nchains, with [.*] on both sides,
    find something exactly where the patterns of the specification do. *)
Lemma nruns_found s :
  found (search cregex_nruns s) = found (search spec_nruns s).
Proof.
  rewrite !found_search. unfold cregex_nruns, spec_nruns. cbn [seq].
  rewrite found_from_leading. apply found_from_ext. intros t.
  unfold match_here.
  repeat (rewrite !run_seq; apply run_some; intros; cbv beta).
  cbn [run]. apply star_any_some.
Qed.

Lemma nchains_found s :
  found (search cregex_nchains s) = found (search spec_nchains s).
Proof.
  rewrite !found_search. unfold cregex_nchains, spec_nchains. cbn [seq].
  rewrite found_from_leading. apply found_from_ext. intros t.
  unfold match_here.
  repeat (rewrite !run_seq; apply run_some; intros; cbv beta).
  cbn [run]. apply star_any_some.
Qed.

(** The defaults are taken exactly when the patterns of the specification
    find nothing in the control line. *)
Lemma captured_or_default r r' line z :
  (forall s, found (search r s) = found (search r' s)) ->
  (captured_or r line z = PyInt z
   <-> found (search r' (py_strip line)) = false).
Proof.
  intros H. rewrite <- H. unfold captured_or.
  destruct (search r (py_strip line)); simpl; split; intros E;
    try discriminate; reflexivity.
Qed.

Lemma nruns_default line :
  captured_or cregex_nruns line 2 = PyInt 2
  <-> found (search spec_nruns (py_strip line)) = false.
Proof. apply captured_or_default, nruns_found. Qed.

Lemma nchains_default line :
  captured_or cregex_nchains line 4 = PyInt 4
  <-> found (search spec_nchains (py_strip line)) = false.
Proof. apply captured_or_default, nchains_found. Qed.

(** ** Matching: what is captured *)

Lemma star_greedy_sound {A} k s (cont : text -> option A) a :
  star_greedy k s cont = Some a ->
  exists p s', s = p ++ s' /\ forallb (class_mem k) p = true
               /\ cont s' = Some a.
Proof.
  induction s as [|c s IH]; simpl; intros H.
  - exists [], []. auto.
  - destruct (class_mem k c) eqn:C.
    + destruct (star_greedy k s cont) as [b|] eqn:E.
      * inversion H; subst b.
        destruct (IH eq_refl) as [p [s' [-> [F K]]]].
        exists (c :: p), s'. simpl. rewrite C. auto.
      * exists [], (c :: s). auto.
    + exists [], (c :: s). auto.
Qed.

(** Every answer of the matcher comes from a match handed to the
    continuation. *)
Lemma run_sound {A} whole r : forall s caps
  (cont : text -> list text -> option A) a,
  run whole r s caps cont = Some a ->
  exists s' caps', matches whole r s caps s' caps' /\ cont s' caps' = Some a.
Proof.
  induction r as [l|k|k|k|r1 IH1 r2 IH2|r1 IH1 r2 IH2|r1 IH1|];
    intros s caps cont a H; cbn [run] in H.
  - destruct (drop_prefix l s) as [s'|] eqn:E; [|discriminate].
    exists s', caps. split; [now constructor|assumption].
  - destruct s as [|c s]; [discriminate|].
    destruct (class_mem k c) eqn:C; [|discriminate].
    exists s, caps. split; [now constructor|assumption].
  - apply star_greedy_sound in H as [p [s' [-> [F K]]]].
    exists s', caps. split; [now constructor|assumption].
  - destruct s as [|c s]; [discriminate|].
    destruct (class_mem k c) eqn:C; [|discriminate].
    apply star_greedy_sound in H as [p [s' [-> [F K]]]].
    exists s', caps. split; [now constructor|assumption].
  - apply IH1 in H as [s1 [caps1 [M1 H]]].
    apply IH2 in H as [s2 [caps2 [M2 H]]].
    exists s2, caps2. split; [econstructor; eauto|assumption].
  - destruct (run whole r1 s caps cont) as [b|] eqn:E.
    + inversion H; subst b. apply IH1 in E as [s' [caps' [M K]]].
      exists s', caps'. split; [now apply m_alt_l|assumption].
    + apply IH2 in H as [s' [caps' [M K]]].
      exists s', caps'. split; [now apply m_alt_r|assumption].
  - apply IH1 in H as [s' [caps' [M K]]].
    eexists; eexists. split; [apply m_group; eassumption|assumption].
  - destruct (Nat.eqb_spec (length s) whole); [|discriminate].
    exists s, caps. split; [now constructor|assumption].
Qed.

Lemma search_from_sound whole r s : forall before m,
  search_from whole r before s = Some m ->
  exists t, matches whole r t [] (m_after m) (m_groups m).
Proof.
  induction s as [|c s IH]; intros before m H; cbn [search_from] in H;
    destruct (match_here whole r _) as [[rest caps]|] eqn:E;
    try discriminate; try (eapply IH; eassumption);
    inversion H; subst m; simpl;
    unfold match_here in E; apply run_sound in E as [s' [caps' [M K]]];
    inversion K; subst; eauto.
Qed.

Lemma firstn_prefix {A} (p s : list A) :
  firstn (length (p ++ s) - length s) (p ++ s) = p.
Proof.
  rewrite length_app, Nat.add_sub. rewrite firstn_app, Nat.sub_diag.
  simpl. rewrite app_nil_r. apply firstn_all.
Qed.

Lemma no_group_caps whole r : forall s caps s' caps',
  no_group r = true -> matches whole r s caps s' caps' -> caps' = caps.
Proof.
  induction r as [l|k|k|k|r1 IH1 r2 IH2|r1 IH1 r2 IH2|r1 IH1|];
    intros s caps s' caps' N M; inversion M; subst; try reflexivity;
    simpl in N; try discriminate;
    apply andb_prop in N as [N1 N2].
  - transitivity caps1; eauto.
  - eauto.
  - eauto.
Qed.

Lemma number_pattern_matches whole r :
  number_pattern r -> forall s caps s' caps',
  matches whole r s caps s' caps' ->
  exists d, caps' = caps ++ [d] /\ py_isdecimal d = true.
Proof.
  induction 1 as [|r0 r N P IH]; intros s caps s' caps' M.
  - inversion M; subst; clear M.
    match goal with H : matches _ (RStar _) _ _ _ _ |- _ =>
      inversion H; subst; clear H end.
    match goal with H : matches _ (RGroup _) _ _ _ _ |- _ =>
      inversion H; subst; clear H end.
    match goal with H : matches _ (RPlus _) _ _ _ _ |- _ =>
      inversion H; subst; clear H end.
    eexists; split; [reflexivity|].
    match goal with
    | |- context [firstn _ (?c :: ?p0 ++ ?rest)] =>
        change (c :: p0 ++ rest) with ((c :: p0) ++ rest)
    end.
    rewrite firstn_prefix. unfold py_isdecimal. cbn [is_nil negb forallb andb].
    match goal with
    | H1 : class_mem CDigit ?c = true,
      H3 : forallb (class_mem CDigit) _ = true |- _ =>
        cbn [class_mem] in H1; rewrite H1; exact H3
    end.
  - inversion M; subst; clear M.
    match goal with H : matches _ r0 _ _ _ _ |- _ =>
      pose proof (@no_group_caps _ _ _ _ _ _ N H); subst end.
    eauto.
Qed.

(** A pattern that captures a number captures a non-empty run of digits. *)
Lemma number_pattern_digits r s m :
  number_pattern r -> search r s = Some m -> py_isdecimal (group1 m) = true.
Proof.
  intros P H. unfold search in H.
  apply search_from_sound in H as [t M].
  apply (@number_pattern_matches _ _ P) in M as [d [E D]].
  unfold group1. rewrite E. exact D.
Qed.

Lemma nruns_number_pattern : number_pattern cregex_nruns.
Proof. repeat (apply number_step; [reflexivity|]). apply number_tail. Qed.

Lemma nchains_number_pattern : number_pattern cregex_nchains.
Proof. repeat (apply number_step; [reflexivity|]). apply number_tail. Qed.

(** The values [process_bayes] takes from the control line are non-empty
    runs of digits, or the defaults. *)
Lemma captured_or_digits r line z :
  number_pattern r ->
  captured_or r line z = PyInt z
  \/ exists d, captured_or r line z = PyStr d /\ py_isdecimal d = true.
Proof.
  intros P. unfold captured_or.
  destruct (search r (py_strip line)) as [m|] eqn:E; [right|now left].
  exists (group1 m). split; [reflexivity|].
  eapply number_pattern_digits; eassumption.
Qed.

(** ** BEAST2: the tag *)

(** The tag that starts the count is looked for without a closing bracket:
    a likelihood line with further attributes starts the count as well. *)
Lemma process_beast2_tag_with_attributes :
  process_beast2 likelihood_with_attributes = Return (0%Z, 1%Z).
Proof. vm_compute. reflexivity. Qed.

(** ** The main program: the type of the file *)

Lemma detect_body_eq t line :
  detect_body t line
  = Return (if has_signature line then Break (line_type line) else Next t).
Proof.
  unfold detect_body, has_signature, line_type.
  destruct (contains line "BEAUTi"); [reflexivity|].
  destruct (contains line "<beast" && (0 <=? py_find line version_2)%Z);
    [reflexivity|].
  destruct (contains line "Parmfile for Migrate"); [reflexivity|].
  destruct (contains line "#NEXUS"); [reflexivity|].
  destruct (contains line "[general]"); reflexivity.
Qed.

Lemma detect_loop fin : forall t,
  for_each detect_body t fin
  = Return match find has_signature fin with
           | Some line => line_type line
           | None => t
           end.
Proof.
  induction fin as [|l fin IH]; intros t; simpl; [reflexivity|].
  rewrite detect_body_eq. destruct (has_signature l); [reflexivity|apply IH].
Qed.

(** X1.  When no type is given, the type is decided by the first line
    that carries a signature, by the order of the tests on that line; the
    lines before it and all lines after it have no influence. *)
Theorem determine_type_first_signature before line after :
  Forall (fun l => has_signature l = false) before ->
  has_signature line = true ->
  determine_type Unknown (before ++ line :: after) = Return (line_type line).
Proof.
  intros H L. unfold determine_type. rewrite detect_loop.
  induction H as [|l before Hl _ IH]; simpl.
  - now rewrite L.
  - rewrite Hl. exact IH.
Qed.

Lemma determine_type_first_signature_witness :
  determine_type Unknown
    ([ln "<?xml version='1.0'?>"] ++ ln "<!-- Generated by BEAUTi v1.8 -->"
       :: [ln "#NEXUS"; ln "[general]"])
  = Return Beast.
Proof.
  apply (@determine_type_first_signature [ln "<?xml version='1.0'?>"]
           (ln "<!-- Generated by BEAUTi v1.8 -->")
           [ln "#NEXUS"; ln "[general]"]).
  - repeat constructor.
  - reflexivity.
Defined.

(** X2.  When no type is given, the type stays [unknown] exactly when no
    line of the file carries any of the five signatures. *)
Theorem determine_type_unknown_iff fin :
  determine_type Unknown fin = Return Unknown
  <-> Forall (fun l => has_signature l = false) fin.
Proof.
  unfold determine_type. rewrite detect_loop. split.
  - intros H. induction fin as [|l fin IH]; [constructor|].
    simpl in H. destruct (has_signature l) eqn:S.
    + inversion H as [E]. unfold line_type in E.
      repeat match type of E with
             | (if ?b then _ else _) = _ => destruct b
             end; discriminate.
    + constructor; [exact S|now apply IH].
  - induction 1 as [|l fin Hl _ IH]; simpl; [reflexivity|].
    now rewrite Hl.
Qed.

(** X3.  Determining the type never fails, and never finds the type
    [migrate_infile]: that type can only be given on the command line. *)
Theorem determine_type_detectable fin :
  exists t, determine_type Unknown fin = Return t /\ detectable t = true.
Proof.
  unfold determine_type. rewrite detect_loop.
  destruct (find has_signature fin) as [l|]; eexists; (split; [reflexivity|]);
    [|reflexivity].
  unfold line_type.
  repeat match goal with
         | |- context [if ?b then _ else _] => destruct b
         end; reflexivity.
Qed.

Lemma detect_none fin :
  Forall (fun l => has_signature l = false) fin ->
  find has_signature fin = None.
Proof.
  induction 1 as [|l fin Hl _ IH]; simpl; [reflexivity|]. now rewrite Hl.
Qed.

(** X4.  For a file without any signature and without a given type, the
    program writes just the two lines [file_type=unknown] and [err_code=1]
    to the standard output, each ended by a newline, whatever the file
    contains. *)
Theorem main_unknown fin :
  Forall (fun l => has_signature l = false) fin ->
  main Unknown fin = Return (ln "file_type=unknown" ++ ln "err_code=1").
Proof.
  intros H. unfold main, determine_type.
  rewrite detect_loop, detect_none by assumption. reflexivity.
Qed.

Lemma main_unknown_witness :
  main Unknown infile_without_type
  = Return (ln "file_type=unknown" ++ ln "err_code=1").
Proof.
  apply (@main_unknown infile_without_type). repeat constructor.
Defined.

(** ** The main program: the report *)

Lemma beast_err_code_flag st : beast_err_code st = 0%Z \/ beast_err_code st = 1%Z.
Proof.
  unfold beast_err_code.
  repeat match goal with
         | |- context [if ?b then _ else _] => destruct b
         end; auto.
Qed.

Lemma extractor_flag_bit t fin err :
  extractor_flag t fin = Return err -> err = 0%Z \/ err = 1%Z.
Proof.
  destruct t; simpl.
  - unfold process_beast, bind.
    destruct (for_each beast_body beast_init fin) as [st|]; [|discriminate].
    intros H; inversion H. apply beast_err_code_flag.
  - unfold process_beast2, bind.
    destruct (for_each beast2_body _ fin) as [st|]; [|discriminate].
    intros H; inversion H. destruct (b2_partitions st <=? 0)%Z; auto.
  - unfold process_migrate_parm, bind.
    destruct (for_each migrate_parm_body _ fin) as [v|]; [|discriminate].
    intros H; inversion H. destruct (negb _); auto.
  - unfold process_migrate_infile, bind.
    destruct (for_each migrate_infile_body _ fin) as [v|]; [|discriminate].
    intros H; inversion H. destruct (negb _); auto.
  - unfold process_bayes, process_bayes_io, bayes_finish, bind.
    destruct (for_each bayes_body _ fin) as [st|]; [|discriminate].
    intros H; inversion H. destruct (_ || _); auto.
  - unfold process_garli, process_garli_io, bind.
    destruct (for_each garli_body _ fin) as [st|]; [|discriminate].
    unfold garli_finish.
    repeat match goal with
           | |- context [if ?b then _ else _] => destruct b
           end; intros H; inversion H; auto.
  - intros H; inversion H; auto.
Qed.

Lemma bayes_loop_flag fin st :
  for_each bayes_body bayes_init fin = Return st ->
  bayes_printed st
  = if (fst (fst (bayes_finish st)) =? 1)%Z then print bayes_notice else [].
Proof.
  rewrite bayes_loop. intros H; inversion H; subst st; clear H.
  unfold bayes_printed, bayes_finish.
  destruct (find is_control fin) as [l|]; [|reflexivity].
  cbn [mrbayes nruns nchains negb fst]. unfold captured_or.
  destruct (search cregex_nruns (py_strip l));
    destruct (search cregex_nchains (py_strip l)); reflexivity.
Qed.

Lemma garli_printed_flag st :
  garli_printed st
  = if (fst (fst (fst (fst (garli_finish st)))) =? 1)%Z
    then print garli_notice else [].
Proof.
  unfold garli_printed, garli_finish.
  destruct (negb (have_bootreps st) || negb (have_searchreps st)
            || negb (have_availmem st)); [reflexivity|].
  destruct (py_eq (bootreps st) (PyInt 0)); reflexivity.
Qed.

Lemma report_shape t fin printed results :
  report t fin = Return (printed, results) ->
  exists err,
    extractor_flag t fin = Return err
    /\ (err = 0%Z \/ err = 1%Z)
    /\ printed = notice_of t err
    /\ head_of (report_head t (flag_char err)) results.
Proof.
  intros R. assert (B := @extractor_flag_bit t fin).
  destruct t; simpl in R, B |- *; unfold bind in R, B |- *.
  - destruct (process_beast fin) as [[[[[e dt] cd] np] pc]|]; [|discriminate].
    exists e. inversion R; subst. destruct (B e eq_refl) as [-> | ->];
      repeat split; auto; right; eexists; reflexivity.
  - destruct (process_beast2 fin) as [[e np]|]; [|discriminate].
    exists e. inversion R; subst. destruct (B e eq_refl) as [-> | ->];
      repeat split; auto; right; eexists; reflexivity.
  - destruct (process_migrate_parm fin) as [[e v]|]; [|discriminate].
    exists e. inversion R; subst. destruct (B e eq_refl) as [-> | ->];
      repeat split; auto; right; eexists; reflexivity.
  - destruct (process_migrate_infile fin) as [[e v]|]; [|discriminate].
    exists e. inversion R; subst. destruct (B e eq_refl) as [-> | ->];
      repeat split; auto; right; eexists; reflexivity.
  - unfold process_bayes, process_bayes_io, bind in *.
    destruct (for_each bayes_body bayes_init fin) as [st|] eqn:L;
      [|discriminate].
    pose proof (@bayes_loop_flag fin st L) as P.
    destruct (bayes_finish st) as [[e r] c]. cbn [fst snd] in *.
    exists e. inversion R; subst. destruct (B e eq_refl) as [-> | ->];
      repeat split; auto; right; eexists; reflexivity.
  - unfold process_garli, process_garli_io, bind in *.
    destruct (for_each garli_body garli_init fin) as [st|] eqn:L;
      [|discriminate].
    pose proof (garli_printed_flag st) as P.
    destruct (garli_finish st) as [[[[e r] b] s] a]. cbn [fst snd] in *.
    exists e. inversion R; subst. destruct (B e eq_refl) as [-> | ->];
      repeat split; auto; right; eexists; reflexivity.
  - exists 1%Z. inversion R; subst. repeat split; auto. now left.
Qed.

Lemma print_lines a b : print (a ++ newline :: b) = print a ++ print b.
Proof. unfold print. now rewrite <- !app_assoc. Qed.

(** X5.  Whenever the program completes, what it has written to the
    standard output is: the notice of the extractor, when the type is
    [garli] or [bayes] and the error flag is 1; then the line [file_type=]
    with the name of the determined type; then the line [err_code=] with
    the error flag of the extractor of that type, which is 0 or 1; then the
    other lines of the report.  Every line ends with a newline. *)
Theorem main_report_head t fin out :
  main t fin = Return out ->
  exists t' err rest,
    determine_type t fin = Return t'
    /\ extractor_flag t' fin = Return err
    /\ (err = 0%Z \/ err = 1%Z)
    /\ out = notice_of t' err ++ print (report_head t' (flag_char err))
              ++ rest
    /\ (rest = [] \/ exists more, rest = print more).
Proof.
  unfold main, bind.
  destruct (determine_type t fin) as [t'|] eqn:D; [|discriminate].
  destruct (report t' fin) as [[printed results]|] eqn:R; [|discriminate].
  intros H; inversion H; subst out; clear H.
  destruct (@report_shape t' fin printed results R)
    as [err [F [B [-> [->|[more ->]]]]]].
  - exists t', err, []. rewrite app_nil_r. repeat split; auto.
  - exists t', err, (print more). rewrite print_lines.
    repeat split; eauto.
Qed.

Lemma main_report_head_witness :
  exists t' err rest,
    determine_type Unknown nexus_file = Return t'
    /\ extractor_flag t' nexus_file = Return err
    /\ (err = 0%Z \/ err = 1%Z)
    /\ ln "file_type=bayes" ++ ln "err_code=0" ++ ln "nruns=3"
       ++ ln "nchains=4"
       = notice_of t' err ++ print (report_head t' (flag_char err)) ++ rest
    /\ (rest = [] \/ exists more, rest = print more).
Proof.
  apply (@main_report_head Unknown nexus_file). vm_compute. reflexivity.
Defined.

(** ** BEAST: when it raises *)

Lemma beast_body_missing st line :
  missing_numeral line = true -> beast_body st line = Raise ValueError.
Proof.
  unfold missing_numeral, is_patterns_line, patterns_numeral, beast_body.
  intros H. apply andb_prop in H as [P N].
  destruct (beast_datatype st (py_rstrip line)) as [st1 l1] eqn:E.
  assert (El : l1 = patterns_text line).
  { unfold patterns_text. rewrite <- (beast_datatype_text st), E.
    reflexivity. }
  rewrite <- El in *. unfold beast_patterns. rewrite P.
  rewrite py_int_numeral. apply negb_true_iff in N. now rewrite N.
Qed.

Lemma missing_numeral_present line :
  missing_numeral line = false -> numeral_present line.
Proof.
  unfold missing_numeral, numeral_present. intros H P. rewrite P in H.
  cbn [andb] in H. now apply negb_false_iff in H.
Qed.

Lemma beast_loop_missing fin : forall st,
  existsb missing_numeral fin = true ->
  for_each beast_body st fin = Raise ValueError.
Proof.
  induction fin as [|l fin IH]; intros st H; [discriminate|].
  simpl in H. simpl.
  destruct (missing_numeral l) eqn:M.
  - now rewrite beast_body_missing.
  - destruct (@beast_body_counts st l (missing_numeral_present l M))
      as [st1 [E _]].
    rewrite E. now apply IH.
Qed.

Lemma no_missing_present fin :
  existsb missing_numeral fin = false -> Forall numeral_present fin.
Proof.
  induction fin as [|l fin IH]; intros H; [constructor|].
  simpl in H. apply orb_false_elim in H as [M H].
  constructor; [now apply missing_numeral_present|now apply IH].
Qed.

(** X6.  [process_beast] raises exactly when some line of patterns has,
    right after the prefix [npatterns =], no decimal digit at all or more
    than 4300 of them, and the exception is then ValueError; on every other
    file it returns. *)
Theorem process_beast_raises fin e :
  process_beast fin = Raise e
  <-> e = ValueError /\ existsb missing_numeral fin = true.
Proof.
  split.
  - intros H. destruct (existsb missing_numeral fin) eqn:X.
    + unfold process_beast in H. rewrite beast_loop_missing in H by exact X.
      inversion H. auto.
    + destruct (@beast_loop_counts fin beast_init (no_missing_present fin X))
        as [st [E _]].
      unfold process_beast in H. rewrite E in H. discriminate.
  - intros [-> X]. unfold process_beast.
    now rewrite beast_loop_missing.
Qed.

(** ** BEAST: the data type *)

Lemma beast_datatype_datatype st line :
  datatype (fst (beast_datatype st (py_rstrip line)))
  = if is_datatype_line line then datatype_token line else datatype st.
Proof.
  unfold datatype_token, is_datatype_line, beast_datatype.
  destruct (found (search regex_datatype (py_rstrip line))); reflexivity.
Qed.

Lemma beast_body_datatype st line st' :
  beast_body st line = Return (Next st') ->
  datatype st'
  = if is_datatype_line line then datatype_token line else datatype st.
Proof.
  unfold beast_body. rewrite <- beast_datatype_datatype.
  destruct (beast_datatype st (py_rstrip line)) as [st1 l1].
  unfold beast_patterns, beast_codon, bind. simpl.
  destruct (found (search regex_patterns l1)).
  - destruct (py_int (patterns_digits l1)); [|discriminate].
    intros H; inversion H; subst.
    destruct (found (search regex_codon _)); reflexivity.
  - intros H; inversion H; subst.
    destruct (found (search regex_codon _)); reflexivity.
Qed.

Lemma beast_body_next st line r :
  beast_body st line = Return r -> exists st', r = Next st'.
Proof.
  unfold beast_body.
  destruct (beast_datatype st (py_rstrip line)) as [st1 l1].
  unfold bind. destruct (beast_patterns st1 l1) as [[st2 l2]|];
    [|discriminate].
  intros H; inversion H; eauto.
Qed.

Lemma find_last {A} (f : A -> bool) xs x :
  find f (rev (x :: xs))
  = match find f (rev xs) with
    | Some y => Some y
    | None => if f x then Some x else None
    end.
Proof.
  simpl. induction (rev xs) as [|y ys IH]; simpl; [reflexivity|].
  destruct (f y); [reflexivity|exact IH].
Qed.

Lemma beast_loop_datatype fin : forall st st',
  for_each beast_body st fin = Return st' ->
  datatype st'
  = match find is_datatype_line (rev fin) with
    | Some line => datatype_token line
    | None => datatype st
    end.
Proof.
  induction fin as [|l fin IH]; intros st st' H.
  - simpl in H. now inversion H.
  - simpl in H. destruct (beast_body st l) as [r|] eqn:E; [|discriminate].
    destruct (beast_body_next _ _ E) as [st1 ->].
    rewrite (IH st1 st' H), find_last, (beast_body_datatype _ _ E).
    destruct (find is_datatype_line (rev fin)); [reflexivity|].
    destruct (is_datatype_line l); reflexivity.
Qed.

(** X7.  The data type [process_beast] returns is the token of the last
    line that matches the pattern of the data type, and [unknown] when no
    line does: a later line of the data type replaces an earlier one. *)
Theorem process_beast_last_datatype fin err dt codon np pc :
  process_beast fin = Return (err, dt, codon, np, pc) ->
  dt = last_datatype fin.
Proof.
  unfold process_beast, bind, last_datatype.
  destruct (for_each beast_body beast_init fin) as [st|] eqn:E;
    [|discriminate].
  intros H; inversion H; subst.
  now rewrite (beast_loop_datatype _ _ E).
Qed.

Lemma process_beast_last_datatype_witness :
  txt "aminoacid" = last_datatype beast_two_alignments.
Proof.
  apply (@process_beast_last_datatype beast_two_alignments 0%Z
           (txt "aminoacid") true 2%Z 25%Z).
  vm_compute. reflexivity.
Defined.

(** ** Deleting matches *)

Lemma lstrip_length s :
  exists ws, s = ws ++ py_lstrip s /\ all_space ws = true
             /\ length ws = length s - length (py_lstrip s).
Proof.
  destruct (lstrip_split s) as [ws [E H]]. exists ws.
  repeat split; auto.
  apply (f_equal (@length char)) in E. rewrite length_app in E. lia.
Qed.

Lemma star_space_lstrip s (caps : list text) :
  star_greedy CSpace s (fun s' => Some (s', caps))
  = Some (py_lstrip s, caps).
Proof.
  induction s as [|c s IH]; simpl; [reflexivity|].
  destruct (py_isspace c); [now rewrite IH|reflexivity].
Qed.

(** [re.sub('\s*', '', s)] deletes the white space of [s]. *)
Lemma sub_spaces_filter whole s : forall skip,
  all_space (firstn skip s) = true ->
  sub_go whole regex_spaces skip s = filter not_space s.
Proof.
  induction s as [|c s IH]; intros skip H; [reflexivity|].
  cbn [sub_go]. destruct skip as [|k].
  - unfold match_here, regex_spaces. cbn [run].
    rewrite star_space_lstrip. cbn [py_lstrip filter]. unfold not_space at 1.
    destruct (py_isspace c) eqn:C; cbn [negb].
    + destruct (lstrip_length s) as [ws [E [W L]]].
      assert (B : length s = length ws + length (py_lstrip s)).
      { apply (f_equal (@length char)) in E.
        now rewrite length_app in E. }
      replace (length (c :: s) - length (py_lstrip s))
        with (S (length ws)) by (cbn [length]; lia).
      apply IH. rewrite E, firstn_app, Nat.sub_diag, firstn_all. simpl.
      now rewrite app_nil_r.
    + rewrite Nat.sub_diag. f_equal. apply IH. reflexivity.
  - cbn [firstn all_space forallb] in H. apply andb_prop in H as [C H].
    cbn [filter]. unfold not_space at 1. rewrite C. cbn [negb].
    now apply IH.
Qed.

Lemma sub_spaces s : sub_delete regex_spaces s = filter not_space s.
Proof. apply sub_spaces_filter. reflexivity. Qed.

(** Deleting [k.*] for a class [k] leaves no character of the class. *)
Lemma sub_class_rest whole k s : forall skip,
  forallb (fun c => negb (class_mem k c))
    (sub_go whole (RSeq (ROne k) (RStar CAny)) skip s) = true.
Proof.
  induction s as [|c s IH]; intros skip; [reflexivity|].
  cbn [sub_go]. destruct skip as [|n]; [|apply IH].
  unfold match_here. cbn [run].
  destruct (class_mem k c) eqn:D.
  - destruct (star_greedy_total CAny [] s) as [rest [E L]].
    rewrite E.
    replace (length (c :: s) - length rest) with (S (length s - length rest))
      by (cbn [length]; lia).
    apply IH.
  - simpl. rewrite D. apply IH.
Qed.

Lemma datatype_token_plain line :
  forallb plain_char (datatype_token line) = true.
Proof.
  unfold datatype_token, beast_datatype.
  destruct (found (search regex_datatype (py_rstrip line)));
    [|reflexivity].
  cbn [fst datatype]. rewrite sub_spaces.
  set (t := sub_delete regex_quote_rest _).
  assert (Q : forallb (fun c => negb (N.eqb c dquote)) t = true).
  { apply (sub_class_rest _ (CChar dquote)). }
  clearbody t. induction t as [|c t IH]; [reflexivity|].
  simpl in Q. apply andb_prop in Q as [Qc Q]. cbn [filter].
  unfold not_space at 1. destruct (py_isspace c) eqn:C; cbn [negb].
  - now apply IH.
  - cbn [forallb]. unfold plain_char at 1. rewrite C, Qc. simpl.
    now apply IH.
Qed.

(** X8.  The data type [process_beast] returns contains neither white
    space nor a double quote: the token ends before the quote that closes
    it, and the white space inside it is deleted. *)
Theorem process_beast_datatype_plain fin err dt codon np pc :
  process_beast fin = Return (err, dt, codon, np, pc) ->
  forallb plain_char dt = true.
Proof.
  unfold process_beast, bind.
  destruct (for_each beast_body beast_init fin) as [st|] eqn:E;
    [|discriminate].
  intros H; inversion H; subst.
  rewrite (beast_loop_datatype _ _ E).
  destruct (find is_datatype_line (rev fin));
    [apply datatype_token_plain|reflexivity].
Qed.

Lemma process_beast_datatype_plain_witness :
  forallb plain_char (txt "aminoacid") = true.
Proof.
  apply (@process_beast_datatype_plain beast_two_alignments 0%Z
           (txt "aminoacid") true 2%Z 25%Z).
  vm_compute. reflexivity.
Defined.

(** ** Literal patterns *)

Lemma drop_prefix_starts l : forall s,
  is_some (drop_prefix l s) = starts_with l s.
Proof.
  induction l as [|a l IH]; intros s; [reflexivity|].
  destruct s as [|b s]; [reflexivity|]. simpl.
  destruct (N.eqb a b); [apply IH|reflexivity].
Qed.

Lemma found_from_literal whole l s : forall i,
  (0 <= i)%Z ->
  (0 <=? find_from l s i)%Z = found_from whole (RLit l) s.
Proof.
  induction s as [|c s IH]; intros i H; cbn [find_from found_from];
    unfold match_here; cbn [run];
    rewrite <- drop_prefix_starts;
    destruct (drop_prefix l _); cbn [is_some orb];
    try (apply Z.leb_le; assumption); try reflexivity.
  apply IH. lia.
Qed.

(** Searching for a literal pattern is [find]. *)
Lemma search_literal l s :
  found (search (RLit l) s) = (0 <=? py_find s l)%Z.
Proof.
  rewrite found_search. symmetry. now apply found_from_literal.
Qed.

Lemma digits_without_codon s : forall i,
  forallb is_decimal s = true -> find_from (txt "codon") s i = (-1)%Z.
Proof.
  induction s as [|c s IH]; intros i H; [reflexivity|].
  simpl in H. apply andb_prop in H as [D H].
  cbn [find_from]. change (txt "codon") with ((chr "c") :: txt "odon").
  cbn [starts_with].
  destruct (N.eqb_spec (chr "c") c) as [<-|_]; [discriminate|].
  cbn [andb]. now apply IH.
Qed.

(** ** BEAST: the codon flag *)

Lemma codon_search s : found (search regex_codon s) = contains s "codon".
Proof. apply search_literal. Qed.

Lemma digits_no_codon s :
  forallb is_decimal s = true -> contains s "codon" = false.
Proof.
  intros H. unfold contains, py_find. now rewrite digits_without_codon.
Qed.

Lemma beast_body_codon st line st' :
  beast_body st line = Return (Next st') ->
  codon_partitioning st' = codon_partitioning st || codon_line line.
Proof.
  unfold beast_body, codon_line, is_patterns_line.
  destruct (beast_datatype st (py_rstrip line)) as [st1 l1] eqn:E.
  assert (El : l1 = patterns_text line).
  { unfold patterns_text. rewrite <- (beast_datatype_text st), E.
    reflexivity. }
  assert (C1 : codon_partitioning st1 = codon_partitioning st).
  { replace st1 with (fst (beast_datatype st (py_rstrip line)))
      by now rewrite E.
    unfold beast_datatype.
    destruct (found (search regex_datatype (py_rstrip line))); reflexivity. }
  rewrite <- El. unfold beast_patterns, beast_codon, bind.
  destruct (found (search regex_patterns l1)).
  - destruct (py_int (patterns_digits l1)) eqn:I; [|discriminate].
    intros H; inversion H; subst st'; clear H.
    rewrite codon_search, digits_no_codon by apply patterns_digits_digits.
    cbn [negb andb]. rewrite orb_false_r. exact C1.
  - intros H; inversion H; subst st'; clear H.
    rewrite codon_search. cbn [negb andb].
    destruct (contains l1 "codon"); cbn [codon_partitioning];
      [now rewrite orb_true_r|rewrite orb_false_r; exact C1].
Qed.

Lemma beast_loop_codon fin : forall st st',
  for_each beast_body st fin = Return st' ->
  codon_partitioning st' = codon_partitioning st || existsb codon_line fin.
Proof.
  induction fin as [|l fin IH]; intros st st' H.
  - simpl in H. inversion H; subst. now rewrite orb_false_r.
  - simpl in H. destruct (beast_body st l) as [r|] eqn:E; [|discriminate].
    destruct (beast_body_next _ _ E) as [st1 ->].
    rewrite (IH st1 st' H), (beast_body_codon _ _ E). simpl.
    now rewrite orb_assoc.
Qed.

(** X9.  The codon flag [process_beast] returns is set exactly when some
    line that is not a line of patterns contains [codon] in the text the
    test sees (the line, or what the data-type step left of it).  On a line
    of patterns the test sees only the digits, so the word is not found
    there. *)
Theorem process_beast_codon fin err dt codon np pc :
  process_beast fin = Return (err, dt, codon, np, pc) ->
  codon = existsb codon_line fin.
Proof.
  unfold process_beast, bind.
  destruct (for_each beast_body beast_init fin) as [st|] eqn:E;
    [|discriminate].
  intros H; inversion H; subst.
  now rewrite (beast_loop_codon _ _ E).
Qed.

Lemma process_beast_codon_witness :
  false = existsb codon_line beast_codon_in_patterns.
Proof.
  apply (@process_beast_codon beast_codon_in_patterns 1%Z (txt "unknown")
           false 1%Z 10%Z).
  vm_compute. reflexivity.
Defined.

(** ** GARLI: every file *)

Lemma garli_loop fin : forall st,
  for_each garli_body st fin
  = Return {| bootreps := collected (have_bootreps st) (bootreps st)
                            (first_capture cregex_bootstrapreps fin);
              searchreps := collected (have_searchreps st) (searchreps st)
                              (first_capture cregex_searchreps fin);
              availmem := collected (have_availmem st) (availmem st)
                            (first_capture cregex_availmem fin);
              have_bootreps := have_bootreps st
                || is_some (first_capture cregex_bootstrapreps fin);
              have_searchreps := have_searchreps st
                || is_some (first_capture cregex_searchreps fin);
              have_availmem := have_availmem st
                || is_some (first_capture cregex_availmem fin) |}.
Proof.
  induction fin as [|line fin IH]; intros st.
  - destruct st as [b s a hb hs ha]. cbn. now rewrite !orb_false_r.
  - cbn [for_each first_capture]. unfold garli_body at 1.
    cbn [bind]. rewrite IH. clear IH.
    destruct st as [b s a hb hs ha].
    destruct (search cregex_bootstrapreps (py_strip line)) as [mb|];
      destruct (search cregex_searchreps (py_strip line)) as [ms|];
      destruct (search cregex_availmem (py_strip line)) as [ma|];
      destruct hb, hs, ha;
      destruct (first_capture cregex_bootstrapreps fin);
      destruct (first_capture cregex_searchreps fin);
      destruct (first_capture cregex_availmem fin); reflexivity.
Qed.

(** X10.  For every file, [process_garli] returns what [garli_spec] says:
    each of the three settings is the text its pattern captures in the first
    line of the file in which the pattern is found, independently of the
    other two; the error flag is 1 and the number of runs [-1] exactly when
    some pattern is found in no line, and the settings found so far are
    still returned; otherwise the number of runs is the captured
    bootstrapreps and bootstrapreps itself is returned as 1. *)
Theorem process_garli_first_lines fin :
  process_garli fin = Return (garli_spec fin).
Proof.
  unfold process_garli, process_garli_io. rewrite garli_loop.
  cbn [bind snd]. f_equal.
  unfold garli_spec, garli_finish.
  destruct (first_capture cregex_bootstrapreps fin) as [b|];
    destruct (first_capture cregex_searchreps fin) as [s|];
    destruct (first_capture cregex_availmem fin) as [a|]; reflexivity.
Qed.

Lemma first_capture_digits r fin d :
  number_pattern r -> first_capture r fin = Some d -> py_isdecimal d = true.
Proof.
  intros P. induction fin as [|line fin IH]; cbn [first_capture];
    [discriminate|].
  destruct (search r (py_strip line)) as [m|] eqn:E; [|exact IH].
  intros H; inversion H; subst d.
  exact (@number_pattern_digits r (py_strip line) m P E).
Qed.

Lemma garli_number_patterns :
  number_pattern cregex_bootstrapreps
  /\ number_pattern cregex_searchreps
  /\ number_pattern cregex_availmem.
Proof.
  repeat split; repeat (apply number_step; [reflexivity|]);
    apply number_tail.
Qed.

(** X11.  When [process_garli] returns the error flag 0, the number of
    runs, searchreps and availablememory are texts, each a non-empty run of
    decimal digits, and bootstrapreps is the int 1. *)
Theorem process_garli_numbers fin n b s a :
  process_garli fin = Return (0%Z, n, b, s, a) ->
  b = PyInt 1
  /\ exists dn ds da,
       n = PyStr dn /\ s = PyStr ds /\ a = PyStr da
       /\ py_isdecimal dn = true /\ py_isdecimal ds = true
       /\ py_isdecimal da = true.
Proof.
  unfold process_garli, process_garli_io. rewrite garli_loop.
  cbn [bind snd].
  unfold garli_finish.
  destruct garli_number_patterns as [Pb [Ps Pa]].
  destruct (first_capture cregex_bootstrapreps fin) as [db|] eqn:Eb;
    destruct (first_capture cregex_searchreps fin) as [ds|] eqn:Es;
    destruct (first_capture cregex_availmem fin) as [da|] eqn:Ea;
    cbn; intros H; inversion H; subst; clear H.
  split; [reflexivity|]. exists db, ds, da.
  repeat split.
  - exact (@first_capture_digits _ fin db Pb Eb).
  - exact (@first_capture_digits _ fin ds Ps Es).
  - exact (@first_capture_digits _ fin da Pa Ea).
Qed.

Lemma process_garli_numbers_witness :
  PyInt 1 = PyInt 1
  /\ exists dn ds da,
       PyStr (txt "100") = PyStr dn /\ PyStr (txt "2") = PyStr ds
       /\ PyStr (txt "512") = PyStr da
       /\ py_isdecimal dn = true /\ py_isdecimal ds = true
       /\ py_isdecimal da = true.
Proof.
  apply (@process_garli_numbers garli_one_line (PyStr (txt "100")) (PyInt 1)
           (PyStr (txt "2")) (PyStr (txt "512"))).
  vm_compute. reflexivity.
Defined.

(** ** Migrate parmfile: every case *)

Lemma py_split_length sep s :
  length (py_split sep s) = S (length (filter (N.eqb sep) s)).
Proof.
  induction s as [|c s IH]; [reflexivity|].
  cbn [py_split filter]. rewrite (N.eqb_sym sep c).
  destruct (N.eqb c sep).
  - cbn [length]. now rewrite IH.
  - destruct (py_split sep s) as [|w ws]; [discriminate IH|exact IH].
Qed.

Lemma no_colons s : colons s = 0 -> ~ In (chr ":") s.
Proof.
  unfold colons. induction s as [|c s IH]; cbn [filter]; intros H F;
    [exact F|].
  destruct (N.eqb_spec (chr ":") c) as [E|N].
  - discriminate H.
  - destruct F as [F|F]; [congruence|]. now apply IH.
Qed.

Lemma py_split_one_colon s :
  colons s = 1 -> exists a, py_split (chr ":") s = [a; after_first_colon s].
Proof.
  unfold colons. induction s as [|c s IH]; cbn [filter]; intros H;
    [discriminate H|].
  cbn [py_split after_first_colon]. rewrite (N.eqb_sym (chr ":") c) in H.
  destruct (N.eqb c (chr ":")).
  - cbn [length] in H. exists [].
    rewrite py_split_none; [reflexivity|]. apply no_colons.
    unfold colons. lia.
  - destruct (IH H) as [a E]. rewrite E. now exists (c :: a).
Qed.

Lemma migrate_parm_loop fin : forall st,
  for_each migrate_parm_body st fin
  = match find has_replicate fin with
    | None => Return st
    | Some line =>
        match py_split (chr ":") (py_rstrip line) with
        | [_; r] => Return (PyStr r)
        | _ => Raise ValueError
        end
    end.
Proof.
  induction fin as [|l fin IH]; intros st; [reflexivity|].
  cbn [for_each find]. unfold migrate_parm_body at 1.
  unfold has_replicate at 1.
  destruct (contains (py_rstrip l) "replicate=YES"); [|apply IH].
  destruct (py_split (chr ":") (py_rstrip l)) as [|a [|b [|c t]]]; reflexivity.
Qed.

(** X12.  [process_migrate_parm] on every file: without a line containing
    [replicate=YES] it returns the default; otherwise the first such line,
    without its trailing white space, decides alone: with exactly one colon
    the text after the colon is returned, flagged when [str.isdigit]
    rejects it, and with no colon or more than one the call raises
    ValueError. *)
Theorem process_migrate_parm_every_case fin :
  process_migrate_parm fin = migrate_parm_result fin.
Proof.
  unfold process_migrate_parm, migrate_parm_result.
  rewrite migrate_parm_loop.
  destruct (find has_replicate fin) as [line|]; [|reflexivity].
  destruct (Nat.eqb_spec (colons (py_rstrip line)) 1) as [E|N].
  - destruct (py_split_one_colon _ E) as [a ->]. cbn.
    unfold digit_flag.
    destruct (py_isdigit (after_first_colon (py_rstrip line))); reflexivity.
  - pose proof (py_split_length (chr ":") (py_rstrip line)) as L.
    fold (colons (py_rstrip line)) in L.
    destruct (py_split (chr ":") (py_rstrip line)) as [|a [|b [|c t]]];
      try reflexivity.
    cbn [length] in L. lia.
Qed.

(** ** Migrate infile: the error *)

Lemma split_fields_nil s : forall cur,
  split_fields cur s = [] -> cur = [] /\ all_space s = true.
Proof.
  induction s as [|c s IH]; intros cur; cbn [split_fields].
  - destruct cur; [auto|discriminate].
  - destruct (py_isspace c) eqn:C.
    + destruct cur; cbn [is_nil]; [|discriminate].
      intros H. destruct (IH [] H) as [_ A]. split; [reflexivity|].
      unfold all_space in *. cbn [forallb]. now rewrite C.
    + intros H. destruct (IH _ H) as [F _]. discriminate F.
Qed.

Lemma span_field s :
  exists f s2, s = f ++ s2 /\ no_space f = true
    /\ (s2 = [] \/ exists c t, s2 = c :: t /\ py_isspace c = true).
Proof.
  induction s as [|c s [f [s2 [E [N T]]]]].
  - exists [], []. auto.
  - destruct (py_isspace c) eqn:C.
    + exists [], (c :: s). repeat split. right. eauto.
    + exists (c :: f), s2. repeat split.
      * cbn [app]. now rewrite <- E.
      * unfold no_space in *. cbn [forallb]. now rewrite C.
      * exact T.
Qed.

Lemma one_field_rest s : forall cur,
  is_nil cur = false ->
  nth_error (split_fields cur s) 1 = None ->
  exists f ws', s = f ++ ws' /\ no_space f = true /\ all_space ws' = true.
Proof.
  induction s as [|c s IH]; intros cur Hc H.
  - exists [], []. auto.
  - cbn [split_fields] in H. destruct (py_isspace c) eqn:C.
    + rewrite Hc in H. cbn [nth_error] in H.
      destruct (split_fields [] s) as [|y ys] eqn:S; [|discriminate H].
      destruct (@split_fields_nil s [] S) as [_ A].
      exists [], (c :: s). repeat split.
      unfold all_space in *. cbn [forallb]. now rewrite C.
    + destruct (IH (c :: cur) eq_refl H) as [f [ws' [E [N A]]]].
      exists (c :: f), ws'. repeat split; [|  |exact A].
      * cbn [app]. now rewrite <- E.
      * unfold no_space in *. cbn [forallb]. now rewrite C.
Qed.

Lemma one_field_split s :
  nth_error (py_split_ws s) 1 = None -> at_most_one_field s.
Proof.
  unfold py_split_ws. induction s as [|c s IH]; intros H.
  - exact (@one_field [] [] [] eq_refl eq_refl eq_refl).
  - cbn [split_fields is_nil] in H. destruct (py_isspace c) eqn:C.
    + destruct (IH H) as [ws f ws' A N A'].
      change (at_most_one_field ((c :: ws) ++ f ++ ws')).
      constructor; try assumption.
      unfold all_space in *. cbn [forallb]. now rewrite C.
    + destruct (@one_field_rest s [c] eq_refl H) as [f [ws' [E [N A]]]].
      rewrite E. change (at_most_one_field ([] ++ (c :: f) ++ ws')).
      constructor; try assumption; [reflexivity|].
      unfold no_space in *. cbn [forallb]. now rewrite C.
Qed.

Lemma split_one_field s :
  at_most_one_field s -> nth_error (py_split_ws s) 1 = None.
Proof.
  intros [ws f ws' A N A']. unfold py_split_ws.
  rewrite split_fields_leading by assumption.
  rewrite split_fields_field by assumption.
  rewrite split_fields_spaces by assumption.
  cbn [split_fields]. destruct (is_nil (rev f ++ [])); reflexivity.
Qed.

(** X13.  On a file that is not empty, [process_migrate_infile] raises
    IndexError exactly when the first line has at most one field: white
    space, one run of characters that are not white space (none on a blank
    line), white space.  The lines that follow are never read. *)
Theorem process_migrate_infile_index_error line rest :
  process_migrate_infile (line :: rest) = Raise IndexError
  <-> at_most_one_field line.
Proof.
  unfold process_migrate_infile. cbn [for_each].
  unfold migrate_infile_body. rewrite split_ws_strip. split.
  - intros H. apply one_field_split.
    destruct (nth_error (py_split_ws line) 1); [discriminate H|reflexivity].
  - intros H. now rewrite (split_one_field H).
Qed.

(** ** The score of a line *)

Lemma digits_val_from s : forall acc,
  (0 <= acc)%Z ->
  (0 <= fold_left (fun acc c => (10 * acc + digit_val c)%Z) s acc)%Z.
Proof.
  induction s as [|c s IH]; intros acc H; cbn [fold_left]; [exact H|].
  apply IH. unfold digit_val.
  destruct (find (in_range c) decimal_ranges) as [r|]; [|lia].
  pose proof (N2Z.is_nonneg ((c - fst r) mod 10)). lia.
Qed.

Lemma digits_val_nonneg s : (0 <= digits_val s)%Z.
Proof. unfold digits_val. apply digits_val_from. lia. Qed.

Lemma round_half_even_nonneg a b :
  (0 <= a)%Z -> (0 < b)%Z -> (0 <= round_half_even a b)%Z.
Proof.
  intros Ha Hb. unfold round_half_even.
  assert (Q : (0 <= a / b)%Z) by (apply Z.div_pos; assumption).
  destruct (2 * (a mod b) ?= b)%Z; [destruct (Z.even (a / b))| |]; lia.
Qed.

Lemma binary64_not_positive a b :
  (0 <= a)%Z -> (0 < b)%Z ->
  not_positive (float_neg (binary64_of_ratio a b)) = true.
Proof.
  intros Ha Hb. unfold binary64_of_ratio.
  generalize (2 ^ 1074)%Z (Z.pow_pos_nonneg 2 1074 eq_refl ltac:(discriminate)).
  intros p Hp.
  generalize (Z.max 0 (Z.log2 (a * p / b) + 1 - 53)) (Z.le_max_l 0 (Z.log2 (a * p / b) + 1 - 53)).
  intros sh Hsh.
  assert (P : (0 < 2 ^ sh)%Z) by (apply Z.pow_pos_nonneg; lia).
  assert (R : (0 <= round_half_even (a * p) (b * 2 ^ sh))%Z).
  { apply round_half_even_nonneg; nia. }
  destruct (2 ^ 2098 <=? round_half_even (a * p) (b * 2 ^ sh) * 2 ^ sh)%Z;
    [reflexivity|].
  unfold not_positive. cbn [float_neg float_ltb]. 
  apply negb_true_iff, Z.ltb_ge. nia.
Qed.

Lemma py_float_minus rest y :
  py_float ((chr "-") :: rest) = Return y -> not_positive y = true.
Proof.
  unfold py_float. cbv beta iota. rewrite N.eqb_refl.
  destruct (span_digits rest) as [ip s].
  set (q := match s with [] => _ | _ :: _ => _ end).
  destruct q as [fp s'].
  destruct (is_nil s' && negb (is_nil ip && is_nil fp)); [|discriminate].
  intros H; inversion H; subst y.
  apply binary64_not_positive; [apply digits_val_nonneg|].
  apply Z.pow_pos_nonneg; lia.
Qed.

Lemma py_float_question rest :
  py_float ((chr "?") :: rest) = Raise ValueError.
Proof. reflexivity. Qed.

(** The text the pattern of the score captures starts with the minus sign
    or the question mark. *)
Lemma score_capture line m :
  search regex_score line = Some m ->
  exists c rest, group1 m = c :: rest /\ (c = (chr "-") \/ c = (chr "?")).
Proof.
  unfold search. intros H. apply search_from_sound in H as [t M].
  unfold group1. generalize dependent (m_groups m). generalize (m_after m).
  clear m. intros s' caps M.
  unfold regex_score, lit in M. cbn [seq] in M.
  inversion M; subst; clear M.
  match goal with H : matches _ (RLit _) _ _ _ _ |- _ =>
    inversion H; subst; clear H end.
  match goal with H : matches _ (RSeq _ _) _ _ _ _ |- _ =>
    inversion H; subst; clear H end.
  match goal with H : matches _ (ROne CSpace) _ _ _ _ |- _ =>
    inversion H; subst; clear H end.
  match goal with H : matches _ (RGroup _) _ _ _ _ |- _ =>
    inversion H; subst; clear H end.
  match goal with H : matches _ (RSeq _ _) _ _ _ _ |- _ =>
    inversion H; subst; clear H end.
  match goal with H : matches _ (ROne _) _ _ _ _ |- _ =>
    inversion H; subst; clear H end.
  match goal with H : matches _ (RSeq _ _) _ _ _ _ |- _ =>
    inversion H; subst; clear H end.
  match goal with H : matches _ (RPlus CDigit) _ _ _ _ |- _ =>
    inversion H; subst; clear H end.
  match goal with H : matches _ (RPlus _) _ _ _ _ |- _ =>
    inversion H; subst; clear H end.
  cbn [app hd].
  match goal with
  | |- context [firstn (length (?c :: ?l) - length ?s) _] =>
      replace (length (c :: l) - length s) with (S (length l - length s))
  end.
  - cbn [firstn]. eexists; eexists; split; [reflexivity|].
    match goal with H : class_mem (COr _ _) ?c = true |- _ =>
      cbn [class_mem] in H; apply orb_prop in H as [H|H];
      apply N.eqb_eq in H; auto end.
  - cbn [length]. rewrite !length_app. cbn [length]. rewrite !length_app. lia.
Qed.

(** X14.  A score that [collect_score] returns with the pattern of the
    script is never above zero: the pattern only captures a text that starts
    with the minus sign or the question mark, [float] rejects the second,
    and a line without a match gives 0. *)
Theorem collect_score_never_positive line x :
  collect_score regex_score line = Return x -> not_positive x = true.
Proof.
  unfold collect_score.
  destruct (search regex_score line) as [m|] eqn:E.
  - destruct (@score_capture line m E) as [c [rest [G [C|C]]]];
      rewrite G, C.
    + apply py_float_minus.
    + rewrite py_float_question. discriminate.
  - intros H; inversion H; subst x. reflexivity.
Qed.

Lemma collect_score_never_positive_witness :
  not_positive (float_of "-7.8") = true.
Proof.
  apply (@collect_score_never_positive
           (py_rstrip (score_line "-7.8")) (float_of "-7.8")).
  vm_compute. reflexivity.
Defined.

(** ** Ranking: the offset *)

Lemma line_body_later st line st' :
  first_file st = false ->
  line_body st line = Return (Next st')
  \/ line_body st line = Return (Break st') ->
  first_file st' = false /\ lines_until_score st' = lines_until_score st.
Proof.
  intros F. unfold line_body. rewrite F.
  destruct (line_num st =? lines_until_score st).
  - destruct (collect_score regex_score (py_rstrip line)); cbn [bind];
      intros [E|E]; inversion E; subst; cbn; auto.
  - intros [E|E]; inversion E; subst; cbn; auto.
Qed.

Lemma scan_file_later st fin st' :
  first_file st = false ->
  scan_file st fin = Return st' ->
  first_file st' = false /\ lines_until_score st' = lines_until_score st.
Proof.
  intros F H. unfold scan_file in H.
  refine (@for_each_invariant _ _
            (fun s => first_file s = false
                      /\ lines_until_score s = lines_until_score st)
            line_body fin _ _ st' _ H).
  - intros s x s' _ [Fs Ls] E.
    destruct (@line_body_later s x s' Fs E) as [F' L'].
    split; [assumption|congruence].
  - split; [exact F|reflexivity].
Qed.

Lemma file_body_later st f st' :
  first_file st = false ->
  file_body st f = Return (Next st') ->
  first_file st' = false /\ lines_until_score st' = lines_until_score st.
Proof.
  intros F H. apply file_body_inv in H as [st1 [sc [st2 [E [S [C R]]]]]].
  inversion R; subst st2.
  destruct (@scan_file_later st (snd f) st1 F E) as [F1 L1].
  destruct (@classify_classified st1 (fst f) sc S)
    as [st'' [C' [_ [F2 [L2 _]]]]].
  rewrite C in C'. inversion C'; subst st''.
  split; congruence.
Qed.

Lemma files_later files : forall st st',
  first_file st = false ->
  for_each file_body st files = Return st' ->
  first_file st' = false /\ lines_until_score st' = lines_until_score st.
Proof.
  intros st st' F H.
  refine (@for_each_invariant _ _
            (fun s => first_file s = false
                      /\ lines_until_score s = lines_until_score st)
            file_body files _ st st' _ H).
  - intros s f s' _ [Fs Ls] [E|E].
    + destruct (@file_body_later s f s' Fs E) as [F' L'].
      split; [assumption|congruence].
    + apply file_body_next in E as [? E]. discriminate.
  - split; [exact F|reflexivity].
Qed.

(** X15.  The offset is fixed by the first file alone: when the run
    completes, [lines_until_score] is the number of lines before the first
    line of the first file that contains [GarliScore], whatever the later
    files hold, and [first_file] is off. *)
Theorem offset_from_first_file name before line after rest st :
  Forall (fun l => has_garliscore l = false) before ->
  has_garliscore line = true ->
  main_loop ((name, before ++ line :: after) :: rest) = Return st ->
  first_file st = false /\ lines_until_score st = length before.
Proof.
  intros B L H. unfold main_loop in H. cbn [for_each] in H.
  destruct (file_body rank_init (name, before ++ line :: after))
    as [[st1|st1]|e] eqn:E; try discriminate H.
  - pose proof E as E'.
    apply file_body_inv in E' as [s1 [sc [s2 [Sc [S [C R]]]]]].
    inversion R; subst s2. cbn [snd fst] in *.
    unfold scan_file in Sc.
    rewrite scan_first_found in Sc by (auto; reflexivity).
    destruct (collect_score regex_score (py_rstrip line)) as [x|];
      [|discriminate Sc].
    cbn [bind] in Sc. inversion Sc; subst s1.
    destruct (@classify_classified _ name sc S)
      as [st'' [C' [_ [F2 [L2 _]]]]].
    rewrite C in C'. inversion C'; subst st''.
    cbn in F2, L2.
    destruct (@files_later rest st1 st F2 H) as [F3 L3].
    split; [assumption|congruence].
  - apply file_body_next in E as [? E]. discriminate.
Qed.

Lemma offset_from_first_file_witness :
  first_file ranked_state = false /\ lines_until_score ranked_state = 2.
Proof.
  apply (@offset_from_first_file (txt "run1.best.tre")
           [ln "#NEXUS"; ln "begin trees;"] (score_line "-12.3") [ln "end;"]
           (tl ranked_fixture) ranked_state).
  - repeat constructor.
  - vm_compute. reflexivity.
  - vm_compute. reflexivity.
Defined.

(** ** Ranking: a later file without a score at the offset *)

Lemma files_app pre : forall st post,
  for_each file_body st (pre ++ post)
  = (st' <- for_each file_body st pre ;; for_each file_body st' post).
Proof.
  induction pre as [|f pre IH]; intros st post; [reflexivity|].
  cbn [app for_each].
  destruct (file_body st f) as [[s|s]|e] eqn:E.
  - apply IH.
  - apply file_body_next in E as [? E]. discriminate.
  - reflexivity.
Qed.

Lemma files_problem name files : forall st st',
  error_code st = 1%Z -> In name (problem_files st) ->
  for_each file_body st files = Return st' ->
  error_code st' = 1%Z /\ In name (problem_files st').
Proof.
  intros st st' Ec I H.
  refine (@for_each_invariant _ _
            (fun s => error_code s = 1%Z /\ In name (problem_files s))
            file_body files _ st st' _ H).
  - intros s f s' _ [Es Is] [E|E].
    + apply file_body_books in E as [sc [st1 [_ [_ K]]]].
      unfold classified in K.
      destruct (is_zero sc); destruct K as [K1 [K2 _]]; rewrite K1, K2.
      * split; [reflexivity|]. apply in_or_app. now left.
      * split; assumption.
    + apply file_body_next in E as [? E]. discriminate.
  - split; assumption.
Qed.

Lemma file_body_no_score st name before line after :
  first_file st = false ->
  length before = lines_until_score st ->
  has_score line = false ->
  exists st',
    file_body st (name, before ++ line :: after) = Return (Next st')
    /\ error_code st' = 1%Z
    /\ problem_files st' = problem_files st ++ [name].
Proof.
  intros F L S. unfold file_body. cbn [snd fst]. unfold scan_file.
  rewrite scan_later_found by (auto; cbn; assumption).
  unfold collect_score. unfold has_score in S.
  destruct (search regex_score (py_rstrip line)); [discriminate S|].
  cbn. eexists. split; [reflexivity|]. cbn. split; reflexivity.
Qed.

(** X16.  A later file is judged by one line only, the line at the offset
    of the first file: when the pattern of the score finds nothing in that
    line, the file is a problem file, and a run that completes prints the
    problem files, this one among them, and writes no file of scores,
    whatever the other lines of the file and the files after it hold. *)
Theorem later_file_without_score pre st name before line after post r :
  main_loop pre = Return st ->
  first_file st = false ->
  length before = lines_until_score st ->
  has_score line = false ->
  rank_files (pre ++ (name, before ++ line :: after) :: post) = Return r ->
  exists names, r = ProblemFiles names /\ In name names.
Proof.
  intros M F L S H. unfold rank_files, main_loop in *.
  rewrite files_app, M in H. cbn [bind for_each] in H.
  destruct (@file_body_no_score st name before line after F L S)
    as [st1 [E [Ec P]]].
  rewrite E in H.
  destruct (for_each file_body st1 post) as [st2|e] eqn:R;
    [|discriminate H].
  destruct (@files_problem name post st1 st2 Ec) as [Ec2 I2];
    [rewrite P; apply in_or_app; right; now left|exact R|].
  cbn [bind] in H. unfold finish in H. rewrite Ec2 in H. cbn in H.
  inversion H; subst r. eauto.
Qed.

Lemma later_file_without_score_witness :
  exists names,
    ProblemFiles [txt "run2.best.tre"] = ProblemFiles names
    /\ In (txt "run2.best.tre") names.
Proof.
  apply (@later_file_without_score first_run
           (match main_loop first_run with
            | Return st => st
            | Raise _ => rank_init
            end)
           (txt "run2.best.tre") [ln "#NEXUS"; ln "begin trees;"]
           (score_line "12.3") [ln "end;"] []).
  - vm_compute. reflexivity.
  - vm_compute. reflexivity.
  - vm_compute. reflexivity.
  - vm_compute. reflexivity.
  - vm_compute. reflexivity.
Defined.

(** ** Ranking: the sign of the scores *)

Lemma collect_score_sign line x :
  collect_score regex_score line = Return x ->
  float_ltb (FFin 0) x = false.
Proof.
  unfold collect_score.
  destruct (search regex_score line) as [m|] eqn:E.
  - destruct (@score_capture line m E) as [c [rest [G [C|C]]]];
      rewrite G, C.
    + intros H. apply py_float_minus in H.
      now apply negb_true_iff in H.
    + rewrite py_float_question. discriminate.
  - intros H; inversion H; subst x. reflexivity.
Qed.

Lemma line_body_sign st line st' :
  (forall sc, score st = Some sc -> float_ltb (FFin 0) sc = false) ->
  line_body st line = Return (Next st')
  \/ line_body st line = Return (Break st') ->
  forall sc, score st' = Some sc -> float_ltb (FFin 0) sc = false.
Proof.
  intros P. unfold line_body.
  destruct (first_file st).
  - destruct (0 <=? py_find (py_rstrip line) (txt "GarliScore"))%Z.
    + destruct (collect_score regex_score (py_rstrip line)) as [x|] eqn:C;
        cbn [bind]; intros [E|E]; inversion E; subst; cbn.
      intros sc S; inversion S; subst.
      exact (@collect_score_sign _ _ C).
    + intros [E|E]; inversion E; subst; cbn. exact P.
  - destruct (line_num st =? lines_until_score st).
    + destruct (collect_score regex_score (py_rstrip line)) as [x|] eqn:C;
        cbn [bind]; intros [E|E]; inversion E; subst; cbn.
      intros sc S; inversion S; subst.
      exact (@collect_score_sign _ _ C).
    + intros [E|E]; inversion E; subst; cbn. exact P.
Qed.

Lemma scan_file_sign st fin st' :
  (forall sc, score st = Some sc -> float_ltb (FFin 0) sc = false) ->
  scan_file st fin = Return st' ->
  forall sc, score st' = Some sc -> float_ltb (FFin 0) sc = false.
Proof.
  intros P H. unfold scan_file in H.
  refine (@for_each_invariant _ _
            (fun s => forall sc, score s = Some sc ->
                                 float_ltb (FFin 0) sc = false)
            line_body fin _ _ st' _ H).
  - intros s x s' _ Ps E. exact (@line_body_sign s x s' Ps E).
  - exact P.
Qed.

Lemma negative_score sc :
  float_ltb (FFin 0) sc = false -> is_zero sc = false ->
  float_ltb sc (FFin 0) = true.
Proof.
  intros L Z. apply float_ltb_total; [exact L|].
  intros E. subst sc. discriminate Z.
Qed.

Lemma files_sign files st :
  main_loop files = Return st ->
  Forall (fun k => float_ltb k (FFin 0) = true) (dict_keys (score_dict st)).
Proof.
  unfold main_loop. intros H.
  refine (proj2 (@for_each_invariant _ _
            (fun s => (forall sc, score s = Some sc ->
                                  float_ltb (FFin 0) sc = false)
                      /\ Forall (fun k => float_ltb k (FFin 0) = true)
                           (dict_keys (score_dict s)))
            file_body files _ rank_init st _ H)).
  - intros s f s' _ [Ps Ds] [E|E].
    + apply file_body_inv in E as [st1 [sc [st2 [Sc [S [C R]]]]]].
      inversion R; subst st2.
      pose proof (@scan_file_sign s (snd f) st1 Ps Sc sc S) as L.
      destruct (scan_file_books _ _ Sc) as [_ [_ D1]].
      destruct (@classify_classified st1 (fst f) sc S)
        as [st'' [C' [S' [_ [_ K]]]]].
      rewrite C in C'. inversion C'; subst st''.
      split.
      * intros sc' S''. rewrite S' in S''. inversion S''; subst sc'.
        exact L.
      * unfold classified in K. destruct (is_zero sc) eqn:Z;
          destruct K as [_ [_ K]]; rewrite K, D1; [exact Ds|].
        rewrite dict_set_keys.
        destruct (existsb (float_eqb sc) (dict_keys (score_dict s)));
          [exact Ds|].
        apply Forall_app. split; [exact Ds|].
        constructor; [|constructor]. now apply negative_score.
    + apply file_body_next in E as [? E]. discriminate.
  - split; [discriminate|constructor].
Qed.

Lemma write_scores_lines d keys : forall ls,
  Forall (fun k => float_ltb k (FFin 0) = true) keys ->
  write_scores d keys = Return ls ->
  forallb negative_line ls = true.
Proof.
  induction keys as [|k keys IH]; intros ls F H; cbn [write_scores] in H.
  - inversion H; subst. reflexivity.
  - inversion F as [|? ? Fk Fr]; subst.
    destruct (dict_get d k) as [name|]; [|discriminate H].
    cbn [bind] in H.
    destruct (write_scores d keys) as [rest|]; [|discriminate H].
    cbn [bind] in H. inversion H; subst ls.
    cbn [forallb negative_line]. rewrite Fk. exact (IH rest Fr eq_refl).
Qed.

(** X17.  Whenever the run writes the file of scores, the file is the
    header followed by lines whose scores are all below zero: a score of
    zero makes a problem file, and no score above zero is ever collected. *)
Theorem ranked_scores_negative files out :
  rank_files files = Return (ScoresFile out) ->
  exists lines,
    out = WHeader :: lines /\ forallb negative_line lines = true.
Proof.
  unfold rank_files.
  destruct (main_loop files) as [st|] eqn:M; [|discriminate].
  cbn [bind]. unfold finish.
  destruct (error_code st =? 1)%Z; [discriminate|].
  unfold make_out_file.
  destruct (write_scores (score_dict st)
              (sorted_desc (dict_keys (score_dict st)))) as [rest|] eqn:W;
    [|discriminate].
  cbn [bind]. intros H; inversion H; subst out.
  exists rest. split; [reflexivity|].
  apply (@write_scores_lines _ _ rest) in W; [exact W|].
  apply (Permutation_Forall
           (Permutation_sym (sorted_desc_perm (dict_keys (score_dict st))))).
  exact (@files_sign files st M).
Qed.

Lemma ranked_scores_negative_witness :
  exists lines,
    scores_written ranked_fixture = WHeader :: lines
    /\ forallb negative_line lines = true.
Proof.
  apply (@ranked_scores_negative ranked_fixture
           (scores_written ranked_fixture)).
  vm_compute. reflexivity.
Defined.

(** ** Ranking: two files with one score *)

Lemma dict_get_set d k v : dict_get (dict_set d k v) k = Return v.
Proof.
  induction d as [|[k' v'] d IH]; cbn [dict_set dict_get].
  - now rewrite float_eqb_refl.
  - destruct (float_eqb k' k) eqn:E; cbn [dict_get]; rewrite E;
      [reflexivity|exact IH].
Qed.

(** X18.  A file classified with a score other than zero becomes the entry
    of the dictionary under that score; when an earlier file had the same
    score, the set of keys does not change: the later file name replaces
    the earlier one, and the earlier file has no line in the output. *)
Theorem equal_scores_last_file_wins st name fin st' sc :
  file_body st (name, fin) = Return (Next st') ->
  score st' = Some sc ->
  is_zero sc = false ->
  dict_get (score_dict st') sc = Return name
  /\ (existsb (float_eqb sc) (dict_keys (score_dict st)) = true ->
      dict_keys (score_dict st') = dict_keys (score_dict st)).
Proof.
  intros H S Z.
  apply file_body_inv in H as [st1 [sc1 [st2 [Sc [S1 [C R]]]]]].
  inversion R; subst st2. cbn [fst snd] in *.
  destruct (scan_file_books _ _ Sc) as [_ [_ D1]].
  destruct (@classify_classified st1 name sc1 S1)
    as [st'' [C' [S' [_ [_ K]]]]].
  rewrite C in C'. inversion C'; subst st''.
  rewrite S in S'. inversion S'; subst sc1.
  unfold classified in K. rewrite Z in K. destruct K as [_ [_ K]].
  rewrite K, D1. split; [apply dict_get_set|].
  intros E. now rewrite dict_set_keys, E.
Qed.

Lemma equal_scores_last_file_wins_witness :
  dict_get (score_dict (state_after short_state same_score_file))
    (float_of "-7.8") = Return (txt "run2.best.tre")
  /\ (existsb (float_eqb (float_of "-7.8"))
        (dict_keys (score_dict short_state)) = true ->
      dict_keys (score_dict (state_after short_state same_score_file))
      = dict_keys (score_dict short_state)).
Proof.
  apply (@equal_scores_last_file_wins short_state (txt "run2.best.tre")
           (snd same_score_file) (state_after short_state same_score_file)
           (float_of "-7.8")).
  - vm_compute. reflexivity.
  - vm_compute. reflexivity.
  - vm_compute. reflexivity.
Defined.

(** ** BEAST: the error flag *)

Lemma beast_body_inv st line st' :
  counts_inv st ->
  beast_body st line = Return (Next st')
  \/ beast_body st line = Return (Break st') ->
  counts_inv st'.
Proof.
  intros [N [P I]]. unfold beast_body.
  destruct (beast_datatype st (py_rstrip line)) as [st1 l1] eqn:E.
  destruct (beast_datatype_counts st (py_rstrip line)) as [N1 P1].
  rewrite E in N1, P1. cbn [fst] in N1, P1.
  unfold beast_patterns.
  destruct (found (search regex_patterns l1)).
  - rewrite py_int_numeral. destruct (convertible (patterns_digits l1));
      cbn [bind]; intros [H|H]; inversion H; subst st'; clear H.
    destruct (beast_codon_counts
                {| datatype := datatype st1;
                   codon_partitioning := codon_partitioning st1;
                   nu_partitions := nu_partitions st1 + 1;
                   pattern_count := pattern_count st1
                                    + digits_val (patterns_digits l1) |}
                (patterns_digits l1)) as [N2 P2].
    unfold counts_inv. rewrite N2, P2. cbn.
    pose proof (digits_val_nonneg (patterns_digits l1)). lia.
  - cbn [bind]. intros [H|H]; inversion H; subst st'; clear H.
    destruct (beast_codon_counts st1 l1) as [N2 P2].
    unfold counts_inv. rewrite N2, P2. lia.
Qed.

(** X19.  Whenever [process_beast] returns, neither count is negative and
    a pattern count above zero comes with a partition count above zero, so
    the test of the partition count adds nothing: the error flag is 0
    exactly when the data type is [aminoacid] or [nucleotide] and the
    pattern count is above zero. *)
Theorem process_beast_error_flag fin err dt codon np pc :
  process_beast fin = Return (err, dt, codon, np, pc) ->
  (0 <= np)%Z /\ (0 <= pc)%Z /\ ((0 < pc)%Z -> (0 < np)%Z)
  /\ err = (if known_datatype dt && (0 <? pc)%Z then 0 else 1)%Z.
Proof.
  unfold process_beast.
  destruct (for_each beast_body beast_init fin) as [st|] eqn:E;
    [|discriminate].
  cbn [bind]. intros H; inversion H; subst; clear H.
  assert (I : counts_inv st).
  { refine (@for_each_invariant _ _ counts_inv beast_body fin _
              beast_init st _ E).
    - intros s x s' _ Is B. exact (@beast_body_inv s x s' Is B).
    - unfold counts_inv. cbn. lia. }
  destruct I as [N [P I]]. repeat split; try assumption.
  unfold beast_err_code, known_datatype.
  destruct (text_eqb (datatype st) (txt "aminoacid"));
    destruct (text_eqb (datatype st) (txt "nucleotide"));
    cbn [negb andb orb];
    destruct (Z.ltb_spec 0 (pattern_count st));
    destruct (Z.leb_spec (nu_partitions st) 0);
    destruct (Z.leb_spec (pattern_count st) 0);
    cbn [orb]; try reflexivity; lia.
Qed.

Lemma process_beast_error_flag_witness :
  (0 <= 2)%Z /\ (0 <= 25)%Z /\ ((0 < 25)%Z -> (0 < 2)%Z)
  /\ 0%Z = (if known_datatype (txt "nucleotide") && (0 <? 25)%Z
            then 0 else 1)%Z.
Proof.
  apply (@process_beast_error_flag beast_fixture 0%Z (txt "nucleotide")
           false 2%Z 25%Z).
  vm_compute. reflexivity.
Defined.

(** ** The directory *)

Lemma starts_with_app p : forall s,
  starts_with p s = true <-> exists t, s = p ++ t.
Proof.
  induction p as [|a p IH]; intros s.
  - split; [intros _; now exists s|reflexivity].
  - destruct s as [|b s]; cbn [starts_with].
    + split; [discriminate|intros [t E]; discriminate E].
    + rewrite andb_true_iff, IH. split.
      * intros [A [t ->]]. apply N.eqb_eq in A. subst. now exists t.
      * intros [t E]. inversion E; subst. split;
          [apply N.eqb_refl|now exists t].
Qed.

Lemma py_endswith_app s suffix :
  py_endswith s suffix = true <-> exists p, s = p ++ suffix.
Proof.
  unfold py_endswith. rewrite starts_with_app. split.
  - intros [t E]. exists (rev t).
    rewrite <- (rev_involutive s), E, rev_app_distr.
    now rewrite rev_involutive.
  - intros [p ->]. exists (rev p). apply rev_app_distr.
Qed.

(** X20.  A directory entry whose name does not end in [.best.tre] is
    never opened: the run gives the same result, or raises the same error,
    with the entry and without it, whatever the entry holds. *)
Theorem post_garli_other_files pre f post :
  (forall p, fst f <> p ++ txt ".best.tre") ->
  post_garli (pre ++ f :: post) = post_garli (pre ++ post).
Proof.
  intros H. unfold post_garli, best_tre_files.
  rewrite !filter_app. cbn [filter].
  match goal with
  | |- context [if ?b then _ else _] => destruct b eqn:E
  end; [|reflexivity].
  apply py_endswith_app in E as [p E]. now apply H in E.
Qed.

Lemma post_garli_other_files_witness :
  post_garli (first_run ++ conf_entry :: [same_score_file])
  = post_garli (first_run ++ [same_score_file]).
Proof.
  apply (@post_garli_other_files first_run conf_entry [same_score_file]).
  intros p E. apply (f_equal (@rev char)) in E.
  rewrite rev_app_distr in E. vm_compute in E. discriminate E.
Defined.

(** ** Matching: the continuation *)

Lemma star_greedy_map {A B} (f : A -> B) k s (cont : text -> option A) :
  star_greedy k s (fun t => option_map f (cont t))
  = option_map f (star_greedy k s cont).
Proof.
  induction s as [|c s IH]; cbn [star_greedy]; [reflexivity|].
  destruct (class_mem k c); [|reflexivity].
  rewrite IH. destruct (star_greedy k s cont); reflexivity.
Qed.

Lemma star_greedy_ext {A} k s (c1 c2 : text -> option A) :
  (forall t, c1 t = c2 t) -> star_greedy k s c1 = star_greedy k s c2.
Proof.
  intros H. induction s as [|c s IH]; cbn [star_greedy]; [apply H|].
  rewrite IH, H. reflexivity.
Qed.

Lemma run_ext {A} whole r : forall s caps
  (c1 c2 : text -> list text -> option A),
  (forall t g, c1 t g = c2 t g) ->
  run whole r s caps c1 = run whole r s caps c2.
Proof.
  induction r as [l|k|k|k|r1 IH1 r2 IH2|r1 IH1 r2 IH2|r1 IH1|];
    intros s caps c1 c2 H; cbn [run].
  - destruct (drop_prefix l s); [apply H|reflexivity].
  - destruct s as [|c s]; [reflexivity|]. now rewrite H.
  - apply star_greedy_ext. intros t. apply H.
  - destruct s as [|c s]; [reflexivity|].
    destruct (class_mem k c); [|reflexivity].
    apply star_greedy_ext. intros t. apply H.
  - apply IH1. intros t g. apply IH2, H.
  - rewrite (IH1 s caps c1 c2 H), (IH2 s caps c1 c2 H). reflexivity.
  - apply IH1. intros t g. apply H.
  - now rewrite H.
Qed.

(** A step after the match that cannot fail does not change which match is
    taken. *)
Lemma run_map {A B} (f : A -> B) whole r : forall s caps
  (cont : text -> list text -> option A),
  run whole r s caps (fun t g => option_map f (cont t g))
  = option_map f (run whole r s caps cont).
Proof.
  induction r as [l|k|k|k|r1 IH1 r2 IH2|r1 IH1 r2 IH2|r1 IH1|];
    intros s caps cont; cbn [run].
  - destruct (drop_prefix l s); reflexivity.
  - destruct s as [|c s]; [reflexivity|].
    destruct (class_mem k c); reflexivity.
  - apply (star_greedy_map f k s (fun t => cont t caps)).
  - destruct s as [|c s]; [reflexivity|].
    destruct (class_mem k c); [|reflexivity].
    apply (star_greedy_map f k s (fun t => cont t caps)).
  - rewrite <- IH1. apply run_ext. intros t g. apply IH2.
  - rewrite IH1, IH2. destruct (run whole r1 s caps cont); reflexivity.
  - apply (IH1 s caps
             (fun t g => cont t (g ++ [firstn (length s - length t) s]))).
  - destruct (length s =? whole); reflexivity.
Qed.

Lemma star_any_total {A} s (g : text -> A) :
  star_greedy CAny s (fun t => Some (g t)) = Some (g (skip_any s)).
Proof.
  induction s as [|c s IH]; cbn [star_greedy skip_any class_mem];
    [reflexivity|].
  destruct (N.eqb c newline); cbn [negb]; [reflexivity|].
  now rewrite IH.
Qed.

(** A trailing [.*] does not change what is captured. *)
Lemma trailing_capture whole key t :
  capture_here whole
    (seq [lit key; RStar CSpace; lit "="; RStar CSpace;
          RGroup (RPlus CDigit); RStar CAny]) t
  = capture_here whole (key_pattern key) t.
Proof.
  unfold capture_here, match_here, key_pattern.
  change (run whole
            (seq [lit key; RStar CSpace; lit "="; RStar CSpace;
                  RGroup (RPlus CDigit); RStar CAny]) t []
            (fun s' caps => Some (s', caps)))
    with (run whole
            (seq [lit key; RStar CSpace; lit "="; RStar CSpace;
                  RGroup (RPlus CDigit)]) t []
            (fun s' caps =>
               star_greedy CAny s' (fun s'' => Some (s'', caps)))).
  rewrite (@run_ext _ whole _ t []
             (fun s' caps =>
                star_greedy CAny s' (fun s'' => Some (s'', caps)))
             (fun s' caps =>
                option_map (fun p => (skip_any (fst p), snd p))
                  (Some (s', caps)))).
  - rewrite (run_map (fun p : text * list text => (skip_any (fst p), snd p))).
    destruct (run whole _ t [] _) as [[s' caps]|]; reflexivity.
  - intros s' caps. apply (star_any_total s' (fun s'' => (s'', caps))).
Qed.

(** ** Matching: the last occurrence *)

Lemma star_any_last {A} s (cont : text -> option A) :
  no_newline s = true -> star_greedy CAny s cont = last_suffix cont s.
Proof.
  induction s as [|c s IH]; intros H; [reflexivity|].
  cbn [no_newline forallb] in H. apply andb_prop in H as [C H].
  cbn [star_greedy last_suffix class_mem]. rewrite C, (IH H). reflexivity.
Qed.

Lemma search_from_last whole r s : forall before,
  no_newline s = true ->
  option_map m_groups (search_from whole (RSeq (RStar CAny) r) before s)
  = option_map snd (last_suffix (match_here whole r) s).
Proof.
  induction s as [|c s IH]; intros before H; cbn [search_from].
  - unfold match_here at 1. cbn [run star_greedy last_suffix].
    fold (match_here whole r []).
    destruct (match_here whole r []) as [[rest caps]|]; reflexivity.
  - assert (E : match_here whole (RSeq (RStar CAny) r) (c :: s)
                = last_suffix (match_here whole r) (c :: s)).
    { unfold match_here at 1. cbn [run].
      now rewrite star_any_last by exact H. }
    rewrite E.
    destruct (last_suffix (match_here whole r) (c :: s))
      as [[rest caps]|] eqn:L; [reflexivity|].
    cbn [no_newline forallb] in H. apply andb_prop in H as [_ H].
    rewrite (IH (c :: before) H).
    cbn [last_suffix] in L.
    destruct (last_suffix (match_here whole r) s); [discriminate L|].
    reflexivity.
Qed.

Lemma last_capture_suffix whole r s :
  last_capture whole r s
  = option_map (fun p => hd [] (snd p)) (last_suffix (match_here whole r) s).
Proof.
  induction s as [|c s IH]; cbn [last_capture last_suffix].
  - unfold capture_here. destruct (match_here whole r []) as [[? ?]|];
      reflexivity.
  - rewrite IH. destruct (last_suffix (match_here whole r) s) as [[? ?]|];
      [reflexivity|].
    unfold capture_here. destruct (match_here whole r (c :: s)) as [[? ?]|];
      reflexivity.
Qed.

Lemma last_capture_ext whole r r' s :
  (forall t, capture_here whole r t = capture_here whole r' t) ->
  last_capture whole r s = last_capture whole r' s.
Proof.
  intros H. induction s as [|c s IH]; cbn [last_capture];
    [apply H|]. now rewrite IH, H.
Qed.

(** On a text without a newline, the compiled pattern of a setting
    captures what the pattern of the specification captures at its last
    occurrence. *)
Lemma search_last_capture key s :
  no_newline s = true ->
  option_map group1 (search (compiled_pattern key) s)
  = last_capture (length s) (key_pattern key) s.
Proof.
  intros H. unfold search, compiled_pattern.
  change (seq [RStar CAny; lit key; RStar CSpace; lit "="; RStar CSpace;
               RGroup (RPlus CDigit); RStar CAny])
    with (RSeq (RStar CAny)
            (seq [lit key; RStar CSpace; lit "="; RStar CSpace;
                  RGroup (RPlus CDigit); RStar CAny])).
  rewrite <- (@last_capture_ext _ _ _ s (trailing_capture (length s) key)).
  rewrite last_capture_suffix.
  pose proof (@search_from_last (length s)
                (seq [lit key; RStar CSpace; lit "="; RStar CSpace;
                      RGroup (RPlus CDigit); RStar CAny]) s [] H) as E.
  destruct (search_from (length s) _ [] s) as [m|];
    destruct (last_suffix _ s) as [[rest caps]|]; cbn in E |- *;
    try discriminate E; [|reflexivity].
  inversion E. unfold group1. now f_equal.
Qed.

(** ** Lines of a file *)

Lemma no_newline_app a b :
  no_newline (a ++ b) = no_newline a && no_newline b.
Proof. apply forallb_app. Qed.

Lemma no_newline_strip s :
  no_newline s = true -> no_newline (py_strip s) = true.
Proof.
  intros H. unfold py_strip.
  destruct (rstrip_split s) as [ws [E _]].
  destruct (lstrip_split (py_rstrip s)) as [ws' [E' _]].
  rewrite E, no_newline_app in H. apply andb_prop in H as [H _].
  rewrite E', no_newline_app in H. now apply andb_prop in H as [_ H].
Qed.

Lemma rstrip_last_space s c :
  py_isspace c = true -> py_rstrip (s ++ [c]) = py_rstrip s.
Proof.
  intros C. unfold py_rstrip. rewrite rev_app_distr. cbn [rev app py_lstrip].
  now rewrite C.
Qed.

(** A line of a file, stripped, holds no newline. *)
Lemma line_of_file_strip line :
  line_of_file line = true -> no_newline (py_strip line) = true.
Proof.
  unfold line_of_file. fold (no_newline (removelast line)).
  destruct (rev line) as [|c r] eqn:R.
  - apply (f_equal (@rev char)) in R. rewrite rev_involutive in R.
    subst line. reflexivity.
  - apply (f_equal (@rev char)) in R. rewrite rev_involutive in R.
    cbn [rev] in R. subst line. rewrite removelast_last. intros H.
    destruct (py_isspace c) eqn:C.
    + unfold py_strip. rewrite rstrip_last_space by exact C.
      now apply no_newline_strip.
    + apply no_newline_strip. rewrite no_newline_app, H.
      cbn [no_newline forallb]. rewrite andb_true_r.
      destruct (N.eqb_spec c newline) as [->|_]; [discriminate C|reflexivity].
Qed.

Lemma captured_last key line z :
  line_of_file line = true ->
  captured_or (compiled_pattern key) line z
  = last_or (key_pattern key) line z.
Proof.
  intros H. unfold captured_or, last_or.
  rewrite <- (@search_last_capture key _ (@line_of_file_strip line H)).
  destruct (search (compiled_pattern key) (py_strip line)); reflexivity.
Qed.

(** C8, amended.  For every MrBayes file read line by line,
    [process_bayes] handles the first control line only: the first line
    that, stripped of the white space around it, starts with [mcmc] or
    [mcmcp] and a white-space character.  On that stripped line nruns is
    the text captured at the last occurrence of [nruns\s*=\s*(\d+)], or 2
    when there is none, nchains the text captured at the last occurrence of
    [nchains\s*=\s*(\d+)], or 4, and the error flag is 0; without a
    control line both stay [-1] and the error flag is 1. *)
Theorem process_bayes_first_control_line fin :
  forallb line_of_file fin = true ->
  process_bayes fin = Return (bayes_spec fin).
Proof.
  intros H. unfold process_bayes, process_bayes_io, bayes_finish, bayes_spec.
  rewrite bayes_loop. cbn [bind snd].
  destruct (find is_control fin) as [l|] eqn:F; [|reflexivity].
  apply find_some in F as [I _].
  assert (L : line_of_file l = true).
  { rewrite forallb_forall in H. now apply H. }
  cbn [nruns nchains].
  change cregex_nruns with (compiled_pattern "nruns").
  change cregex_nchains with (compiled_pattern "nchains").
  rewrite !captured_last by exact L.
  change (key_pattern "nruns") with spec_nruns.
  change (key_pattern "nchains") with spec_nchains.
  unfold last_or.
  destruct (last_capture _ spec_nruns _);
    destruct (last_capture _ spec_nchains _); reflexivity.
Qed.

Lemma process_bayes_first_control_line_witness :
  process_bayes bayes_example = Return (0%Z, PyInt 2, PyInt 4).
Proof.
  apply (@process_bayes_first_control_line bayes_example). reflexivity.
Defined.

(** C8, the claim as worded fails: on a control line that sets nruns twice
    the script takes the second value, where the pattern of the claim finds
    the first. *)
Lemma process_bayes_last_occurrence :
  process_bayes two_nruns = Return (0%Z, PyStr (txt "8"), PyStr (txt "2"))
  /\ bayes_claimed two_nruns = (0%Z, PyStr (txt "3"), PyStr (txt "2")).
Proof. split; vm_compute; reflexivity. Qed.

(** ** The tables *)

Lemma in_ranges_within t u c :
  within t u = true -> in_ranges t c = true -> in_ranges u c = true.
Proof.
  unfold within, in_ranges. rewrite forallb_forall.
  intros W H. apply existsb_exists in H as [r [I R]].
  specialize (W r I). apply existsb_exists in W as [q [J Q]].
  apply existsb_exists. exists q. split; [exact J|].
  unfold in_range in *.
  apply andb_prop in R as [R1 R2]. apply andb_prop in Q as [Q1 Q2].
  apply N.leb_le in R1, R2, Q1, Q2.
  apply andb_true_intro. split; apply N.leb_le; lia.
Qed.

(** Every decimal digit is a digit for [str.isdigit]. *)
Lemma decimal_is_digit c : is_decimal c = true -> is_digit c = true.
Proof. apply in_ranges_within. vm_compute. reflexivity. Qed.

Lemma py_isdecimal_isdigit s : py_isdecimal s = true -> py_isdigit s = true.
Proof.
  unfold py_isdecimal, py_isdigit. intros H.
  apply andb_prop in H as [N D]. rewrite N. cbn [andb].
  rewrite forallb_forall in *. intros c I. apply decimal_is_digit, D, I.
Qed.

(** ** Characters outside ASCII *)

(** White space is Python's: a no-break space at the end of the replicate
    line is stripped, and one between two fields separates them. *)
Lemma process_migrate_parm_nbsp :
  process_migrate_parm parm_nbsp = Return (0%Z, PyStr (txt "10")).
Proof. vm_compute. reflexivity. Qed.

Lemma process_migrate_infile_nbsp :
  process_migrate_infile infile_nbsp = Return (0%Z, PyStr (txt "3")).
Proof. vm_compute. reflexivity. Qed.

(** [str.isdigit] accepts a superscript two, which is not a decimal
    digit: the error flag is 0. *)
Lemma process_migrate_parm_superscript :
  process_migrate_parm parm_superscript
  = Return (0%Z, PyStr [superscript_two])
  /\ is_decimal superscript_two = false.
Proof. split; vm_compute; reflexivity. Qed.

(** The pattern of the lines of patterns takes a no-break space for white
    space and Arabic-Indic digits for digits: 5 and 33 patterns; the first
    line is cut down to its numeral before the test for [codon]. *)
Lemma process_beast_nbsp :
  process_beast beast_nbsp
  = Return (1%Z, txt "unknown", false, 2%Z, 38%Z).
Proof. vm_compute. reflexivity. Qed.

(** [int] refuses a numeral of more than 4300 digits. *)
Lemma process_beast_long_numeral :
  process_beast beast_long_numeral = Raise ValueError.
Proof. vm_compute. reflexivity. Qed.

(** ** MrBayes: the control line *)

(** The control line is recognised once stripped: an indented [mcmc] line
    is one, where the claim wants the line itself to start with [mcmc]; a
    line that holds nothing but [mcmc] is none, since the white space that
    followed is stripped. *)
Lemma process_bayes_indented_control_line :
  process_bayes indented_control = Return (0%Z, PyStr (txt "3"), PyInt 4)
  /\ bayes_claimed indented_control = (1%Z, PyInt (-1), PyInt (-1)).
Proof. split; vm_compute; reflexivity. Qed.

Lemma process_bayes_bare_mcmc :
  process_bayes bare_mcmc = Return (1%Z, PyInt (-1), PyInt (-1))
  /\ bayes_claimed bare_mcmc = (0%Z, PyInt 2, PyInt 4).
Proof. split; vm_compute; reflexivity. Qed.
